(** * Topologic: metadata codec, model dispatch and raster frame order

    A shallow embedding of [include/topologic/parse.h] (XML and JSON decode,
    [updateModel], [parseModel]), of the state ladder and the renderers of
    [topologic/state.h], and of the settings-driven model update of
    [src/xstep/ios/iOSAppDelegate.mm]. *)

From Stdlib Require Import Ascii String.
From stdpp Require Import base numbers list strings pretty.

Local Open Scope Z_scope.
Local Open Scope nat_scope.

(** ** Scalars

    The template parameter [Q] of the C++ code ("base type for calculations,
    e.g. double or GLfloat").  The decoder never computes with scalars: it
    reads them from text, stores them, prints them and compares one of them
    with [1].  These library operations are the interface of the class. *)
Class Scalar (Q : Type) := {
  (** [Q(std::stold(value))]; [None] when [std::stold] throws
      ([std::invalid_argument] or [std::out_of_range]). *)
  stold : string → option Q;
  (** [stream << double(x)] *)
  show : Q → string;
  (** [Q(0)] and [Q(1)] *)
  zero : Q;
  one : Q;
  (** [x < 1.] *)
  below_one : Q → bool;
  (** conversion of a scalar to an integral field, as in [(int)value] *)
  truncate : Q → Z;
}.

(** ** Numbers in XPath

    The comparison [@depth = n] of an XPath predicate is made by libxml2 on
    numbers: it converts the text of the attribute to a double.  That
    conversion is not part of these sources.  The model takes the comparison
    as given and relies on one fact about it: the decimal numeral of [n],
    which is what the decoder writes into its expressions, is equal to
    [n]. *)
Class XPath := {
  (** the number that the text stands for is [n] *)
  number_is : string → nat → bool;
  number_is_numeral : ∀ n : nat, number_is (pretty n) n = true;
}.

(** ** The attribute tree seen through the XPath capability

    The decoder only looks at elements of the topologic namespace, at their
    attributes and at their document order.  A document is the sequence of
    these elements, siblings under one parent as [metadata()] writes them. *)
Record element := Element {
  tag : string;
  attributes : list (string * string);
}.

(** [xml::parser]: [valid], the document, and the XPath context node.  The
    context is kept as the context node followed by its following siblings;
    the empty list is the initial context (the document root). *)
Record parser := Parser {
  valid : bool;
  document : list element;
  context : list element;
}.

Fixpoint lookup_attribute (name : string) (l : list (string * string)) : option string :=
  match l with
  | [] => None
  | (k, v) :: rest => if String.eqb k name then Some v else lookup_attribute name rest
  end.

(** String value of the node set selected by [@name] on one element: the
    attribute's value, or the empty string for the empty node set. *)
Definition attribute (name : string) (e : element) : string :=
  default EmptyString (lookup_attribute name (attributes e)).

(** [evaluate("@name")], relative to the context node. *)
Definition evaluate_here (name : string) (p : parser) : string :=
  match context p with
  | [] => EmptyString
  | e :: _ => attribute name e
  end.

(** [evaluate("//topologic:t/@name")]: the string value of the first
    attribute node, in document order, among the elements named [t]. *)
Fixpoint first_attribute (t name : string) (doc : list element) : string :=
  match doc with
  | [] => EmptyString
  | e :: rest =>
      if String.eqb (tag e) t then
        match lookup_attribute name (attributes e) with
        | Some v => v
        | None => first_attribute t name rest
        end
      else first_attribute t name rest
  end.

Definition evaluate_anywhere (t name : string) (p : parser) : string :=
  first_attribute t name (document p).

(** Node tests of the [updateContext] expressions. *)
Definition count_is (t : string) (n : nat) (e : element) : bool :=
  String.eqb (tag e) t && (length (attributes e) =? n).

(** [topologic:t[@depth = n]].  XPath compares the attribute with [n] as
    numbers: the text of the attribute goes through XPath's [number()], so
    that [4], [4.0], [04] and the same between spaces all equal 4.  The
    conversion is the library's ([number_is]). *)
Definition depth_is `{!XPath} (t : string) (n : nat) (e : element) : bool :=
  String.eqb (tag e) t &&
  match lookup_attribute "depth" (attributes e) with
  | Some v => number_is v n
  | None => false
  end.

(** [topologic:model[@depth][@type]] *)
Definition has_depth_and_type (e : element) : bool :=
  String.eqb (tag e) "model" &&
  bool_decide (is_Some (lookup_attribute "depth" (attributes e))) &&
  bool_decide (is_Some (lookup_attribute "type" (attributes e))).

(** The siblings starting at the first element that passes [test]. *)
Fixpoint seek (test : element → bool) (l : list element) : list element :=
  match l with
  | [] => []
  | e :: rest => if test e then e :: rest else seek test rest
  end.

(** [updateContext("//topologic:...[test][1]")]: with one parent the node set
    has at most one node; the context moves exactly when it has one. *)
Definition updateContext (test : element → bool) (p : parser) : parser * bool :=
  match seek test (document p) with
  | [] => (p, false)
  | found => (Parser (valid p) (document p) found, true)
  end.

(** [updateContext("following-sibling::topologic:...[test][1]")] *)
Definition updateContext_following (test : element → bool) (p : parser) : parser * bool :=
  match seek test (tail (context p)) with
  | [] => (p, false)
  | found => (Parser (valid p) (document p) found, true)
  end.

(** ** The state ladder *)

Record colour (Q : Type) := RGBA { red : Q; green : Q; blue : Q; alpha : Q }.
Arguments RGBA {Q}.
Arguments red {Q}.
Arguments green {Q}.
Arguments blue {Q}.
Arguments alpha {Q}.

(** [efgy::geometry::parameters<Q>], the fields the decoders assign.
    [radius] and [precision] are the fields [metadata()] prints as
    [polarRadius] and [polarPrecision]. *)
Record parameters (Q : Type) := Parameters {
  radius : Q;
  radius2 : Q;
  constant : Q;
  precision : Q;
  iterations : Z;
  seed : Z;
  functions : Z;
  flameCoefficients : Z;
  preRotate : bool;
  postRotate : bool;
}.
Arguments Parameters {Q}.
Arguments radius {Q}.
Arguments radius2 {Q}.
Arguments constant {Q}.
Arguments precision {Q}.
Arguments iterations {Q}.
Arguments seed {Q}.
Arguments functions {Q}.
Arguments flameCoefficients {Q}.
Arguments preRotate {Q}.
Arguments postRotate {Q}.

(** What [state<Q,d>] adds to [state<Q,d-1>]: the polar and cartesian camera
    and the (d+1)x(d+1) transformation matrix. *)
Record level (Q : Type) := Level {
  fromp : list Q;
  from : list Q;
  to : list Q;
  transformation : list (list Q);
}.
Arguments Level {Q}.
Arguments fromp {Q}.
Arguments from {Q}.
Arguments to {Q}.
Arguments transformation {Q}.

(** A renderer instance: where it lives and what its accessors return. *)
Record renderer := Renderer {
  address : nat;
  id : string;
  depth : Z;
  renderDepth : Z;
}.

(** [state<Q,d>]: [levels] holds the per-dimension part of dimension 2 at
    index 0, of dimension 3 at index 1, and so on; the other fields are those
    of the base class. *)
Record state (Q : Type) := State {
  levels : list (level Q);
  polarCoordinates : bool;
  parameter : parameters Q;
  exportMultiplier : Q;
  background : colour Q;
  wireframe : colour Q;
  surface : colour Q;
  idPrefix : string;
  model : option renderer;
}.
Arguments State {Q}.
Arguments levels {Q}.
Arguments polarCoordinates {Q}.
Arguments parameter {Q}.
Arguments exportMultiplier {Q}.
Arguments background {Q}.
Arguments wireframe {Q}.
Arguments surface {Q}.
Arguments idPrefix {Q}.
Arguments model {Q}.

(** Field updates (C++ assignments to one member). *)
Section Setters.
Context {Q : Type}.

Definition set_red (q : Q) (c : colour Q) := RGBA q (green c) (blue c) (alpha c).
Definition set_green (q : Q) (c : colour Q) := RGBA (red c) q (blue c) (alpha c).
Definition set_blue (q : Q) (c : colour Q) := RGBA (red c) (green c) q (alpha c).
Definition set_alpha (q : Q) (c : colour Q) := RGBA (red c) (green c) (blue c) q.

Definition set_radius (q : Q) (p : parameters Q) :=
  Parameters q (radius2 p) (constant p) (precision p) (iterations p) (seed p)
    (functions p) (flameCoefficients p) (preRotate p) (postRotate p).
Definition set_radius2 (q : Q) (p : parameters Q) :=
  Parameters (radius p) q (constant p) (precision p) (iterations p) (seed p)
    (functions p) (flameCoefficients p) (preRotate p) (postRotate p).
Definition set_constant (q : Q) (p : parameters Q) :=
  Parameters (radius p) (radius2 p) q (precision p) (iterations p) (seed p)
    (functions p) (flameCoefficients p) (preRotate p) (postRotate p).
Definition set_precision (q : Q) (p : parameters Q) :=
  Parameters (radius p) (radius2 p) (constant p) q (iterations p) (seed p)
    (functions p) (flameCoefficients p) (preRotate p) (postRotate p).
Definition set_iterations (n : Z) (p : parameters Q) :=
  Parameters (radius p) (radius2 p) (constant p) (precision p) n (seed p)
    (functions p) (flameCoefficients p) (preRotate p) (postRotate p).
Definition set_seed (n : Z) (p : parameters Q) :=
  Parameters (radius p) (radius2 p) (constant p) (precision p) (iterations p) n
    (functions p) (flameCoefficients p) (preRotate p) (postRotate p).
Definition set_functions (n : Z) (p : parameters Q) :=
  Parameters (radius p) (radius2 p) (constant p) (precision p) (iterations p) (seed p)
    n (flameCoefficients p) (preRotate p) (postRotate p).
Definition set_flameCoefficients (n : Z) (p : parameters Q) :=
  Parameters (radius p) (radius2 p) (constant p) (precision p) (iterations p) (seed p)
    (functions p) n (preRotate p) (postRotate p).
Definition set_preRotate (b : bool) (p : parameters Q) :=
  Parameters (radius p) (radius2 p) (constant p) (precision p) (iterations p) (seed p)
    (functions p) (flameCoefficients p) b (postRotate p).
Definition set_postRotate (b : bool) (p : parameters Q) :=
  Parameters (radius p) (radius2 p) (constant p) (precision p) (iterations p) (seed p)
    (functions p) (flameCoefficients p) (preRotate p) b.

Definition set_fromp (v : list Q) (l : level Q) := Level v (from l) (to l) (transformation l).
Definition set_from (v : list Q) (l : level Q) := Level (fromp l) v (to l) (transformation l).
Definition set_transformation (m : list (list Q)) (l : level Q) :=
  Level (fromp l) (from l) (to l) m.

Definition set_levels (ls : list (level Q)) (s : state Q) :=
  State ls (polarCoordinates s) (parameter s) (exportMultiplier s) (background s)
    (wireframe s) (surface s) (idPrefix s) (model s).
Definition set_polarCoordinates (b : bool) (s : state Q) :=
  State (levels s) b (parameter s) (exportMultiplier s) (background s)
    (wireframe s) (surface s) (idPrefix s) (model s).
Definition set_parameter (p : parameters Q) (s : state Q) :=
  State (levels s) (polarCoordinates s) p (exportMultiplier s) (background s)
    (wireframe s) (surface s) (idPrefix s) (model s).
Definition set_background (c : colour Q) (s : state Q) :=
  State (levels s) (polarCoordinates s) (parameter s) (exportMultiplier s) c
    (wireframe s) (surface s) (idPrefix s) (model s).
Definition set_wireframe (c : colour Q) (s : state Q) :=
  State (levels s) (polarCoordinates s) (parameter s) (exportMultiplier s) (background s)
    c (surface s) (idPrefix s) (model s).
Definition set_surface (c : colour Q) (s : state Q) :=
  State (levels s) (polarCoordinates s) (parameter s) (exportMultiplier s) (background s)
    (wireframe s) c (idPrefix s) (model s).
Definition set_model (m : option renderer) (s : state Q) :=
  State (levels s) (polarCoordinates s) (parameter s) (exportMultiplier s) (background s)
    (wireframe s) (surface s) (idPrefix s) m.

(** The members that [state<Q,d>] itself declares, inside a state of at
    least [d] dimensions.  Dimension 1 declares no camera. *)
Definition level_of (d : nat) (s : state Q) : option (level Q) :=
  if d <? 2 then None else levels s !! (d - 2).

Definition at_level (d : nat) (f : level Q → level Q) (s : state Q) : state Q :=
  if d <? 2 then s else set_levels (alter f (d - 2) (levels s)) s.

(** [s.fromp[i] = q], [s.from[i] = q] and
    [s.transformation.matrix[i][j] = q] on the members of dimension [d]. *)
Definition assign_fromp (d i : nat) (q : Q) : state Q → state Q :=
  at_level d (λ l, set_fromp (<[i := q]> (fromp l)) l).
Definition assign_from (d i : nat) (q : Q) : state Q → state Q :=
  at_level d (λ l, set_from (<[i := q]> (from l)) l).
Definition assign_cell (d i j : nat) (q : Q) : state Q → state Q :=
  at_level d (λ l, set_transformation (alter (λ row, <[j := q]> row) i (transformation l)) l).
End Setters.

(** ** Decoding with exceptions

    [parse] updates the state through a reference, so what it assigned before
    an exception left the function stays assigned.  A computation maps the
    state and the parser to their new values and either a result or the reason
    the call was left early. *)
Inductive failure :=
  | Thrown          (* an exception of std::stold or std::stoi left the decoder *)
  | Fault.          (* use of the null object of a failed XPath evaluation *)

Inductive result (A : Type) :=
  | Return (a : A)
  | Abort (f : failure).
Arguments Return {A}.
Arguments Abort {A}.

Definition M (Q A : Type) : Type := state Q * parser → (state Q * parser) * result A.

Definition ret {Q A} (a : A) : M Q A := λ w, (w, Return a).
Definition bind {Q A B} (c : M Q A) (k : A → M Q B) : M Q B :=
  λ w, match c w with
       | (w', Return a) => k a w'
       | (w', Abort f) => (w', Abort f)
       end.
Definition abort {Q A} (f : failure) : M Q A := λ w, (w, Abort f).
Definition modify {Q} (f : state Q → state Q) : M Q unit := λ w, ((f w.1, w.2), Return tt).
Definition ask {Q A} (f : parser → A) : M Q A := λ w, (w, Return (f w.2)).
Definition move_context {Q} (c : list element) : M Q unit :=
  λ w, ((w.1, Parser (valid w.2) (document w.2) c), Return tt).

Declare Scope decode_scope.
Delimit Scope decode_scope with decode.
Notation "x <- c ;; k" := (bind c (λ x, k))
  (at level 100, c at next level, right associativity) : decode_scope.
Notation "c ;; k" := (bind c (λ _, k))
  (at level 100, right associativity) : decode_scope.

(** [for (i = ...; ...; i++) body(i)] over the listed indices. *)
Fixpoint for_each {Q} (l : list nat) (body : nat → M Q unit) : M Q unit :=
  match l with
  | [] => ret tt
  | i :: rest => bind (body i) (λ _, for_each rest body)
  end.

(** [if (updateContext(first)) do body while (updateContext(following))]:
    [siblings] are the elements not yet passed; each one that passes [test]
    becomes the context node and [body] runs on it.  [body] only evaluates
    expressions and never moves the context itself. *)
Fixpoint visit {Q} (test : element → bool) (body : M Q unit) (siblings : list element) : M Q unit :=
  match siblings with
  | [] => ret tt
  | e :: rest =>
      if test e
      then bind (move_context (e :: rest)) (λ _, bind body (λ _, visit test body rest))
      else visit test body rest
  end.

Definition nonempty (v : string) : bool := negb (String.eqb v EmptyString).

Definition cartesianDimensions : string :=
  "xyzwvutsrqponmlkjihgfedcbaZYXWVUTSRQPONMLKJIHGFEDCBA".

(** [sizeof(cartesianDimensions)]: the 52 letters and the terminating NUL. *)
Definition sizeof_cartesianDimensions : nat := 53.

(** Modelled from the spec: [affine<Q,d>()], the default-constructed affine
    transformation of [ef.gy], is not part of these sources; the spec has
    [matrix="identity"] stand for the (d+1)x(d+1) identity matrix. *)
Definition identity {Q} `{!Scalar Q} (d : nat) : list (list Q) :=
  (λ i, (λ j, if i =? j then one else zero) <$> seq 0 (S d)) <$> seq 0 (S d).

(** ** parse.h: the XML decoder *)
Section XmlDecoder.
Context {Q : Type} `{!Scalar Q} `{!XPath}.
Local Open Scope decode_scope.

(** [field = Q(std::stold(value))] *)
Definition assign (value : string) (set : Q → state Q → state Q) : M Q unit :=
  match stold value with
  | Some q => modify (set q)
  | None => abort Thrown
  end.

(** One round of [for (std::size_t i = 0; i < d; i++)] in the camera loop. *)
Definition camera_axis (d i : nat) : M Q unit :=
  value <- (if i =? 0 then ask (evaluate_here "radius") else ret EmptyString);;
  if nonempty value then assign value (assign_fromp d 0)
  else
    value <- ask (evaluate_here ("theta-" +:+ pretty i));;
    if nonempty value then assign value (assign_fromp d i)
    else if i <? sizeof_cartesianDimensions then
      match String.get i cartesianDimensions with
      | Some letter =>
          value <- ask (evaluate_here (String letter EmptyString));;
          if nonempty value then assign value (assign_from d i) else ret tt
      | None => abort Fault
      end
    else
      value <- ask (evaluate_here ("d-" +:+ pretty i));;
      if nonempty value then assign value (assign_from d i) else ret tt.

Definition camera (d : nat) : M Q unit :=
  doc <- ask document;;
  visit (count_is "camera" d) (for_each (seq 0 d) (camera_axis d)) doc.

Definition identity_reset (d : nat) : M Q unit :=
  doc <- ask document;;
  visit (depth_is "transformation" d)
    (value <- ask (evaluate_here "matrix");;
     if String.eqb value "identity"
     then modify (at_level d (set_transformation (identity d)))
     else ret tt)
    doc.

Definition cell (d i j : nat) : M Q unit :=
  value <- ask (evaluate_here ("e" +:+ pretty i +:+ "-" +:+ pretty j));;
  if nonempty value then assign value (assign_cell d i j) else ret tt.

Definition cells (d : nat) : M Q unit :=
  doc <- ask document;;
  visit (count_is "transformation" ((d + 1) * (d + 1)))
    (for_each (seq 0 (S d)) (λ i, for_each (seq 0 (S d)) (cell d i)))
    doc.

(** [if (value = parser.evaluate("//topologic:t/@a")) is not empty, field = ...] *)
Definition numeric (t a : string) (set : Q → state Q → state Q) : M Q unit :=
  value <- ask (evaluate_anywhere t a);;
  if nonempty value then assign value set else ret tt.

Definition choice (t a yes : string) (set : bool → state Q → state Q) : M Q unit :=
  value <- ask (evaluate_anywhere t a);;
  if nonempty value then modify (set (String.eqb value yes)) else ret tt.

Definition on_parameter (f : parameters Q → parameters Q) (s : state Q) : state Q :=
  set_parameter (f (parameter s)) s.
Definition on_background (f : colour Q → colour Q) (s : state Q) : state Q :=
  set_background (f (background s)) s.
Definition on_wireframe (f : colour Q → colour Q) (s : state Q) : state Q :=
  set_wireframe (f (wireframe s)) s.
Definition on_surface (f : colour Q → colour Q) (s : state Q) : state Q :=
  set_surface (f (surface s)) s.

(** The assignments of the 1D fix point that follow [options/@radius]. *)
Definition after_radius : M Q unit :=
  choice "camera" "mode" "polar" set_polarCoordinates;;
  numeric "colour-background" "red" (λ q, on_background (set_red q));;
  numeric "colour-background" "green" (λ q, on_background (set_green q));;
  numeric "colour-background" "blue" (λ q, on_background (set_blue q));;
  numeric "colour-background" "alpha" (λ q, on_background (set_alpha q));;
  numeric "colour-wireframe" "red" (λ q, on_wireframe (set_red q));;
  numeric "colour-wireframe" "green" (λ q, on_wireframe (set_green q));;
  numeric "colour-wireframe" "blue" (λ q, on_wireframe (set_blue q));;
  numeric "colour-wireframe" "alpha" (λ q, on_wireframe (set_alpha q));;
  numeric "colour-surface" "red" (λ q, on_surface (set_red q));;
  numeric "colour-surface" "green" (λ q, on_surface (set_green q));;
  numeric "colour-surface" "blue" (λ q, on_surface (set_blue q));;
  numeric "colour-surface" "alpha" (λ q, on_surface (set_alpha q));;
  numeric "ifs" "iterations" (λ q, on_parameter (set_iterations (truncate q)));;
  numeric "ifs" "seed" (λ q, on_parameter (set_seed (truncate q)));;
  numeric "ifs" "functions" (λ q, on_parameter (set_functions (truncate q)));;
  choice "ifs" "pre-rotate" "yes" (λ b, on_parameter (set_preRotate b));;
  choice "ifs" "post-rotate" "yes" (λ b, on_parameter (set_postRotate b));;
  numeric "flame" "coefficients" (λ q, on_parameter (set_flameCoefficients (truncate q))).

(** [parse(state<Q,1> &, xml::parser &)] *)
Definition parse_fix_point : M Q bool :=
  ok <- ask valid;;
  if negb ok then ret false
  else
    numeric "precision" "polar" (λ q, on_parameter (set_precision q));;
    numeric "options" "radius" (λ q, on_parameter (set_radius q));;
    after_radius;;
    ret true.

(** [parse(state<Q,d> &, xml::parser &)]; the template recursion on [d] ends
    in the fix point at dimension 1. *)
Fixpoint parse (d : nat) : M Q bool :=
  match d with
  | S (S _ as lower) =>
      ok <- ask valid;;
      if negb ok then ret false
      else
        camera d;;
        identity_reset d;;
        cells d;;
        parse lower
  | _ => parse_fix_point
  end.

End XmlDecoder.

(** ** Model dispatch *)

(** [std::stoi]: leading white space, an optional sign and the longest run of
    decimal digits; [None] when it throws ([std::invalid_argument]: no digit;
    [std::out_of_range]: the value does not fit an [int]). *)
Definition is_space (c : ascii) : bool :=
  let n := nat_of_ascii c in (n =? 32) || ((9 <=? n) && (n <=? 13)).

Fixpoint skip_spaces (s : string) : string :=
  match s with
  | String c rest => if is_space c then skip_spaces rest else s
  | EmptyString => s
  end.

Definition digit (c : ascii) : option Z :=
  let n := nat_of_ascii c in
  if (48 <=? n) && (n <=? 57) then Some (Z.of_nat (n - 48)) else None.

Fixpoint digits (s : string) (read : option Z) : option Z :=
  match s with
  | String c rest =>
      match digit c with
      | Some v => digits rest (Some (10 * default 0 read + v)%Z)
      | None => read
      end
  | EmptyString => read
  end.

Definition INT_MAX : Z := 2147483647.
Definition INT_MIN : Z := -2147483648.

Definition stoi (s : string) : option Z :=
  let s := skip_spaces s in
  let '(negative, s) :=
    match s with
    | String "-" rest => (true, rest)
    | String "+" rest => (false, rest)
    | _ => (false, s)
    end in
  match digits s None with
  | None => None
  | Some n =>
      let v := (if negative then - n else n)%Z in
      if ((INT_MIN <=? v) && (v <=? INT_MAX))%Z then Some v else None
  end.

(** [int] arithmetic, two's complement. *)
Definition wrap_int (z : Z) : Z := ((z - INT_MIN) mod 2 ^ 32 + INT_MIN)%Z.

(** The arguments [efgy::geometry::with] receives. *)
Record request := Request {
  format : string;
  type : string;
  dims : Z;
  rdims : Z;
}.

(** An entry of the compiled model table. *)
Record entry := Entry {
  entry_type : string;
  entry_format : string;
  minimum : nat;
  maximum : nat;
}.

Definition serves (r : request) (e : entry) : bool :=
  String.eqb (entry_type e) (type r) && String.eqb (entry_format e) (format r) &&
  (Z.of_nat (minimum e) <=? dims r)%Z && (dims r <=? Z.of_nat (maximum e))%Z.

(** ** Replacement of the bound renderer

    [updateModel::apply] runs [if (out.model) { delete out.model;
    out.model = 0; }], then [out.model = new render::wrapper(out, tag)], and
    returns [out.model != 0].  Renderer objects are on the heap; an object is
    alive from the end of its constructor to the start of its destructor.
    The statements are run on the state together with the addresses of the
    renderers that are alive, and a snapshot is recorded at each place where
    code can look at the state: the caller before and after the call, the
    destructor of the old renderer and the constructor of the new one, and
    the two places between the statements of the replacement. *)
Inductive place :=
  | on_entry            (* before the first statement *)
  | in_destructor       (* inside [delete out.model]: the destructor of the old renderer runs *)
  | after_delete        (* after [delete out.model], before [out.model = 0] *)
  | after_reset         (* after [out.model = 0] *)
  | in_constructor      (* inside [new render::wrapper(out, tag)], which is handed [out] *)
  | on_return.          (* after [out.model = ...], when [apply] returns *)

#[global] Instance place_eq_dec : EqDecision place.
Proof. solve_decision. Defined.

Record snapshot (Q : Type) := Snapshot {
  where_ : place;
  seen : state Q;
  alive : list nat;
}.
Arguments Snapshot {Q}.
Arguments where_ {Q}.
Arguments seen {Q}.
Arguments alive {Q}.

Section Ownership.
Context {Q : Type}.

Definition destroy (a : nat) (objects : list nat) : list nat :=
  filter (λ b, b ≠ a) objects.

(** The statements of [apply] in program order.  [delete] ends the life of
    the old renderer when it enters the destructor, and does not touch
    [out.model]; [created] is the object that [new] returns, alive once its
    constructor has ended. *)
Definition apply_steps (created : renderer) (out : state Q) (objects : list nat)
    : list (snapshot Q) :=
  let released :=
    match model out with
    | Some old =>
        [Snapshot in_destructor out (destroy (address old) objects);
         Snapshot after_delete out (destroy (address old) objects);
         Snapshot after_reset (set_model None out) (destroy (address old) objects)]
    | None => []
    end in
  let out' := match model out with Some _ => set_model None out | None => out end in
  let objects' :=
    match model out with Some old => destroy (address old) objects | None => objects end in
  [Snapshot on_entry out objects] ++ released ++
  [Snapshot in_constructor out' objects';
   Snapshot on_return (set_model (Some created) out') (address created :: objects')].

(** The model accessor yields null or a renderer object that is alive. *)
Definition sound (x : snapshot Q) : Prop :=
  match model (seen x) with
  | None => True
  | Some r => address r ∈ alive x
  end.

(** Index of the first snapshot taken at place [p]. *)
Fixpoint reached (p : place) (trace : list (snapshot Q)) : option nat :=
  match trace with
  | [] => None
  | x :: rest =>
      if bool_decide (where_ x = p) then Some 0 else S <$> reached p rest
  end.

End Ownership.

Section Dispatch.
Context {Q : Type}.

(** [updateModel::apply]: the state in which its statements end, and
    [out.model != 0].  [created] is the object [new] returns.  The state does
    not depend on which objects are alive. *)
Definition apply (created : renderer) (out : state Q) : state Q * bool :=
  let out := default out (seen <$> last (apply_steps created out [])) in
  (out, bool_decide (model out ≠ None)).

(** [updateModel::pass] *)
Definition pass (out : state Q) : state Q * bool :=
  (out, bool_decide (model out ≠ None)).

(** Modelled from the spec: [efgy::geometry::with<Q, updateModel, d>], the
    factory of [ef.gy/factory.h], is not part of these sources.  It scans the
    compiled table for an entry with this type name and format whose range
    includes the requested depth, and calls [apply] of the functor
    instantiated for it; with no such entry it calls [pass], which parse.h
    documents as "used instead of the apply method whenever
    efgy::geometry::with was unable to find a matching model/depth
    combination". *)
Definition geometry_with (table : list entry) (fresh : nat) (r : request)
    (out : state Q) : state Q * bool :=
  match find (serves r) table with
  | Some e => apply (Renderer fresh (entry_type e) (dims r) (rdims r)) out
  | None => pass out
  end.

Local Open Scope decode_scope.

Definition update_context (test : element → bool) : M Q bool :=
  λ w, let '(p, moved) := updateContext test w.2 in ((w.1, p), Return moved).

Definition stoi_of (value : string) : M Q Z :=
  match stoi value with
  | Some n => ret n
  | None => abort Thrown
  end.

Definition closed_topology (type : string) : bool :=
  String.eqb type "sphere" || String.eqb type "moebius-strip" || String.eqb type "klein-bagle".

(** [parseModel(state<Q,d> &, xml::parser &)] up to the call of
    [efgy::geometry::with]: the arguments of that call, or [None] on the
    paths that return [false] without calling it. *)
Definition model_request : M Q (option request) :=
  ok <- ask valid;;
  if negb ok then ret None
  else
    value <- ask (evaluate_anywhere "coordinates" "format");;
    let format := if nonempty value then value else "cartesian" in
    moved <- update_context has_depth_and_type;;
    if moved then
      value <- ask (evaluate_here "depth");;
      depth <- stoi_of value;;
      type <- ask (evaluate_here "type");;
      value <- ask (evaluate_here "render-depth");;
      rdepth <- (if nonempty value then stoi_of value else ret depth);;
      let rdepth :=
        if (rdepth =? 0)%Z
        then if closed_topology type then wrap_int (depth + 1) else depth
        else rdepth in
      ret (Some (Request format type depth rdepth))
    else ret None.

Definition parseModel (table : list entry) (fresh : nat) : M Q bool :=
  r <- model_request;;
  match r with
  | Some r => λ w, let '(s, b) := geometry_with table fresh r w.1 in ((s, w.2), Return b)
  | None => ret false
  end.

End Dispatch.

(** ** parse.h: the JSON decoder *)

(** [efgy::json::value<>] *)
#[local] Unset Elimination Schemes.
Inductive json (Q : Type) :=
  | JNull
  | JBool (b : bool)
  | JNumber (q : Q)
  | JString (s : string)
  | JArray (items : list (json Q))
  | JObject (members : list (string * json Q)).
#[local] Set Elimination Schemes.
Arguments JNull {Q}.
Arguments JBool {Q}.
Arguments JNumber {Q}.
Arguments JString {Q}.
Arguments JArray {Q}.
Arguments JObject {Q}.

Section JsonDecoder.
Context {Q : Type} `{!Scalar Q}.

Fixpoint lookup_member (key : string) (l : list (string * json Q)) : json Q :=
  match l with
  | [] => JNull
  | (k, v) :: rest => if String.eqb k key then v else lookup_member key rest
  end.

(** [value("key")]; a missing member reads as null. *)
Definition member (key : string) (v : json Q) : json Q :=
  match v with
  | JObject l => lookup_member key l
  | _ => JNull
  end.

Definition isObject (v : json Q) : bool := match v with JObject _ => true | _ => false end.
Definition isArray (v : json Q) : bool := match v with JArray _ => true | _ => false end.
Definition isNumber (v : json Q) : bool := match v with JNumber _ => true | _ => false end.
Definition isString (v : json Q) : bool := match v with JString _ => true | _ => false end.
Definition isNull (v : json Q) : bool := match v with JNull => true | _ => false end.
Definition toArray (v : json Q) : list (json Q) := match v with JArray l => l | _ => [] end.
Definition size (v : json Q) : nat := length (toArray v).
(** [v[i]] *)
Definition item (i : nat) (v : json Q) : json Q := default JNull (toArray v !! i).
(** [(bool)v] *)
Definition truth (v : json Q) : bool := match v with JBool b => b | _ => false end.

(** [field = v] for a value that [isNumber()]. *)
Definition store (v : json Q) (set : Q → state Q → state Q) (s : state Q) : state Q :=
  match v with
  | JNumber q => set q s
  | _ => s
  end.

Definition json_camera (d : nat) (polar : bool) (s : state Q) (c : json Q) : state Q :=
  if isArray c && (size c =? d) then
    foldl (λ s i, store (item i c) (if polar then assign_fromp d i else assign_from d i) s)
      s (seq 0 d)
  else s.

Definition json_transformation (d : nat) (s : state Q) (t : json Q) : state Q :=
  if isArray t && (size t =? (d + 1) * (d + 1)) then
    foldl (λ s i,
      foldl (λ s j, store (item (i * (d + 1) + j) t) (assign_cell d i j) s) s (seq 0 (S d)))
      s (seq 0 (S d))
  else s.

Definition json_colour (v : json Q) (update : (colour Q → colour Q) → state Q → state Q)
    (s : state Q) : state Q :=
  if isArray v && (5 <=? size v) && isNumber (item 1 v) && isNumber (item 2 v) &&
     isNumber (item 3 v) && isNumber (item 4 v)
  then
    let s := store (item 1 v) (λ q, update (set_red q)) s in
    let s := store (item 2 v) (λ q, update (set_green q)) s in
    let s := store (item 3 v) (λ q, update (set_blue q)) s in
    store (item 4 v) (λ q, update (set_alpha q)) s
  else s.

Definition json_flag (v : json Q) (set : bool → parameters Q → parameters Q)
    (s : state Q) : state Q :=
  if isNull v then s else on_parameter (set (truth v)) s.

(** [parse(state<Q,1> &, efgy::json::value<> &)] *)
Definition parse_json_fix_point (s : state Q) (value : json Q) : state Q * bool :=
  if negb (isObject value) then (s, false)
  else
    let s := store (member "radius" value) (λ q, on_parameter (set_radius q)) s in
    let s := store (member "minorRadius" value) (λ q, on_parameter (set_radius2 q)) s in
    let s := store (member "constant" value) (λ q, on_parameter (set_constant q)) s in
    let s := store (member "precision" value) (λ q, on_parameter (set_precision q)) s in
    let s := store (member "iterations" value)
               (λ q, on_parameter (set_iterations (truncate q))) s in
    let s := store (member "seed" value) (λ q, on_parameter (set_seed (truncate q))) s in
    let s := store (member "functions" value)
               (λ q, on_parameter (set_functions (truncate q))) s in
    let s := store (member "flameCoefficients" value)
               (λ q, on_parameter (set_flameCoefficients (truncate q))) s in
    let s := json_flag (member "preRotate" value) set_preRotate s in
    let s := json_flag (member "postRotate" value) set_postRotate s in
    let s := json_colour (member "background" value) on_background s in
    let s := json_colour (member "wireframe" value) on_wireframe s in
    let s := json_colour (member "surface" value) on_surface s in
    (s, true).

(** [parse(state<Q,d> &, efgy::json::value<> &)] *)
Fixpoint parse_json (d : nat) (s : state Q) (value : json Q) : state Q * bool :=
  match d with
  | S (S _ as lower) =>
      if negb (isObject value) then (s, false)
      else
        let polar := truth (member "polar" value) in
        let s :=
          if isArray (member "camera" value)
          then foldl (json_camera d polar) s (toArray (member "camera" value))
          else s in
        let s :=
          if isArray (member "transformation" value)
          then foldl (json_transformation d) s (toArray (member "transformation" value))
          else s in
        parse_json lower s value
  | _ => parse_json_fix_point s value
  end.

(** [parseModel(state<Q,d> &, efgy::json::value<> &)]: the arguments it
    passes to [efgy::geometry::with]. *)
Definition json_model_request (value : json Q) : option request :=
  if negb (isObject value) then None
  else
    let format := match member "coordinateFormat" value with JString f => f | _ => "cartesian" end in
    let type := match member "model" value with JString t => t | _ => "cube" end in
    let depth := match member "depth" value with JNumber q => truncate q | _ => 4%Z end in
    let rdepth := match member "renderDepth" value with JNumber q => truncate q | _ => 4%Z end in
    Some (Request format type depth rdepth).

Definition parseModel_json (table : list entry) (fresh : nat) (s : state Q) (value : json Q)
    : state Q * bool :=
  match json_model_request value with
  | Some r => geometry_with table fresh r s
  | None => (s, false)
  end.

End JsonDecoder.

(** ** state.h: the encoder [metadata()] *)
Section Encoder.
Context {Q : Type} `{!Scalar Q}.

(** [v.data[i]]; vectors of dimension [d] hold [d] components, so the default
    is never read on a well-formed state. *)
Definition component (i : nat) (v : list Q) : Q := default zero (v !! i).

(** [cartesianDimensions[i]]; index 52 is the terminating NUL. *)
Definition letter (i : nat) : ascii := default "000"%char (String.get i cartesianDimensions).

Definition axis_name (i : nat) : string :=
  if i <? sizeof_cartesianDimensions then String (letter i) EmptyString else "d-" +:+ pretty i.

(** The [<t:camera .../>] fragment of [state<Q,d>::metadata()]. *)
Definition camera_fragment (d : nat) (polar : bool) (l : level Q) : element :=
  Element "camera"
    (if polar then
       ("radius", show (component 0 (fromp l))) ::
       ((λ i, ("theta-" +:+ pretty i, show (component i (fromp l)))) <$> seq 1 (d - 1))
     else
       (λ i, (axis_name i, show (component i (from l)))) <$> seq 0 d).

(** [state<Q,2>::metadata()].  The function writes text; these are the
    elements the text stands for.  The id of the renderer, the id prefix and
    the numbers are written into the text unescaped, so this holds for
    states in which they are plain text ([plain_text], [interpolated]
    below); a quote, [<] or [&] in one of them gives a text that is
    ill-formed or stands for other elements. *)
Definition metadata_base (s : state Q) : list element :=
  [Element "camera" [("mode", if polarCoordinates s then "polar" else "cartesian")]] ++
  match model s with
  | Some m =>
      [Element "model" [("type", id m); ("depth", pretty (depth m) +:+ "D");
                        ("render-depth", pretty (renderDepth m) +:+ "D")]]
  | None => []
  end ++
  [Element "options" [("radius", show (radius (parameter s))); ("id-prefix", idPrefix s)];
   Element "precision" [("polar", show (precision (parameter s)));
                        ("export-multiplier", show (exportMultiplier s))];
   Element "colour-background"
     [("red", show (red (background s))); ("green", show (green (background s)));
      ("blue", show (blue (background s))); ("alpha", show (alpha (background s)))];
   Element "colour-wireframe"
     [("red", show (red (wireframe s))); ("green", show (green (wireframe s)));
      ("blue", show (blue (wireframe s))); ("alpha", show (alpha (wireframe s)))];
   Element "colour-surface"
     [("red", show (red (surface s))); ("green", show (green (surface s)));
      ("blue", show (blue (surface s))); ("alpha", show (alpha (surface s)))]].

(** [state<Q,d>::metadata()]: the camera of dimension [d], then the fragment
    of the next lower dimension, down to the base class at dimension 2. *)
Fixpoint metadata (d : nat) (s : state Q) : list element :=
  match d with
  | S (S (S _) as lower) =>
      match level_of d s with
      | Some l => camera_fragment d (polarCoordinates s) l :: metadata lower s
      | None => metadata lower s
      end
  | _ => metadata_base s
  end.

(** The parser that reads a document back. *)
Definition parser_of (doc : list element) : parser := Parser true doc [].

End Encoder.

(** ** state.h: the OpenGL renderer *)
Section Raster.
Context {Q : Type} `{!Scalar Q}.

(** The vector [from] of dimension 3 when [gluLookAt] reads it.
    [updateMatrix()] runs [from = fromp] in polar mode, which converts the
    polar vector by the library's rule; otherwise [from] is as stored. *)
Inductive eye :=
  | stored (v : list Q)
  | converted (polar : list Q).

(** The calls [renderGL::operator()] makes, in program order. *)
Inductive gl :=
  | updateMatrix
  | reset_output
  | glClearColor (c : colour Q)
  | glClear
  | glPushMatrix
  | glEnable_DEPTH_TEST
  | gluLookAt (from : eye) (target : list Q)
  | glDepthMask (flag : bool)
  | glColor4d (c : colour Q)
  | renderWireframe
  | glMaterialfv_SPECULAR
  | glMaterialfv_SHININESS
  | glMaterialfv_EMISSION
  | renderSolid
  | glPopMatrix
  | glFlush
  | glutSwapBuffers.

(** [renderGL::operator()(updateMatrix)]; [GL3D] is the preprocessor switch. *)
Definition renderGL (GL3D : bool) (update : bool) (s : state Q) : list gl :=
  (if update then [updateMatrix] else []) ++
  [reset_output; glClearColor (background s); glClear; glPushMatrix] ++
  (if GL3D then
     match level_of 3 s with
     | Some l =>
         [glEnable_DEPTH_TEST;
          gluLookAt
            (if update && polarCoordinates s then converted (fromp l)
             else stored (take 3 (from l)))
            (take 3 (to l))]
     | None => [glEnable_DEPTH_TEST]
     end
   else []) ++
  [glDepthMask true;
   glColor4d (wireframe s);
   renderWireframe;
   glDepthMask (if below_one (alpha (surface s)) then true else false);
   glMaterialfv_SPECULAR; glMaterialfv_SHININESS; glMaterialfv_EMISSION;
   glColor4d (surface s);
   renderSolid;
   glPopMatrix; glFlush; glutSwapBuffers].

Definition is_glDepthMask (op : gl) : option bool :=
  match op with glDepthMask flag => Some flag | _ => None end.

(** The depth-write flag in force when the call at position [n] is made: the
    argument of the last [glDepthMask] before it. *)
Definition depth_write_at (n : nat) (ops : list gl) : option bool :=
  last (omap is_glDepthMask (take n ops)).

Definition is_renderWireframe (op : gl) : bool :=
  match op with renderWireframe => true | _ => false end.
Definition is_renderSolid (op : gl) : bool :=
  match op with renderSolid => true | _ => false end.

(** Position of the first call that passes [test]. *)
Fixpoint position (test : gl → bool) (ops : list gl) : option nat :=
  match ops with
  | [] => None
  | op :: rest => if test op then Some 0 else S <$> position test rest
  end.

End Raster.
Arguments eye : clear implicits.
Arguments gl : clear implicits.

(** ** iOSAppDelegate.mm: the model settings *)

(** The keys of [NSUserDefaults] that [updateModel] reads and writes. *)
Record defaults := Defaults {
  model_key : option string;
  depth_key : Z;
  renderDepth_key : Z;
}.

Definition set_depth_key (n : Z) (u : defaults) := Defaults (model_key u) n (renderDepth_key u).
Definition set_renderDepth_key (n : Z) (u : defaults) := Defaults (model_key u) (depth_key u) n.

(** [NSInteger] arithmetic (64 bit, two's complement) and the cast
    [(const unsigned int)]. *)
Definition wrap_NSInteger (z : Z) : Z := ((z + 2 ^ 63) mod 2 ^ 64 - 2 ^ 63)%Z.
Definition to_unsigned_int (z : Z) : Z := (z mod 2 ^ 32)%Z.

Definition is_model (name : string) (u : defaults) : bool :=
  match model_key u with
  | Some m => String.eqb m name
  | None => false
  end.

Section Settings.
(** The macro [MAXDEPTH] of the build. *)
Variable MAXDEPTH : Z.

(** [-updateModel]: the settings it leaves behind and the arguments it hands to
    [efgy::geometry::with] ([None] when it returns early).  This call names no
    coordinate format; the request carries the default one. *)
Definition updateModel (u : defaults) : defaults * option request :=
  match model_key u with
  | None => (u, None)
  | Some model =>
      let u :=
        if (depth_key u <? 2)%Z then set_depth_key 2 u
        else if (depth_key u >? MAXDEPTH)%Z then set_depth_key MAXDEPTH u
        else u in
      let u :=
        if (renderDepth_key u <? 3)%Z then set_renderDepth_key 3 u
        else if (renderDepth_key u >? MAXDEPTH)%Z then set_renderDepth_key MAXDEPTH u
        else u in
      let u :=
        if String.eqb model "plane" || String.eqb model "moebius-strip" ||
           String.eqb model "klein-bagel"
        then
          if negb (depth_key u =? 2)%Z then set_depth_key 2 u else u
        else if String.eqb model "sphere" then
          let u :=
            if (depth_key u >=? MAXDEPTH)%Z
            then set_depth_key (wrap_NSInteger (MAXDEPTH - 1)) u else u in
          if (renderDepth_key u <=? depth_key u)%Z
          then set_depth_key (wrap_NSInteger (renderDepth_key u - 1)) u else u
        else
          if (renderDepth_key u <? depth_key u)%Z
          then set_renderDepth_key (depth_key u) u else u in
      (u, Some (Request "cartesian" model (to_unsigned_int (depth_key u))
                  (to_unsigned_int (renderDepth_key u))))
  end.

(** [-reconfigureWithIndex:] for the indices that end in [updateModel].  The
    other indices copy one setting into the state's parameters or colours and
    leave these three keys and the bound model alone. *)
Definition reconfigureWithIndex (index : string) (u : defaults) : defaults * option request :=
  if String.eqb index "model" then updateModel u
  else if String.eqb index "depth" then
    let u :=
      if is_model "sphere" u && (renderDepth_key u <=? depth_key u)%Z
      then set_renderDepth_key (wrap_NSInteger (depth_key u + 1)) u else u in
    updateModel u
  else if String.eqb index "renderDepth" then
    let u :=
      if is_model "sphere" u && (renderDepth_key u <=? depth_key u)%Z
      then set_depth_key (wrap_NSInteger (renderDepth_key u - 1)) u else u in
    updateModel u
  else (u, None).

End Settings.

(** ** Integer-valued scalars

    An instance of the scalar interface on which the decoders can be run:
    scalars are integers, printed as decimal numerals and read back by the
    rule of [std::stold] for such numerals (white space, sign, digits; text
    that does not start with a numeral is rejected).  On the literals used in
    the examples below it agrees with the C++ library. *)
Module Integers.

Definition read (s : string) : option Z :=
  let s := skip_spaces s in
  let '(negative, s) :=
    match s with
    | String "-" rest => (true, rest)
    | String "+" rest => (false, rest)
    | _ => (false, s)
    end in
  (λ n, if negative then - n else n)%Z <$> digits s None.

#[global] Instance scalar : Scalar Z := {|
  stold := read;
  show := pretty;
  zero := 0%Z;
  one := 1%Z;
  below_one := λ z, (z <? 1)%Z;
  truncate := λ z, z;
|}.

(** A comparison for the examples: it recognises the numeral of [n] itself,
    which is all that the documents of the examples hold. *)
#[global] Instance numerals : XPath := {|
  number_is := λ v n, String.eqb v (pretty n);
  number_is_numeral := λ n, String.eqb_refl (pretty n);
|}.

End Integers.

(** ** Observations of a decoding step *)
Section Observations.
Context {Q : Type} `{!Scalar Q} `{!XPath}.

(** [c] does not change the observation [f] of the state and the parser,
    whether it returns or is left by an exception. *)
Definition preserves {A X : Type} (f : state Q * parser → X) (c : M Q A) : Prop :=
  ∀ w, f (c w).1 = f w.


(** Observations. *)
Definition source (w : state Q * parser) : bool * list element := (valid w.2, document w.2).

(** Everything in the state but the per-dimension members. *)
Definition shared (w : state Q * parser) :=
  (polarCoordinates w.1, parameter w.1, exportMultiplier w.1, background w.1,
   wireframe w.1, surface w.1, idPrefix w.1, model w.1).

Definition flag (w : state Q * parser) : bool := polarCoordinates w.1.

Definition members (k : nat) (w : state Q * parser) : option (level Q) := level_of k w.1.




(** A state of [d] dimensions: the members of dimensions 2 to [d] are there
    and their camera vectors have as many components as the dimension. *)
Definition well_formed (d : nat) (s : state Q) : bool :=
  (2 <=? d) && (length (levels s) =? d - 1) &&
  forallb (λ x : nat * level Q,
             (length (fromp x.2) =? x.1 + 2) && (length (from x.2) =? x.1 + 2))
    (imap pair (levels s)).

(** The camera vector that the mode selects. *)
Definition camera_of (polar : bool) (l : level Q) : list Q :=
  if polar then fromp l else from l.

Definition components (c : colour Q) : list Q := [red c; green c; blue c; alpha c].

(** The numbers [metadata()] prints and [parse] reads. *)
Definition printed (s : state Q) : list Q :=
  [radius (parameter s); precision (parameter s)] ++
  components (background s) ++ components (wireframe s) ++ components (surface s) ++
  concat (camera_of (polarCoordinates s) <$> drop 1 (levels s)).

(** The printed form of [q] is not empty and [std::stold] reads it as
    [back q]. *)
Definition reads_back (back : Q → Q) (q : Q) : Prop :=
  nonempty (show q) = true ∧ stold (show q) = Some (back q).

(** [metadata()] writes the id prefix, the id of the renderer and the
    numbers into the text as they are, between single quotes.  The text
    stands for the elements of [metadata] when these strings hold nothing
    that ends or breaks an attribute value: only printable ASCII characters,
    and among them no quote, no [<] and no [&]. *)
Definition plain_character (c : ascii) : bool :=
  let n := nat_of_ascii c in
  (32 <=? n) && (n <=? 126) && negb (n =? 38) && negb (n =? 39) && negb (n =? 60).

Fixpoint plain_text (v : string) : bool :=
  match v with
  | EmptyString => true
  | String c rest => plain_character c && plain_text rest
  end.

Definition interpolated (s : state Q) : list string :=
  idPrefix s ::
  match model s with Some m => [id m] | None => [] end ++
  (show <$> (exportMultiplier s :: printed s)).

Definition decoded_camera (back : Q → Q) (polar : bool) (written target : level Q) : level Q :=
  if polar then set_fromp (back <$> fromp written) target
  else set_from (back <$> from written) target.

Definition decoded_colour (back : Q → Q) (c : colour Q) : colour Q :=
  RGBA (back (red c)) (back (green c)) (back (blue c)) (back (alpha c)).

(** The state that decoding the fragment of the base of [s] makes of [t]. *)
Definition decoded_base (back : Q → Q) (s t : state Q) : state Q :=
  State (levels t) (polarCoordinates s)
    (set_radius (back (radius (parameter s)))
       (set_precision (back (precision (parameter s))) (parameter t)))
    (exportMultiplier t)
    (decoded_colour back (background s)) (decoded_colour back (wireframe s))
    (decoded_colour back (surface s)) (idPrefix t) (model t).

(** The state that decoding what [metadata()] wrote for the dimensions up to
    [j] of [s] makes of [t]. *)
Fixpoint decoded (back : Q → Q) (s : state Q) (j : nat) (t : state Q) : state Q :=
  match j with
  | S (S (S _) as lower) =>
      decoded back s lower
        match level_of j s with
        | Some ls => at_level j (decoded_camera back (polarCoordinates s) ls) t
        | None => t
        end
  | _ => decoded_base back s t
  end.

(** *** The literals the XML decoder reads *)

(** A non-empty text that [std::stold] rejects. *)
Definition rejects (v : string) : bool :=
  nonempty v && match stold v with Some _ => false | None => true end.

(** The attributes the 1D fix point reads, in program order: a number, which
    it assigns through [std::stold], or a word it compares with. *)
Inductive field :=
  | number (t a : string) (set : Q → state Q → state Q)
  | word (t a yes : string) (set : bool → state Q → state Q).

Definition fix_point_fields : list field :=
  [number "precision" "polar" (λ q, on_parameter (set_precision q));
   number "options" "radius" (λ q, on_parameter (set_radius q));
   word "camera" "mode" "polar" set_polarCoordinates;
   number "colour-background" "red" (λ q, on_background (set_red q));
   number "colour-background" "green" (λ q, on_background (set_green q));
   number "colour-background" "blue" (λ q, on_background (set_blue q));
   number "colour-background" "alpha" (λ q, on_background (set_alpha q));
   number "colour-wireframe" "red" (λ q, on_wireframe (set_red q));
   number "colour-wireframe" "green" (λ q, on_wireframe (set_green q));
   number "colour-wireframe" "blue" (λ q, on_wireframe (set_blue q));
   number "colour-wireframe" "alpha" (λ q, on_wireframe (set_alpha q));
   number "colour-surface" "red" (λ q, on_surface (set_red q));
   number "colour-surface" "green" (λ q, on_surface (set_green q));
   number "colour-surface" "blue" (λ q, on_surface (set_blue q));
   number "colour-surface" "alpha" (λ q, on_surface (set_alpha q));
   number "ifs" "iterations" (λ q, on_parameter (set_iterations (truncate q)));
   number "ifs" "seed" (λ q, on_parameter (set_seed (truncate q)));
   number "ifs" "functions" (λ q, on_parameter (set_functions (truncate q)));
   word "ifs" "pre-rotate" "yes" (λ b, on_parameter (set_preRotate b));
   word "ifs" "post-rotate" "yes" (λ b, on_parameter (set_postRotate b));
   number "flame" "coefficients" (λ q, on_parameter (set_flameCoefficients (truncate q)))].

(** The decoding step of one field, and of the fields of a list in order. *)
Definition read_field (f : field) : M Q unit :=
  match f with
  | number t a set => numeric t a set
  | word t a yes set => choice t a yes set
  end.

Fixpoint read_fields (fs : list field) : M Q unit :=
  match fs with
  | [] => ret tt
  | f :: rest => bind (read_field f) (λ _, read_fields rest)
  end.

(** The literal of a numeric field is malformed in the document of [p]. *)
Definition rejected (p : parser) (f : field) : bool :=
  match f with
  | number t a _ => rejects (evaluate_anywhere t a p)
  | word _ _ _ _ => false
  end.

(** The state after the assignment of a field whose text is well-formed or
    empty. *)
Definition assigned (p : parser) (f : field) (s : state Q) : state Q :=
  match f with
  | number t a set =>
      match stold (evaluate_anywhere t a p) with
      | Some q => if nonempty (evaluate_anywhere t a p) then set q s else s
      | None => s
      end
  | word t a yes set =>
      if nonempty (evaluate_anywhere t a p)
      then set (String.eqb (evaluate_anywhere t a p) yes) s else s
  end.

(** The text that the camera loop hands to [std::stold] for component [i]
    of the camera element [e]: the radius for component 0, or else the angle
    [theta-i], or else the cartesian coordinate; empty when it reads none. *)
Definition coordinate (i : nat) (e : element) : string :=
  if (i =? 0) && nonempty (attribute "radius" e) then attribute "radius" e
  else if nonempty (attribute ("theta-" +:+ pretty i) e)
  then attribute ("theta-" +:+ pretty i) e
  else if i <? sizeof_cartesianDimensions then
    match String.get i cartesianDimensions with
    | Some letter => attribute (String letter EmptyString) e
    | None => EmptyString
    end
  else attribute ("d-" +:+ pretty i) e.

(** A literal that the decode of [d] dimensions reads is malformed: a
    coordinate of a camera element or a cell of a transformation element of
    a dimension from 2 to [d], or a numeric field of the 1D fix point. *)
Definition malformed_coordinate (k : nat) (p : parser) : Prop :=
  ∃ e i, e ∈ document p ∧ count_is "camera" k e = true ∧ i < k ∧
         rejects (coordinate i e) = true.

Definition malformed_cell (k : nat) (p : parser) : Prop :=
  ∃ e i j, e ∈ document p ∧ count_is "transformation" ((k + 1) * (k + 1)) e = true ∧
           i ≤ k ∧ j ≤ k ∧
           rejects (attribute ("e" +:+ pretty i +:+ "-" +:+ pretty j) e) = true.

Definition malformed_field (p : parser) : Prop :=
  ∃ f, f ∈ fix_point_fields ∧ rejected p f = true.

Definition malformed_literal (d : nat) (p : parser) : Prop :=
  (∃ k, 2 ≤ k ≤ d ∧ (malformed_coordinate k p ∨ malformed_cell k p)) ∨ malformed_field p.

(** The computation is left by an exception. *)
Definition aborts {A : Type} (c : M Q A) (w : state Q * parser) : Prop :=
  ∃ w' f, c w = (w', Abort f).

(** The vectors of every dimension have the size of the dimension. *)
Definition sized (t : state Q) : Prop :=
  ∀ k lt, level_of k t = Some lt → length (fromp lt) = k ∧ length (from lt) = k.

End Observations.


(** ** Sample states and documents *)
Module Samples.
Import Integers.
Local Open Scope Z_scope.

Definition blue_ground : colour Z := RGBA 0 0 1 1.
Definition white : colour Z := RGBA 1 1 1 1.
Definition clear : colour Z := RGBA 1 1 1 0.

(** The members of dimension [d] with the identity transformation. *)
Definition plain (d : nat) : level Z :=
  Level (3 :: replicate (d - 1) 1) (replicate d 0) (replicate d 0) (identity d).

(** Members of dimension 3 whose transformation scales by 2. *)
Definition scaled : level Z :=
  Level [5; 2; 1] [0; 0; 0] [0; 0; 0]
    [[2; 0; 0; 0]; [0; 2; 0; 0]; [0; 0; 2; 0]; [0; 0; 0; 1]].

(** Members of dimension 4 with some transformation. *)
Definition skewed : level Z :=
  Level [3; 1; 1; 1] [0; 0; 0; 0] [0; 0; 0; 0]
    [[7; 1; 0; 0; 2]; [0; 3; 0; 5; 0]; [0; 0; 0; 0; 0]; [1; 1; 1; 1; 1]; [9; 0; 0; 0; 4]].

Definition fresh3 : state Z :=
  State [plain 2; plain 3] true (Parameters 1 1 1 10 0 0 0 0 false false) 2
    blue_ground white clear EmptyString None.

Definition written : state Z :=
  State [plain 2; scaled] true (Parameters 4 1 1 12 0 0 0 0 false false) 2
    white blue_ground clear EmptyString None.

Definition skewed4 : state Z :=
  State [plain 2; plain 3; skewed] true (Parameters 1 1 1 10 0 0 0 0 false false) 2
    blue_ground white clear EmptyString None.

(** A state with a cube bound. *)
Definition bound : state Z := set_model (Some (Renderer 1 "cube" 4 4)) skewed4.

Definition malformed_document : list element :=
  [Element "options" [("radius", "abc")];
   Element "colour-background" [("red", "1")]].

Definition identity_document : list element :=
  [Element "transformation" [("depth", "4"); ("matrix", "identity")]].

Definition cartesian_document : list element :=
  [Element "camera" [("mode", "cartesian")]].

Definition sphere_document : list element :=
  [Element "model" [("type", "sphere"); ("depth", "3"); ("render-depth", "3")]].

Definition sphere_document_without_render_depth : list element :=
  [Element "model" [("type", "sphere"); ("depth", "3")]].

Definition plane_document : list element :=
  [Element "model" [("type", "plane"); ("depth", "4")]].



(** A camera of three attributes whose second angle is no number. *)
Definition malformed_angle_document : list element :=
  [Element "camera" [("radius", "6"); ("theta-1", "2"); ("theta-2", "up")];
   Element "colour-background" [("red", "1")]].

Definition table : list entry :=
  [Entry "cube" "cartesian" 2 7; Entry "sphere" "cartesian" 2 6;
   Entry "plane" "cartesian" 2 7].

Definition sphere_settings : defaults := Defaults (Some "sphere") 5 3.
Definition plane_settings : defaults := Defaults (Some "plane") 5 3.

Definition polar_value : json Z :=
  JObject [("polar", JBool true); ("camera", JArray [JArray [JNumber 4; JNumber 2; JNumber 2]])].

End Samples.

(** * Further code of the sources *)

(** ** parse.h: [setMatrixCell] *)
Section MatrixCell.
Context {Q : Type}.

(** [setMatrixCell<Q,d>(s, sd, x, y, vv)]: the template recursion on [d] ends
    in the 1D fix point, which "doesn't do anything at all".  A cell outside
    of the matrix is not written (C++ leaves that case undefined). *)
Fixpoint setMatrixCell (d : nat) (s : state Q) (sd x y : nat) (vv : Q) : state Q * bool :=
  match d with
  | S (S _ as lower) =>
      if d =? sd then (assign_cell d x y vv s, true)
      else setMatrixCell lower s sd x y vv
  | _ => (s, false)
  end.

(** [s.transformation.matrix[x][y]] of dimension [k]. *)
Definition matrix_cell (k x y : nat) (s : state Q) : option Q :=
  l ← level_of k s; row ← transformation l !! x; row !! y.

End MatrixCell.

(** ** parse.h: the constructor of [xml::parser] *)

(** The members the constructor leaves: [valid], and whether [document] and
    [xpathContext] are non-null. *)
Record handles := Handles {
  is_valid : bool;
  has_document : bool;
  has_xpathContext : bool;
}.

(** [parser(data, filename)].  The arguments are the outcomes of the libxml2
    calls: [xmlReadMemory] returned a document, [xmlXPathNewContext] returned
    a context, and the two calls of [xmlXPathRegisterNs] returned 0. *)
Definition construct (read created svg topologic : bool) : handles :=
  if negb read then Handles false false false
  else
    let document := true in
    let xpathContext := created in
    let document := if negb xpathContext then false else document in
    let '(xpathContext, document) :=
      if negb svg then (false, false) else (xpathContext, document) in
    let '(xpathContext, document) :=
      if negb topologic then (false, false) else (xpathContext, document) in
    Handles true document xpathContext.

(** ** state.h: the SVG renderer *)
Section Vector.
Context {Q : Type} `{!Scalar Q}.

(** [renderSVG::name()] *)
Definition name (m : renderer) : string := pretty (depth m) +:+ "-" +:+ id m.

(** What [renderSVG::operator()] does, in program order: the calls it makes
    and the pieces it appends to [svg.output]. *)
Inductive svg :=
  | svg_updateMatrix
  | svg_reset_output
  | svg_title (text : string)
  | svg_metadata (content : list element)
  | svg_style (prefix : string) (ground stroke fill : colour Q)
  | svg_renderSolid
  | svg_path_open (id : string)
  | svg_renderWireframe
  | svg_path_close.

(** [renderSVG<Q,d,T,rd>::operator()(updateMatrix)] of the renderer [m] on a
    state of [rd] dimensions. *)
Definition renderSVG (rd : nat) (m : renderer) (update : bool) (s : state Q) : list svg :=
  (if update then [svg_updateMatrix] else []) ++
  [svg_reset_output;
   svg_title (name m);
   svg_metadata (metadata rd s);
   svg_style (idPrefix s) (background s) (wireframe s) (surface s);
   svg_renderSolid;
   svg_path_open (idPrefix s +:+ "wireframe");
   svg_renderWireframe;
   svg_path_close].

Definition is_svg_renderSolid (op : svg) : bool :=
  match op with svg_renderSolid => true | _ => false end.
Definition is_svg_renderWireframe (op : svg) : bool :=
  match op with svg_renderWireframe => true | _ => false end.
Definition is_svg_metadata (op : svg) : bool :=
  match op with svg_metadata _ => true | _ => false end.
Definition is_svg_updateMatrix (op : svg) : bool :=
  match op with svg_updateMatrix => true | _ => false end.

(** Position of the first step that passes [test]. *)
Fixpoint svg_position (test : svg → bool) (ops : list svg) : option nat :=
  match ops with
  | [] => None
  | op :: rest => if test op then Some 0 else S <$> svg_position test rest
  end.

End Vector.
Arguments svg : clear implicits.

(** ** Observations for the further properties *)
Section Shapes.
Context {Q : Type} `{!Scalar Q}.

(** The element names the XML decoder looks for. *)
Definition decoder_tags : list string :=
  ["camera"; "transformation"; "precision"; "options"; "colour-background";
   "colour-wireframe"; "colour-surface"; "ifs"; "flame"].

Definition known (t : string) : bool := existsb (String.eqb t) decoder_tags.

(** A matrix of [k+1] rows and [k+1] columns. *)
Definition square (k : nat) (m : list (list Q)) : Prop :=
  length m = S k ∧ Forall (λ row, length row = S k) m.

(** The matrix of dimension [k] whose rows are, one after the other, the
    numbers [qs]. *)
Definition row_major (k : nat) (qs : list Q) : list (list Q) :=
  (λ i, (λ j, default zero (qs !! (i * (k + 1) + j))) <$> seq 0 (S k)) <$> seq 0 (S k).

(** What the XML decoder never assigns. *)
Definition out_of_reach (w : state Q * parser) :=
  (model w.1, exportMultiplier w.1, idPrefix w.1, radius2 (parameter w.1),
   constant (parameter w.1), to <$> levels w.1, length (levels w.1)).

(** The colour a JSON value lists: an array of at least five entries whose
    entries 1 to 4 are numbers.  Entry 0 is not looked at. *)
Definition listed_colour (v : json Q) : option (colour Q) :=
  match v with
  | JArray (_ :: JNumber r :: JNumber g :: JNumber b :: JNumber a :: _) => Some (RGBA r g b a)
  | _ => None
  end.

(** The numbers a JSON value lists, when it is an array of numbers only. *)
Definition numbers (qs : list Q) : json Q := JArray (JNumber <$> qs).

(** What a call on the settings path leaves: a request for [model] with the
    depth and the render-depth it has stored, within the limits. *)
Definition settled (MAXDEPTH : Z) (model : string) (out : defaults * option request) : Prop :=
  ∃ u' r,
    out = (u', Some r) ∧
    model_key u' = Some model ∧ type r = model ∧
    dims r = depth_key u' ∧ rdims r = renderDepth_key u' ∧
    (2 ≤ dims r ≤ rdims r)%Z ∧ (3 ≤ rdims r ≤ MAXDEPTH)%Z.

End Shapes.

Module MoreSamples.
Import Samples.
Local Open Scope Z_scope.

(** A JSON value with cameras for three sizes, a colour of five entries and
    a colour of four. *)
Definition two_cameras : json Z :=
  JObject [("polar", JBool false);
           ("camera", JArray [JArray [JNumber 9; JNumber 9; JNumber 9; JNumber 9];
                              JArray [JNumber 5; JNumber 6; JNumber 7; JNumber 8];
                              JArray [JNumber 4; JNumber 2; JNumber 2]]);
           ("background", JArray [JString "rgba"; JNumber 1; JNumber 0; JNumber 0; JNumber 1]);
           ("wireframe", JArray [JNumber 1; JNumber 0; JNumber 0; JNumber 1])].

(** The state [skewed4] with other matrices, other vectors [to] and other
    cartesian cameras. *)
Definition turned4 : state Z :=
  State [plain 2;
         Level [3; 1; 1] [8; 8; 8] [1; 0; 0] [[0; 1]; [1; 0]];
         Level [3; 1; 1; 1] [7; 7; 7; 7] [0; 0; 1; 0] (identity 4)]
    true (Parameters 1 5 6 10 3 4 5 6 true true) 2
    blue_ground white clear EmptyString None.



(** A JSON value with a matrix of nine and one of four numbers. *)
Definition two_matrices : json Z :=
  JObject [("transformation",
            JArray [JArray [JNumber 1; JNumber 2; JNumber 3; JNumber 4; JNumber 5;
                            JNumber 6; JNumber 7; JNumber 8; JNumber 9];
                    JArray [JNumber 1; JNumber 0; JNumber 0; JNumber 1]])].

(** A document without any element the decoder looks for; its [model] has
    neither a depth nor a type. *)
Definition foreign_document : list element :=
  [Element "title" []; Element "model" [("id", "cube")];
   Element "coordinates" [("format", "polar")]].

End MoreSamples.
(** * Properties *)

(** ** What a decoding step leaves alone *)
Section Frames.
Context {Q : Type} `{!Scalar Q} `{!XPath}.

Lemma preserves_ret {A X} (f : state Q * parser → X) (a : A) : preserves f (ret a).
Proof. intros w. reflexivity. Qed.

Lemma preserves_abort {A X} (f : state Q * parser → X) (e : failure) :
  preserves f (abort e : M Q A).
Proof. intros w. reflexivity. Qed.

Lemma preserves_ask {A X} (f : state Q * parser → X) (g : parser → A) : preserves f (ask g).
Proof. intros w. reflexivity. Qed.

Lemma preserves_bind {A B X} (f : state Q * parser → X) (c : M Q A) (k : A → M Q B) :
  preserves f c → (∀ a, preserves f (k a)) → preserves f (bind c k).
Proof.
  intros Hc Hk w. unfold bind. specialize (Hc w).
  destruct (c w) as [w' [a | e]]; simpl in *.
  - rewrite Hk. exact Hc.
  - exact Hc.
Qed.

Lemma bind_run {A B} (c : M Q A) (k : A → M Q B) w :
  bind c k w =
    match c w with
    | (w', Return a) => k a w'
    | (w', Abort f) => (w', Abort f)
    end.
Proof. reflexivity. Qed.

Lemma preserves_run {A X} (f : state Q * parser → X) (c : M Q A) w w' r :
  preserves f c → c w = (w', r) → f w' = f w.
Proof. intros Hp Hrun. specialize (Hp w). rewrite Hrun in Hp. exact Hp. Qed.

Lemma preserves_modify {X} (f : state Q * parser → X) (g : state Q → state Q) :
  (∀ s p, f (g s, p) = f (s, p)) → preserves f (modify g).
Proof. intros Hg [s p]. apply Hg. Qed.

Lemma preserves_move_context {X} (f : state Q * parser → X) (c : list element) :
  (∀ s p, f (s, Parser (valid p) (document p) c) = f (s, p)) → preserves f (move_context c).
Proof. intros Hc [s p]. apply Hc. Qed.

Lemma preserves_assign {X} (f : state Q * parser → X) (v : string)
    (set : Q → state Q → state Q) :
  (∀ q s p, f (set q s, p) = f (s, p)) → preserves f (assign v set).
Proof.
  intros Hset. unfold assign. destruct (stold v).
  - apply preserves_modify. intros. apply Hset.
  - apply preserves_abort.
Qed.

Lemma preserves_for_each {X} (f : state Q * parser → X) (l : list nat) (body : nat → M Q unit) :
  (∀ i, preserves f (body i)) → preserves f (for_each l body).
Proof.
  intros Hbody. induction l as [| i l IH]; simpl.
  - apply preserves_ret.
  - apply preserves_bind; auto.
Qed.

Lemma preserves_visit {X} (f : state Q * parser → X) (test : element → bool)
    (body : M Q unit) (l : list element) :
  (∀ s p c, f (s, Parser (valid p) (document p) c) = f (s, p)) →
  preserves f body → preserves f (visit test body l).
Proof.
  intros Hc Hbody. induction l as [| e l IH]; simpl.
  - apply preserves_ret.
  - destruct (test e); [| exact IH].
    apply preserves_bind; [apply preserves_move_context; intros; apply Hc |].
    intros _. apply preserves_bind; auto.
Qed.


Lemma shared_at_level d (f : level Q → level Q) s p : shared (at_level d f s, p) = shared (s, p).
Proof. unfold at_level. destruct (d <? 2); reflexivity. Qed.

Lemma members_at_level k d (f : level Q → level Q) s p :
  k ≠ d → members k (at_level d f s, p) = members k (s, p).
Proof.
  intros Hkd. unfold members, at_level, level_of.
  destruct (Nat.ltb_spec d 2); [reflexivity |].
  destruct (Nat.ltb_spec k 2); [reflexivity |]. simpl.
  apply list_lookup_alter_ne. lia.
Qed.

End Frames.

(** Proves [preserves f c] for a decoding step [c] made of the combinators,
    given as [tac] a proof that the assignments in [c] do not touch [f]. *)
Ltac frame tac :=
  repeat first
    [ apply preserves_ret
    | apply preserves_abort
    | apply preserves_ask
    | apply preserves_for_each; intros
    | apply preserves_visit; [intros; reflexivity |]
    | apply preserves_assign; intros; tac
    | apply preserves_modify; intros; tac
    | apply preserves_bind; [| intros]
    | match goal with |- preserves _ (if ?b then _ else _) => destruct b end
    | match goal with |- preserves _ (match ?o with Some _ => _ | None => _ end) => destruct o end ].

Section LevelFrames.
Context {Q : Type} `{!Scalar Q} `{!XPath}.

Lemma camera_source d : preserves source (camera (Q:=Q) d).
Proof. unfold camera, camera_axis. frame ltac:(reflexivity). Qed.

Lemma identity_reset_source d : preserves source (identity_reset (Q:=Q) d).
Proof. unfold identity_reset. frame ltac:(reflexivity). Qed.

Lemma cells_source d : preserves source (cells (Q:=Q) d).
Proof. unfold cells, cell. frame ltac:(reflexivity). Qed.

Lemma camera_shared d : preserves shared (camera (Q:=Q) d).
Proof.
  unfold camera, camera_axis.
  frame ltac:(unfold assign_fromp, assign_from; apply shared_at_level).
Qed.

Lemma identity_reset_shared d : preserves shared (identity_reset (Q:=Q) d).
Proof. unfold identity_reset. frame ltac:(apply shared_at_level). Qed.

Lemma cells_shared d : preserves shared (cells (Q:=Q) d).
Proof. unfold cells, cell. frame ltac:(unfold assign_cell; apply shared_at_level). Qed.

Lemma camera_members k d : k ≠ d → preserves (members k) (camera (Q:=Q) d).
Proof.
  intros Hkd. unfold camera, camera_axis.
  frame ltac:(unfold assign_fromp, assign_from; apply members_at_level; exact Hkd).
Qed.

Lemma identity_reset_members k d : k ≠ d → preserves (members k) (identity_reset (Q:=Q) d).
Proof.
  intros Hkd. unfold identity_reset. frame ltac:(apply members_at_level; exact Hkd).
Qed.

Lemma cells_members k d : k ≠ d → preserves (members k) (cells (Q:=Q) d).
Proof.
  intros Hkd. unfold cells, cell.
  frame ltac:(unfold assign_cell; apply members_at_level; exact Hkd).
Qed.

Lemma parse_fix_point_source : preserves source (parse_fix_point (Q:=Q)).
Proof. unfold parse_fix_point, after_radius, numeric, choice. frame ltac:(reflexivity). Qed.

Lemma parse_fix_point_levels : preserves (λ w, levels w.1) (parse_fix_point (Q:=Q)).
Proof. unfold parse_fix_point, after_radius, numeric, choice. frame ltac:(reflexivity). Qed.

End LevelFrames.

(** ** The loops over sibling elements

    [visit] is the loop [if (updateContext(first)) do body while
    (updateContext(following-sibling))] of the decoder: it enters the loop
    exactly when [updateContext] moves the context, and after each round it
    goes on exactly when the update to the following sibling does. *)
Section SiblingLoops.
Context {Q : Type}.

Lemma visit_seek (test : element → bool) (body : M Q unit) (l : list element) w :
  visit test body l w =
    match seek test l with
    | [] => (w, Return tt)
    | e :: rest => bind (move_context (e :: rest)) (λ _, bind body (λ _, visit test body rest)) w
    end.
Proof.
  induction l as [| e l IH]; simpl; [reflexivity |].
  destruct (test e); [reflexivity | exact IH].
Qed.

Lemma visit_first (test : element → bool) (body : M Q unit) (s : state Q) (p : parser) :
  visit test body (document p) (s, p) =
    match updateContext test p with
    | (p', true) => bind body (λ _, visit test body (tail (context p'))) (s, p')
    | (_, false) => ((s, p), Return tt)
    end.
Proof.
  rewrite visit_seek. unfold updateContext.
  destruct (seek test (document p)); reflexivity.
Qed.

Lemma visit_following (test : element → bool) (body : M Q unit) (s : state Q) (p : parser) :
  visit test body (tail (context p)) (s, p) =
    match updateContext_following test p with
    | (p', true) => bind body (λ _, visit test body (tail (context p'))) (s, p')
    | (_, false) => ((s, p), Return tt)
    end.
Proof.
  rewrite visit_seek. unfold updateContext_following.
  destruct (seek test (tail (context p))); reflexivity.
Qed.

End SiblingLoops.

(** ** C2: a malformed numeric literal *)
Section MalformedLiterals.
Context {Q : Type} `{!Scalar Q} `{!XPath}.

Lemma aborts_bind_l {A B} (c : M Q A) (k : A → M Q B) (w : state Q * parser) :
  aborts c w → aborts (bind c k) w.
Proof.
  intros (w' & f & Hrun). exists w', f. rewrite bind_run, Hrun. reflexivity.
Qed.

Lemma aborts_bind_r {A B} (c : M Q A) (k : A → M Q B) (w w1 : state Q * parser) (a : A) :
  c w = (w1, Return a) → aborts (k a) w1 → aborts (bind c k) w.
Proof.
  intros Hc (w' & f & Hrun). exists w', f. rewrite bind_run, Hc. exact Hrun.
Qed.

(** Either [c] is left by an exception, or it returns and what follows is. *)
Lemma aborts_bind {A B} (c : M Q A) (k : A → M Q B) (w : state Q * parser) :
  (∀ w1 a, c w = (w1, Return a) → aborts (k a) w1) → aborts (bind c k) w.
Proof.
  intros Hk. destruct (c w) as [w1 [a | f]] eqn:Hc.
  - eapply aborts_bind_r; [exact Hc | apply Hk, eq_refl].
  - apply aborts_bind_l. exists w1, f. exact Hc.
Qed.

Lemma read_field_run (f : field) (s : state Q) (p : parser) :
  read_field f (s, p) =
    if rejected p f then ((s, p), Abort Thrown) else ((assigned p f s, p), Return tt).
Proof.
  destruct f as [t a set | t a yes set]; unfold read_field, rejected, rejects, assigned.
  - unfold numeric. rewrite bind_run. unfold ask. cbv beta iota. cbn [snd].
    destruct (nonempty (evaluate_anywhere t a p)); cbn [andb].
    + unfold assign. destruct (stold (evaluate_anywhere t a p)); reflexivity.
    + destruct (stold (evaluate_anywhere t a p)); reflexivity.
  - unfold choice. rewrite bind_run. unfold ask. cbv beta iota. cbn [snd].
    destruct (nonempty (evaluate_anywhere t a p)); reflexivity.
Qed.

Lemma read_fields_prefix (before : list field) (f : field) (after : list field)
    (s : state Q) (p : parser) :
  rejected p f = true → Forall (λ g, rejected p g = false) before →
  read_fields (before ++ f :: after) (s, p)
  = ((foldl (λ s g, assigned p g s) s before, p), Abort Thrown).
Proof.
  intros Hf Hbefore. revert s. induction Hbefore as [| g before Hg _ IH]; intros s.
  - cbn [app read_fields foldl]. rewrite bind_run, read_field_run, Hf. reflexivity.
  - cbn [app read_fields foldl]. rewrite bind_run, read_field_run, Hg. apply IH.
Qed.

Lemma read_fields_returns (fs : list field) (s : state Q) (p : parser) :
  Forall (λ g, rejected p g = false) fs →
  read_fields fs (s, p) = ((foldl (λ s g, assigned p g s) s fs, p), Return tt).
Proof.
  intros Hfs. revert s. induction Hfs as [| g fs Hg _ IH]; intros s.
  - reflexivity.
  - cbn [read_fields foldl]. rewrite bind_run, read_field_run, Hg. apply IH.
Qed.

(** The first malformed field of a list that has one. *)
Lemma first_rejected (p : parser) (fs : list field) :
  Exists (λ g, rejected p g = true) fs →
  ∃ before f after,
    fs = before ++ f :: after ∧ rejected p f = true ∧
    Forall (λ g, rejected p g = false) before.
Proof.
  induction 1 as [g fs Hg | g fs _ IH].
  - exists [], g, fs. repeat split; [exact Hg | constructor].
  - destruct (rejected p g) eqn:Hg.
    + exists [], g, fs. repeat split; [exact Hg | constructor].
    + destruct IH as (before & f & after & -> & Hf & Hbefore).
      exists (g :: before), f, after. repeat split; [exact Hf |].
      constructor; assumption.
Qed.

(** The 1D fix point reads the fields of the table, in their order. *)
Lemma parse_fix_point_fields (w : state Q * parser) :
  valid w.2 = true →
  parse_fix_point w =
    match read_fields fix_point_fields w with
    | (w', Return _) => (w', Return true)
    | (w', Abort f) => (w', Abort f)
    end.
Proof.
  intros Hvalid. unfold parse_fix_point. rewrite bind_run. unfold ask at 1.
  cbv beta iota. rewrite Hvalid. cbn [negb].
  unfold after_radius, fix_point_fields. cbn [read_fields read_field].
  repeat (rewrite !bind_run;
          match goal with
          | |- context [numeric ?t ?a ?f ?v] =>
              destruct (numeric t a f v) as [? [[] | ?]]; [| reflexivity]
          | |- context [choice ?t ?a ?y ?f ?v] =>
              destruct (choice t a y f v) as [? [[] | ?]]; [| reflexivity]
          end).
  reflexivity.
Qed.

Lemma parser_kept {A} (c : M Q A) (w w1 : state Q * parser) (r : result A) :
  preserves (λ w : state Q * parser, w.2) c → c w = (w1, r) → w1.2 = w.2.
Proof. intros Hc Hrun. exact (preserves_run _ c w w1 r Hc Hrun). Qed.

Lemma camera_axis_parser (k i : nat) :
  preserves (λ w : state Q * parser, w.2) (camera_axis (Q:=Q) k i).
Proof. unfold camera_axis. frame ltac:(reflexivity). Qed.

Lemma cell_parser (k i j : nat) :
  preserves (λ w : state Q * parser, w.2) (cell (Q:=Q) k i j).
Proof. unfold cell. frame ltac:(reflexivity). Qed.

Lemma here (name : string) (t : state Q) (ok : bool) (doc : list element)
    (e : element) (rest : list element) :
  ask (evaluate_here name) (t, Parser ok doc (e :: rest)) =
    ((t, Parser ok doc (e :: rest)), Return (attribute name e)).
Proof. reflexivity. Qed.

Lemma assign_rejected (v : string) (set : Q → state Q → state Q) (w : state Q * parser) :
  nonempty v = true → rejects v = true → assign v set w = (w, Abort Thrown).
Proof.
  unfold rejects, assign. intros -> Hrejected. cbn [andb] in Hrejected.
  destruct (stold v); [discriminate | reflexivity].
Qed.

Lemma not_rejected_empty (v : string) : nonempty v = false → rejects v = true → False.
Proof. unfold rejects. intros ->. discriminate. Qed.

(** The rounds of the camera loop after the test of the radius. *)
Lemma camera_angle_rejected (k i : nat) (e : element) (rest : list element)
    (s : state Q) (ok : bool) (doc : list element) :
  rejects
    (if nonempty (attribute ("theta-" +:+ pretty i) e)
     then attribute ("theta-" +:+ pretty i) e
     else if i <? sizeof_cartesianDimensions then
       match String.get i cartesianDimensions with
       | Some letter => attribute (String letter EmptyString) e
       | None => EmptyString
       end
     else attribute ("d-" +:+ pretty i) e) = true →
  bind (ask (evaluate_here ("theta-" +:+ pretty i))) (λ value,
    if nonempty value then assign value (assign_fromp k i)
    else if i <? sizeof_cartesianDimensions then
      match String.get i cartesianDimensions with
      | Some letter =>
          bind (ask (evaluate_here (String letter EmptyString))) (λ value,
            if nonempty value then assign value (assign_from k i) else ret tt)
      | None => abort Fault
      end
    else
      bind (ask (evaluate_here ("d-" +:+ pretty i))) (λ value,
        if nonempty value then assign value (assign_from k i) else ret tt))
    (s, Parser ok doc (e :: rest))
  = ((s, Parser ok doc (e :: rest)), Abort Thrown).
Proof.
  generalize ("theta-" +:+ pretty i) ("d-" +:+ pretty i). intros angle other Hrejected.
  rewrite bind_run, here. cbv beta iota.
  destruct (nonempty (attribute angle e)) eqn:Hangle.
  { apply assign_rejected; assumption. }
  destruct (i <? sizeof_cartesianDimensions).
  - destruct (String.get i cartesianDimensions) as [letter |].
    + rewrite bind_run, here. cbv beta iota.
      destruct (nonempty (attribute (String letter EmptyString) e)) eqn:Hletter.
      * apply assign_rejected; assumption.
      * exfalso. exact (not_rejected_empty _ Hletter Hrejected).
    + exfalso. exact (not_rejected_empty EmptyString eq_refl Hrejected).
  - rewrite bind_run, here. cbv beta iota.
    destruct (nonempty (attribute other e)) eqn:Hother.
    + apply assign_rejected; assumption.
    + exfalso. exact (not_rejected_empty _ Hother Hrejected).
Qed.

(** The component [i] of the camera element [e] is malformed: the loop is
    left at it. *)
Lemma camera_axis_rejected (k i : nat) (e : element) (rest : list element)
    (s : state Q) (ok : bool) (doc : list element) :
  rejects (coordinate i e) = true →
  camera_axis k i (s, Parser ok doc (e :: rest))
  = ((s, Parser ok doc (e :: rest)), Abort Thrown).
Proof.
  unfold coordinate, camera_axis. intros Hrejected. rewrite bind_run.
  destruct (i =? 0) eqn:Hi; cbn [andb] in Hrejected.
  - rewrite here. cbv beta iota.
    destruct (nonempty (attribute "radius" e)) eqn:Hradius.
    + apply Nat.eqb_eq in Hi. subst i. apply assign_rejected; assumption.
    + apply camera_angle_rejected, Hrejected.
  - unfold ret at 1. cbv beta iota. change (nonempty EmptyString) with false. cbv iota.
    apply camera_angle_rejected, Hrejected.
Qed.

Lemma cell_rejected (k i j : nat) (e : element) (rest : list element)
    (s : state Q) (ok : bool) (doc : list element) :
  rejects (attribute ("e" +:+ pretty i +:+ "-" +:+ pretty j) e) = true →
  cell k i j (s, Parser ok doc (e :: rest)) = ((s, Parser ok doc (e :: rest)), Abort Thrown).
Proof.
  unfold cell. generalize ("e" +:+ pretty i +:+ "-" +:+ pretty j).
  intros name Hrejected. rewrite bind_run, here. cbv beta iota.
  destruct (nonempty (attribute name e)) eqn:Hname.
  - apply assign_rejected; assumption.
  - exfalso. exact (not_rejected_empty _ Hname Hrejected).
Qed.

(** A loop over indices is left by an exception when one of its rounds is,
    at every state, and no round changes the parser. *)
Lemma for_each_aborts (l : list nat) (body : nat → M Q unit) (i : nat) (p : parser) :
  i ∈ l →
  (∀ j, preserves (λ w : state Q * parser, w.2) (body j)) →
  (∀ s, aborts (body i) (s, p)) →
  ∀ s, aborts (for_each l body) (s, p).
Proof.
  intros Hi Hparser Hbody. induction l as [| j l IH]; intros s.
  - by apply elem_of_nil in Hi.
  - cbn [for_each]. apply aborts_bind. intros [s1 p1] [] Hrun.
    pose proof (parser_kept _ _ _ _ (Hparser j) Hrun) as Hp. cbn [snd] in Hp. subst p1.
    apply elem_of_cons in Hi as [-> | Hi].
    + destruct (Hbody s) as (w' & f & Habort). congruence.
    + apply IH, Hi.
Qed.

Lemma for_each_parser (l : list nat) (body : nat → M Q unit) :
  (∀ j, preserves (λ w : state Q * parser, w.2) (body j)) →
  preserves (λ w : state Q * parser, w.2) (for_each l body).
Proof. intros Hbody. apply preserves_for_each, Hbody. Qed.

(** A loop over the siblings is left by an exception when its body is, on
    one of the elements that pass the test. *)
Lemma visit_aborts (test : element → bool) (body : M Q unit) (e : element)
    (ok : bool) (doc : list element) (l : list element) :
  e ∈ l → test e = true →
  preserves (λ w : state Q * parser, w.2) body →
  (∀ s rest, aborts body (s, Parser ok doc (e :: rest))) →
  ∀ w, valid w.2 = ok → document w.2 = doc → aborts (visit test body l) w.
Proof.
  intros He Htest Hparser Hbody. induction l as [| x l IH]; intros w Hok Hdoc.
  - by apply elem_of_nil in He.
  - cbn [visit]. destruct (test x) eqn:Hx.
    + apply aborts_bind. intros w1 [] Hmove.
      unfold move_context in Hmove. injection Hmove as <-.
      rewrite Hok, Hdoc.
      apply aborts_bind. intros [s2 p2] [] Hrun.
      pose proof (parser_kept _ _ _ _ Hparser Hrun) as Hp. cbn [snd] in Hp. subst p2.
      apply elem_of_cons in He as [-> | He].
      * destruct (Hbody w.1 l) as (w' & f & Habort). congruence.
      * apply IH; [exact He | reflexivity | reflexivity].
    + apply elem_of_cons in He as [-> | He]; [congruence |].
      apply IH; assumption.
Qed.

Lemma camera_aborts (k : nat) (w : state Q * parser) :
  malformed_coordinate k w.2 → aborts (camera k) w.
Proof.
  intros (e & i & He & Hcount & Hi & Hrejected). unfold camera.
  apply aborts_bind. intros w1 doc Hask. unfold ask in Hask. injection Hask as <- <-.
  apply (visit_aborts _ _ e (valid w.2) (document w.2)); try assumption; try reflexivity.
  - apply for_each_parser. intros j. apply camera_axis_parser.
  - intros s rest. apply (for_each_aborts _ _ i).
    + apply elem_of_seq. lia.
    + intros j. apply camera_axis_parser.
    + intros s0. eexists _, _. apply camera_axis_rejected, Hrejected.
Qed.

Lemma cells_aborts (k : nat) (w : state Q * parser) :
  malformed_cell k w.2 → aborts (cells k) w.
Proof.
  intros (e & i & j & He & Hcount & Hi & Hj & Hrejected). unfold cells.
  apply aborts_bind. intros w1 doc Hask. unfold ask in Hask. injection Hask as <- <-.
  apply (visit_aborts _ _ e (valid w.2) (document w.2)); try assumption; try reflexivity.
  - apply for_each_parser. intros a. apply for_each_parser. intros b. apply cell_parser.
  - intros s rest. apply (for_each_aborts _ _ i).
    + apply elem_of_seq. lia.
    + intros a. apply for_each_parser. intros b. apply cell_parser.
    + intros s0. apply (for_each_aborts _ _ j).
      * apply elem_of_seq. lia.
      * intros b. apply cell_parser.
      * intros s1. eexists _, _. apply cell_rejected, Hrejected.
Qed.

Lemma parse_fix_point_aborts (w : state Q * parser) :
  valid w.2 = true → malformed_field w.2 → aborts parse_fix_point w.
Proof.
  intros Hvalid (f & Hf & Hrejected).
  destruct (first_rejected w.2 fix_point_fields) as (before & g & after & Hsplit & Hg & Hbefore).
  { apply Exists_exists. exists f. split; assumption. }
  unfold aborts. rewrite (parse_fix_point_fields w Hvalid), Hsplit.
  destruct w as [s p]. rewrite (read_fields_prefix before g after s p Hg Hbefore).
  eexists _, _. reflexivity.
Qed.

(** What makes a literal malformed is in the document, which no stage of
    the decoder changes. *)
Lemma malformed_source (d : nat) (p p' : parser) :
  document p' = document p → malformed_literal d p → malformed_literal d p'.
Proof.
  intros Hdoc [(k & Hk & [Hc | Hc]) | Hf].
  - left. exists k. split; [exact Hk |]. left.
    destruct Hc as (e & i & He & Hrest). exists e, i. rewrite Hdoc. auto.
  - left. exists k. split; [exact Hk |]. right.
    destruct Hc as (e & i & j & He & Hrest). exists e, i, j. rewrite Hdoc. auto.
  - right. destruct Hf as (f & Hf & Hrejected). exists f. split; [exact Hf |].
    destruct f; [| exact Hrejected]. unfold rejected, evaluate_anywhere in *.
    rewrite Hdoc. exact Hrejected.
Qed.

Lemma parse_aborts (d : nat) (w : state Q * parser) :
  valid w.2 = true → malformed_literal d w.2 → aborts (parse d) w.
Proof.
  revert w. induction d as [| d IH]; intros w Hvalid Hbad.
  { destruct Hbad as [(k & Hk & _) | Hf]; [lia |]. apply parse_fix_point_aborts; assumption. }
  destruct d as [| n].
  { destruct Hbad as [(k & Hk & _) | Hf]; [lia |]. apply parse_fix_point_aborts; assumption. }
  change (parse (S (S n))) with
    (bind (ask valid) (λ ok : bool,
       if negb ok then ret false
       else bind (camera (S (S n))) (λ _, bind (identity_reset (S (S n))) (λ _,
              bind (cells (S (S n))) (λ _, parse (Q:=Q) (S n)))))).
  apply aborts_bind. intros w0 ok Hask. unfold ask in Hask. injection Hask as <- <-.
  rewrite Hvalid. cbn [negb].
  apply aborts_bind. intros w1 [] Hcamera.
  pose proof (preserves_run _ _ _ _ _ (camera_source (S (S n))) Hcamera) as S1.
  apply aborts_bind. intros w2 [] Hreset.
  pose proof (preserves_run _ _ _ _ _ (identity_reset_source (S (S n))) Hreset) as S2.
  apply aborts_bind. intros w3 [] Hcells.
  pose proof (preserves_run _ _ _ _ _ (cells_source (S (S n))) Hcells) as S3.
  unfold source in S1, S2, S3.
  assert (Hsame : valid w3.2 = valid w.2 ∧ document w3.2 = document w.2 ∧
                  document w1.2 = document w.2 ∧ document w2.2 = document w.2).
  { repeat split; congruence. }
  destruct Hsame as (Hv3 & Hd3 & Hd1 & Hd2).
  destruct Hbad as [(k & Hk & Hstage) | Hf].
  - destruct (decide (k = S (S n))) as [-> | Hlower].
    + exfalso. destruct Hstage as [Hc | Hc].
      * destruct (camera_aborts (S (S n)) w Hc) as (w' & f & Habort). congruence.
      * assert (Hc2 : malformed_cell (S (S n)) w2.2).
        { destruct Hc as (e & i & j & He & Hrest). exists e, i, j. rewrite Hd2. auto. }
        destruct (cells_aborts (S (S n)) w2 Hc2) as (w' & f & Habort). congruence.
    + apply IH; [congruence |].
      apply (malformed_source (S n) w.2); [exact Hd3 |].
      left. exists k. split; [lia | exact Hstage].
  - apply IH; [congruence |].
    apply (malformed_source (S n) w.2); [exact Hd3 |]. right. exact Hf.
Qed.

(** The assignment of a field of the table looks at nothing but what the
    states share, and at the document. *)
Lemma fields_respect_shared :
  Forall (λ f : field,
            ∀ (p p' : parser) (s s' : state Q),
              document p' = document p → shared (s', p') = shared (s, p) →
              shared (assigned p' f s', p') = shared (assigned p f s, p))
    fix_point_fields.
Proof.
  unfold fix_point_fields.
  repeat constructor; intros p p' s s' Hdoc Hshared;
    unfold assigned, evaluate_anywhere; rewrite Hdoc;
    generalize (first_attribute "precision" "polar" (document p));
    intros; unfold shared in *; cbn [fst snd] in *;
    injection Hshared as Hpolar Hparameter Hexport Hbg Hwf Hsf Hprefix Hmodel;
    repeat match goal with
           | |- context [stold ?v] => destruct (stold v)
           | |- context [if ?b then _ else _] => destruct b
           end;
    unfold on_parameter, on_background, on_wireframe, on_surface;
    cbn [polarCoordinates parameter exportMultiplier background wireframe surface idPrefix
         model set_parameter set_background set_wireframe set_surface set_polarCoordinates];
    congruence.
Qed.

Lemma prefix_respects_shared (before : list field) (p p' : parser) (s s' : state Q) :
  Forall (λ f, f ∈ fix_point_fields) before →
  document p' = document p → shared (s', p') = shared (s, p) →
  shared (foldl (λ s g, assigned p' g s) s' before, p')
  = shared (foldl (λ s g, assigned p g s) s before, p).
Proof.
  intros Hbefore Hdoc. revert s s'.
  induction Hbefore as [| f before Hf _ IH]; intros s s' Hshared; [exact Hshared |].
  cbn [foldl]. apply IH.
  exact (proj1 (Forall_forall _ _) fields_respect_shared f Hf p p' s s' Hdoc Hshared).
Qed.

Lemma rejected_source (p p' : parser) (f : field) :
  document p' = document p → rejected p' f = rejected p f.
Proof.
  intros Hdoc. destruct f; [| reflexivity]. unfold rejected, evaluate_anywhere.
  rewrite Hdoc. reflexivity.
Qed.

Lemma parse_fix_point_prefix (before : list field) (f : field) (after : list field)
    (s : state Q) (p : parser) :
  valid p = true →
  fix_point_fields = before ++ f :: after →
  rejected p f = true → Forall (λ g, rejected p g = false) before →
  parse_fix_point (s, p) = ((foldl (λ s g, assigned p g s) s before, p), Abort Thrown).
Proof.
  intros Hvalid Hsplit Hf Hbefore.
  rewrite (parse_fix_point_fields (s, p) Hvalid), Hsplit.
  rewrite (read_fields_prefix before f after s p Hf Hbefore). reflexivity.
Qed.

Lemma parse_prefix (before : list field) (f : field) (after : list field) (d : nat) :
  fix_point_fields = before ++ f :: after →
  ∀ w, valid w.2 = true → rejected w.2 f = true →
       Forall (λ g, rejected w.2 g = false) before →
       ∃ w' fl, parse d w = (w', Abort fl) ∧
                (shared w' = shared w ∨
                 shared w' = shared (foldl (λ s g, assigned w.2 g s) w.1 before, w.2)).
Proof.
  intros Hsplit.
  assert (Hfix : ∀ w, valid w.2 = true → rejected w.2 f = true →
            Forall (λ g, rejected w.2 g = false) before →
            ∃ w' fl, parse_fix_point w = (w', Abort fl) ∧
                     (shared w' = shared w ∨
                      shared w' = shared (foldl (λ s g, assigned w.2 g s) w.1 before, w.2))).
  { intros [s p] Hvalid Hf Hbefore. eexists _, _. split.
    - apply (parse_fix_point_prefix before f after); assumption.
    - right. reflexivity. }
  assert (Hin : Forall (λ g, g ∈ fix_point_fields) before).
  { apply Forall_forall. intros g Hg. rewrite Hsplit. apply elem_of_app. left. exact Hg. }
  induction d as [| d IH]; [exact Hfix |].
  destruct d as [| n]; [exact Hfix |].
  intros w Hvalid Hf Hbefore.
  change (parse (S (S n))) with
    (bind (ask valid) (λ ok : bool,
       if negb ok then ret false
       else bind (camera (S (S n))) (λ _, bind (identity_reset (S (S n))) (λ _,
              bind (cells (S (S n))) (λ _, parse (Q:=Q) (S n)))))).
  rewrite bind_run. unfold ask at 1. cbv beta iota. rewrite Hvalid. cbn [negb].
  rewrite bind_run.
  pose proof (camera_source (S (S n)) w) as S1.
  pose proof (camera_shared (S (S n)) w) as H1.
  destruct (camera (S (S n)) w) as [w1 [[] | fl]]; cbn [fst] in S1, H1.
  2:{ exists w1, fl. split; [reflexivity | left; exact H1]. }
  rewrite bind_run.
  pose proof (identity_reset_source (S (S n)) w1) as S2.
  pose proof (identity_reset_shared (S (S n)) w1) as H2.
  destruct (identity_reset (S (S n)) w1) as [w2 [[] | fl]]; cbn [fst] in S2, H2.
  2:{ exists w2, fl. split; [reflexivity | left; congruence]. }
  rewrite bind_run.
  pose proof (cells_source (S (S n)) w2) as S3.
  pose proof (cells_shared (S (S n)) w2) as H3.
  destruct (cells (S (S n)) w2) as [w3 [[] | fl]]; cbn [fst] in S3, H3.
  2:{ exists w3, fl. split; [reflexivity | left; congruence]. }
  assert (Hsource : valid w3.2 = valid w.2 ∧ document w3.2 = document w.2).
  { unfold source in S1, S2, S3. split; congruence. }
  destruct Hsource as [Hv Hd].
  assert (Hshared : shared w3 = shared w) by congruence.
  destruct (IH w3) as (w' & fl & Hrun & Hkept).
  - congruence.
  - rewrite (rejected_source w.2 w3.2 f Hd). exact Hf.
  - eapply Forall_impl; [exact Hbefore |]. intros g Hg. cbv beta in *.
    rewrite (rejected_source w.2 w3.2 g Hd). exact Hg.
  - exists w', fl. split; [exact Hrun |]. destruct Hkept as [Hkept | Hkept].
    + left. congruence.
    + right. rewrite Hkept. destruct w3 as [s3 p3], w as [s p]. cbn [fst snd] in *.
      apply prefix_respects_shared; assumption.
Qed.

(** C2 (amended).  A malformed literal is never caught.  Whenever a literal that
    the decode of [d] dimensions reads through [std::stold] is a non-empty
    text that [std::stold] rejects (a coordinate of a camera element or a
    cell of a transformation element of a dimension from 2 to [d], or one of
    the numeric attributes of the 1D fix point), the decode of a valid
    document does not return: it is left by an exception.  The 1D fix point
    assigns its fields in a fixed order; when [f] is the first of them whose
    literal is malformed, it ends by that exception in the state in which
    exactly the fields before [f] are assigned, so [f] and every field after
    it keep their prior values, well-formed or not.  At a higher dimension
    the decode ends by an exception too, and what the states share is then
    either untouched or as the fields before [f] leave it. *)
Theorem C2_malformed_literal_leaves_the_decoder (d : nat) (s : state Q) (p : parser) :
  valid p = true →
  (malformed_literal d p → ∃ w' f, parse d (s, p) = (w', Abort f)) ∧
  (∀ before f after,
     fix_point_fields = before ++ f :: after →
     rejected p f = true → Forall (λ g, rejected p g = false) before →
     parse 1 (s, p) = ((foldl (λ s g, assigned p g s) s before, p), Abort Thrown) ∧
     ∃ w' fl,
       parse d (s, p) = (w', Abort fl) ∧
       (shared w' = shared (s, p) ∨
        shared w' = shared (foldl (λ s g, assigned p g s) s before, p))).
Proof.
  intros Hvalid. split.
  - intros Hbad. exact (parse_aborts d (s, p) Hvalid Hbad).
  - intros before f after Hsplit Hf Hbefore. split.
    + apply (parse_fix_point_prefix before f after); assumption.
    + exact (parse_prefix before f after d Hsplit (s, p) Hvalid Hf Hbefore).
Qed.

End MalformedLiterals.

(** ** C3: dispatch of a type the table does not list *)
Section UnknownModel.
Context {Q : Type}.

Lemma find_serves_unknown (table : list entry) (r : request) :
  Forall (λ e, entry_type e ≠ type r) table → find (serves r) table = None.
Proof.
  induction 1 as [| e table Hne _ IH]; simpl; [reflexivity |].
  unfold serves at 1. destruct (String.eqb_spec (entry_type e) (type r)) as [Heq | _].
  - contradiction.
  - simpl. exact IH.
Qed.

(** C3 (amended).  Dispatch of a type name that no entry of the table carries
    leaves the state, and with it a bound renderer, as it was, and returns
    whether a renderer is bound: [false] only when none was bound before. *)
Theorem C3_unknown_type_passes (table : list entry) (fresh : nat) (r : request)
    (s : state Q) :
  Forall (λ e, entry_type e ≠ type r) table →
  geometry_with table fresh r s = (s, match model s with Some _ => true | None => false end).
Proof.
  intros Hunknown. unfold geometry_with. rewrite (find_serves_unknown _ _ Hunknown).
  unfold pass. destruct (model s); reflexivity.
Qed.

End UnknownModel.

(** ** C5: order of the calls of the OpenGL renderer *)
Section RasterOrder.
Context {Q : Type} `{!Scalar Q} `{!XPath}.

(** C5 (the code at every input).  In every frame the wireframe is drawn
    before the solid and with depth writes enabled; the depth-write flag in
    force for the solid pass is [alpha < 1] of the surface colour: enabled
    for a translucent surface, disabled for an opaque one. *)
Theorem C5_depth_write_of_the_passes (GL3D update : bool) (s : state Q) :
  ∃ w n : nat,
    position is_renderWireframe (renderGL GL3D update s) = Some w ∧
    position is_renderSolid (renderGL GL3D update s) = Some n ∧
    w < n ∧
    depth_write_at w (renderGL GL3D update s) = Some true ∧
    depth_write_at n (renderGL GL3D update s) = Some (below_one (alpha (surface s))).
Proof.
  unfold renderGL.
  destruct GL3D, update; [destruct (level_of 3 s) .. | |];
    (eexists _, _; split; [reflexivity |]; split; [reflexivity |];
     split; [lia |]; split; [reflexivity |];
     cbn; destruct (below_one (alpha (surface s))); reflexivity).
Qed.

End RasterOrder.

(** ** C9: replacement of the renderer *)
Section Replacement.
Context {Q : Type}.

Lemma apply_run (created : renderer) (out : state Q) :
  apply created out = (set_model (Some created) out, true).
Proof. unfold apply, apply_steps. destruct out as [? ? ? ? ? ? ? ? []]; reflexivity. Qed.

(** C9 (amended).  In [updateModel::apply] the old renderer is destroyed and
    the model pointer reset before the new renderer is constructed, and the
    new one is installed last.  On entry, after the reset, in the
    constructor of the new renderer and on return the model accessor yields
    null, the old renderer (on entry) or the new one (on return), and a
    renderer it yields is alive.  During the replacement it is not so: in the
    destructor of the old renderer, and until [out.model = 0] has run, the
    accessor still yields the old renderer, which is no longer alive.  With
    no renderer bound these two places are not passed.  [apply] returns
    [true] with the state of the last place, where the new renderer is alive
    and the old one is not. *)
Theorem C9_replacement_of_the_renderer (created : renderer) (out : state Q)
    (objects : list nat) :
  sound (Snapshot on_entry out objects) →
  let trace := apply_steps created out objects in
  (∀ x, x ∈ trace → where_ x ≠ in_destructor → where_ x ≠ after_delete →
     sound x ∧
     (model (seen x) = None ∨
      (where_ x = on_entry ∧ model (seen x) = model out) ∨
      (where_ x = on_return ∧ model (seen x) = Some created))) ∧
  (∀ old, model out = Some old →
     ∃ h i j k l,
       reached in_destructor trace = Some h ∧ reached after_delete trace = Some i ∧
       reached after_reset trace = Some j ∧
       reached in_constructor trace = Some k ∧ reached on_return trace = Some l ∧
       h < i ∧ i < j ∧ j < k ∧ k < l ∧
       (∀ x, trace !! h = Some x ∨ trace !! i = Some x →
          model (seen x) = Some old ∧ (address old ∉ alive x) ∧ (¬ sound x)) ∧
       (∀ x, trace !! k = Some x → model (seen x) = None ∧ address old ∉ alive x)) ∧
  (model out = None →
     reached in_destructor trace = None ∧ reached after_delete trace = None) ∧
  (∃ x, last trace = Some x ∧ where_ x = on_return ∧
        apply created out = (seen x, true) ∧
        alive x = address created ::
                  match model out with
                  | Some old => destroy (address old) objects
                  | None => objects
                  end).
Proof.
  intros Hentry trace. subst trace. unfold sound in Hentry. simpl in Hentry.
  rewrite apply_run. unfold apply_steps.
  split; [| split; [| split]].
  - intros x Hx Hdestructor Hdelete. unfold sound.
    destruct (model out) as [old |] eqn:Hmodel; simpl in Hx;
      repeat (apply elem_of_cons in Hx as [-> | Hx]); try (by apply elem_of_nil in Hx);
      simpl in *; try congruence; rewrite ?Hmodel; simpl.
    + split; [exact Hentry | right; left; split; reflexivity].
    + split; [exact I | left; reflexivity].
    + split; [exact I | left; reflexivity].
    + split; [apply elem_of_cons; left; reflexivity | right; right; split; reflexivity].
    + split; [exact I | left; reflexivity].
    + split; [exact I | left; reflexivity].
    + split; [apply elem_of_cons; left; reflexivity | right; right; split; reflexivity].
  - intros old Hmodel. rewrite Hmodel. exists 1, 2, 3, 4, 5. simpl.
    do 9 (split; [reflexivity || lia |]).
    assert (Hgone : address old ∉ destroy (address old) objects).
    { unfold destroy. rewrite list_elem_of_filter. tauto. }
    split.
    + intros x [Hx | Hx]; injection Hx as <-; unfold sound; simpl; rewrite Hmodel;
        repeat split; assumption.
    + intros x Hx. injection Hx as <-. simpl. split; [reflexivity | exact Hgone].
  - intros Hmodel. rewrite Hmodel. split; reflexivity.
  - destruct (model out) as [old |] eqn:Hmodel; simpl; eexists; repeat split;
      destruct out as [? ? ? ? ? ? ? ? m]; simpl in *; subst m; reflexivity.
Qed.

End Replacement.

(** ** C10: the JSON decoder and the polar flag *)
Section JsonFrame.
Context {Q : Type} `{!Scalar Q} `{!XPath}.

Lemma fmap_alter_same {A B} (f : A → B) (g : A → A) (i : nat) (l : list A) :
  (∀ x, f (g x) = f x) → f <$> alter g i l = f <$> l.
Proof.
  intros Hg. revert i. induction l as [| x l IH]; intros [| i]; simpl; try reflexivity.
  - rewrite Hg. reflexivity.
  - f_equal. apply IH.
Qed.

Lemma store_keeps {X} (f : state Q → X) (v : json Q) (set : Q → state Q → state Q) s :
  (∀ q s, f (set q s) = f s) → f (store v set s) = f s.
Proof. intros Hset. destruct v; simpl; auto. Qed.

Lemma foldl_keeps {X A} (f : state Q → X) (step : state Q → A → state Q) (l : list A) s :
  (∀ s a, f (step s a) = f s) → f (foldl step s l) = f s.
Proof.
  intros Hstep. revert s. induction l as [| a l IH]; intros s; simpl; [reflexivity |].
  rewrite IH. apply Hstep.
Qed.

(** An observation that no assignment of the JSON decoder for this document
    changes is the same after the decode. *)
Lemma parse_json_keeps {X} (f : state Q → X) (value : json Q) :
  (∀ d i q s,
     f ((if truth (member "polar" value) then assign_fromp d i else assign_from d i) q s)
     = f s) →
  (∀ d i j q s, f (assign_cell d i j q s) = f s) →
  (∀ g s, f (on_parameter g s) = f s) →
  (∀ g s, f (on_background g s) = f s) →
  (∀ g s, f (on_wireframe g s) = f s) →
  (∀ g s, f (on_surface g s) = f s) →
  ∀ d s, f (parse_json d s value).1 = f s.
Proof.
  intros Hcam Hcell Hpar Hbg Hwf Hsf.
  assert (Hfix : ∀ s, f (parse_json_fix_point s value).1 = f s).
  { intros s. unfold parse_json_fix_point. destruct (negb (isObject value)); [reflexivity |].
    simpl. unfold json_colour, json_flag.
    repeat first
      [ rewrite store_keeps by (intros; auto)
      | match goal with |- context [if ?b then _ else _] => destruct b end ];
      auto; try reflexivity;
      repeat first [rewrite Hpar | rewrite store_keeps by (intros; auto)
                   | match goal with |- context [if ?b then _ else _] => destruct b end];
      auto. }
  induction d as [| d IH]; intros s; [apply Hfix |].
  destruct d as [| n]; [apply Hfix |].
  change (parse_json (S (S n)) s value) with
    (if negb (isObject value) then (s, false)
     else
       let polar := truth (member "polar" value) in
       let s1 :=
         if isArray (member "camera" value)
         then foldl (json_camera (S (S n)) polar) s (toArray (member "camera" value))
         else s in
       let s2 :=
         if isArray (member "transformation" value)
         then foldl (json_transformation (S (S n))) s1 (toArray (member "transformation" value))
         else s1 in
       parse_json (S n) s2 value).
  destruct (negb (isObject value)); [reflexivity |]. cbv zeta. rewrite IH.
  assert (Htr : ∀ s t, f (json_transformation (S (S n)) s t) = f s).
  { intros s0 t. unfold json_transformation.
    destruct (isArray t && (size t =? (S (S n) + 1) * (S (S n) + 1))); [| reflexivity].
    apply foldl_keeps. intros s1 i. apply foldl_keeps. intros s2 j.
    apply store_keeps. intros. apply Hcell. }
  assert (Hca : ∀ s c, f (json_camera (S (S n)) (truth (member "polar" value)) s c) = f s).
  { intros s0 c. unfold json_camera.
    destruct (isArray c && (size c =? S (S n))); [| reflexivity].
    apply foldl_keeps. intros s1 i. apply store_keeps. intros. apply Hcam. }
  destruct (isArray (member "transformation" value));
    destruct (isArray (member "camera" value));
    rewrite ?(foldl_keeps f _ _ _ Htr), ?(foldl_keeps f _ _ _ Hca); reflexivity.
Qed.

End JsonFrame.

Section PolarFlag.
Context {Q : Type} `{!Scalar Q} `{!XPath}.

Lemma bind_returns {A B} (c : M Q A) (k : A → M Q B) w w' b :
  bind c k w = (w', Return b) → ∃ w1 a, c w = (w1, Return a) ∧ k a w1 = (w', Return b).
Proof.
  unfold bind. destruct (c w) as [w1 [a | e]]; [eauto | discriminate].
Qed.

Lemma flag_shared (w w' : state Q * parser) : shared w' = shared w → flag w' = flag w.
Proof. unfold shared, flag. intros Hsh. injection Hsh as -> _ _ _ _ _ _ _. reflexivity. Qed.

Lemma mode_source (w w' : state Q * parser) :
  source w' = source w →
  evaluate_anywhere "camera" "mode" w'.2 = evaluate_anywhere "camera" "mode" w.2.
Proof. unfold source, evaluate_anywhere. intros Hsrc. injection Hsrc as _ ->. reflexivity. Qed.

(** The XML fix point assigns the flag from [camera/@mode]. *)
Lemma parse_fix_point_flag (w w' : state Q * parser) :
  parse_fix_point w = (w', Return true) →
  flag w' =
    if nonempty (evaluate_anywhere "camera" "mode" w.2)
    then String.eqb (evaluate_anywhere "camera" "mode" w.2) "polar"
    else flag w.
Proof.
  unfold parse_fix_point. intros Hrun.
  apply bind_returns in Hrun as (w0 & ok & Hok & Hrun). injection Hok as <- <-.
  destruct (negb (valid w.2)); [discriminate |].
  apply bind_returns in Hrun as (w1 & [] & Hprecision & Hrun).
  apply bind_returns in Hrun as (w2 & [] & Hradius & Hrun).
  apply bind_returns in Hrun as (w3 & [] & Hafter & Hrun). injection Hrun as <-.
  unfold after_radius in Hafter.
  apply bind_returns in Hafter as (w4 & [] & Hmode & Hrest).
  assert (H1 : flag w1 = flag w ∧ source w1 = source w).
  { split; (eapply preserves_run; [| exact Hprecision]);
      unfold numeric; frame ltac:(reflexivity). }
  assert (H2 : flag w2 = flag w1 ∧ source w2 = source w1).
  { split; (eapply preserves_run; [| exact Hradius]);
      unfold numeric; frame ltac:(reflexivity). }
  assert (H3 : flag w3 = flag w4).
  { eapply preserves_run; [| exact Hrest].
    unfold numeric, choice. frame ltac:(reflexivity). }
  rewrite H3. destruct H1 as [Hf1 Hs1], H2 as [Hf2 Hs2].
  rewrite <- (mode_source w w2) by congruence.
  rewrite <- Hf1, <- Hf2. revert Hmode.
  unfold choice, bind, ask, modify, ret. simpl.
  destruct (nonempty (evaluate_anywhere "camera" "mode" w2.2));
    intros Hmode; injection Hmode as <-; reflexivity.
Qed.

Lemma parse_flag (d : nat) (w w' : state Q * parser) :
  parse d w = (w', Return true) →
  flag w' =
    if nonempty (evaluate_anywhere "camera" "mode" w.2)
    then String.eqb (evaluate_anywhere "camera" "mode" w.2) "polar"
    else flag w.
Proof.
  revert w. induction d as [| d IH]; intros w Hrun; [apply parse_fix_point_flag, Hrun |].
  destruct d as [| n]; [apply parse_fix_point_flag, Hrun |].
  change (parse (S (S n))) with
    (bind (ask valid) (λ ok : bool,
       if negb ok then ret false
       else bind (camera (S (S n))) (λ _, bind (identity_reset (S (S n))) (λ _,
              bind (cells (S (S n))) (λ _, parse (Q:=Q) (S n)))))) in Hrun.
  apply bind_returns in Hrun as (w0 & ok & Hok & Hrun). injection Hok as <- <-.
  destruct (negb (valid w.2)); [discriminate |].
  apply bind_returns in Hrun as (w1 & [] & Hcamera & Hrun).
  apply bind_returns in Hrun as (w2 & [] & Hreset & Hrun).
  apply bind_returns in Hrun as (w3 & [] & Hcells & Hrun).
  pose proof (camera_shared (S (S n)) w) as Hh1.
  pose proof (camera_source (S (S n)) w) as Hs1.
  pose proof (identity_reset_shared (S (S n)) w1) as Hh2.
  pose proof (identity_reset_source (S (S n)) w1) as Hs2.
  pose proof (cells_shared (S (S n)) w2) as Hh3.
  pose proof (cells_source (S (S n)) w2) as Hs3.
  rewrite Hcamera in Hh1, Hs1. rewrite Hreset in Hh2, Hs2. rewrite Hcells in Hh3, Hs3.
  simpl in *.
  rewrite (IH _ Hrun).
  rewrite (mode_source w w3) by congruence.
  rewrite (flag_shared w w3) by congruence. reflexivity.
Qed.

(** C10.  The JSON decode of any value leaves [polarCoordinates] as it was.
    The member ["polar"] of the document only selects the camera vector that
    receives the coordinates: with it the cartesian vectors [from] stay as
    they were, without it the polar vectors [fromp] do.  A decode of the
    attribute tree that returns [true] has assigned the flag from
    [camera/@mode] when that attribute is there. *)
Theorem C10_json_decode_keeps_the_polar_flag (d : nat) (s : state Q) (value : json Q) :
  polarCoordinates (parse_json d s value).1 = polarCoordinates s ∧
  (if truth (member "polar" value)
   then from <$> levels (parse_json d s value).1 = from <$> levels s
   else fromp <$> levels (parse_json d s value).1 = fromp <$> levels s) ∧
  (∀ p s' p',
     parse d (s, p) = ((s', p'), Return true) →
     polarCoordinates s' =
       if nonempty (evaluate_anywhere "camera" "mode" p)
       then String.eqb (evaluate_anywhere "camera" "mode" p) "polar"
       else polarCoordinates s).
Proof.
  split; [| split].
  - apply (parse_json_keeps polarCoordinates); intros;
      try (destruct (truth (member "polar" value))); try reflexivity;
      unfold assign_fromp, assign_from, assign_cell, at_level;
      match goal with |- context [?a <? 2] => destruct (a <? 2) end; reflexivity.
  - destruct (truth (member "polar" value)) eqn:Hpolar.
    + apply (parse_json_keeps (λ s, from <$> levels s)); rewrite ?Hpolar; intros;
        try reflexivity;
        unfold assign_fromp, assign_cell, at_level;
        match goal with |- context [?a <? 2] => destruct (a <? 2) end;
        try reflexivity; simpl; apply fmap_alter_same; reflexivity.
    + apply (parse_json_keeps (λ s, fromp <$> levels s)); rewrite ?Hpolar; intros;
        try reflexivity;
        unfold assign_from, assign_cell, at_level;
        match goal with |- context [?a <? 2] => destruct (a <? 2) end;
        try reflexivity; simpl; apply fmap_alter_same; reflexivity.
  - intros p s' p' Hrun. apply (parse_flag d (s, p) (s', p') Hrun).
Qed.

End PolarFlag.

(** ** C8: [matrix="identity"] *)
Section IdentityReset.
Context {Q : Type} `{!Scalar Q} `{!XPath}.

Lemma visit_skip (test : element → bool) (body : M Q unit) (l : list element) w :
  Forall (λ e, test e = false) l → visit test body l w = (w, Return tt).
Proof.
  induction 1 as [| e l He _ IH]; simpl; [reflexivity |]. rewrite He. exact IH.
Qed.

Lemma parse_fix_point_members k : preserves (members k) (parse_fix_point (Q:=Q)).
Proof.
  intros w. unfold members, level_of.
  pose proof (parse_fix_point_levels w) as Hl. simpl in Hl. rewrite Hl. reflexivity.
Qed.

Lemma parse_members (k d : nat) : d < k → preserves (members k) (parse (Q:=Q) d).
Proof.
  induction d as [| d IH]; intros Hdk; [apply parse_fix_point_members |].
  destruct d as [| n]; [apply parse_fix_point_members |].
  change (parse (S (S n))) with
    (bind (ask valid) (λ ok : bool,
       if negb ok then ret false
       else bind (camera (S (S n))) (λ _, bind (identity_reset (S (S n))) (λ _,
              bind (cells (S (S n))) (λ _, parse (Q:=Q) (S n)))))).
  apply preserves_bind; [apply preserves_ask |]. intros ok.
  destruct (negb ok); [apply preserves_ret |].
  apply preserves_bind; [apply camera_members; lia |]. intros _.
  apply preserves_bind; [apply identity_reset_members; lia |]. intros _.
  apply preserves_bind; [apply cells_members; lia |]. intros _.
  apply IH. lia.
Qed.








End IdentityReset.

(** ** C4, C6, C7: depth and render-depth of a model request *)
Section FileRequest.
Context {Q : Type}.

(** The call of [efgy::geometry::with] made for the first [model] element
    [e] with a depth and a type: [n] is its depth, [m] the render-depth as
    read (the depth when the attribute is absent or empty). *)
Lemma model_request_run (s : state Q) (p : parser) (e : element) (rest : list element)
    (n m : Z) :
  valid p = true →
  seek has_depth_and_type (document p) = e :: rest →
  stoi (attribute "depth" e) = Some n →
  (if nonempty (attribute "render-depth" e)
   then stoi (attribute "render-depth" e) else Some n) = Some m →
  model_request (s, p) =
    ((s, Parser (valid p) (document p) (e :: rest)),
     Return (Some (Request
       (if nonempty (evaluate_anywhere "coordinates" "format" p)
        then evaluate_anywhere "coordinates" "format" p else "cartesian")
       (attribute "type" e) n
       (if (m =? 0)%Z
        then if closed_topology (attribute "type" e) then wrap_int (n + 1) else n
        else m)))).
Proof.
  destruct p as [ok doc ctx]. simpl. intros -> Hseek Hdepth Hrender.
  unfold model_request. rewrite bind_run. unfold ask at 1. simpl.
  rewrite bind_run. unfold ask at 1. simpl.
  rewrite bind_run. unfold update_context, updateContext. simpl. rewrite Hseek. simpl.
  rewrite bind_run. unfold ask at 1, evaluate_here at 1. simpl.
  rewrite bind_run. unfold stoi_of at 1. rewrite Hdepth. simpl.
  rewrite bind_run. unfold ask at 1, evaluate_here at 1. simpl.
  rewrite bind_run. unfold ask at 1, evaluate_here at 1. simpl.
  rewrite bind_run.
  destruct (nonempty (attribute "render-depth" e)).
  - unfold stoi_of. rewrite Hrender. reflexivity.
  - injection Hrender as <-. reflexivity.
Qed.

Lemma wrap_int_next (n : Z) : (INT_MIN ≤ n < INT_MAX)%Z → wrap_int (n + 1) = (n + 1)%Z.
Proof.
  unfold wrap_int, INT_MIN, INT_MAX. intros Hn.
  rewrite Z.mod_small by lia. lia.
Qed.

Lemma stoi_range (v : string) (n : Z) : stoi v = Some n → (INT_MIN ≤ n ≤ INT_MAX)%Z.
Proof.
  unfold stoi. destruct (skip_spaces v) as [| c rest]; simpl.
  { discriminate. }
  intros Hn.
  repeat match type of Hn with
         | context [match ?x with _ => _ end] => destruct x eqn:?; simpl in Hn
         end;
    try discriminate; injection Hn as <-; lia.
Qed.

End FileRequest.

(** Case analysis on the integer comparisons of the settings code. *)
Ltac compare_settings :=
  repeat first
    [ rewrite Z.gtb_ltb
    | rewrite Z.geb_leb
    | match goal with
      | |- context [(?a <? ?b)%Z] => destruct (Z.ltb_spec a b); simpl
      | |- context [(?a <=? ?b)%Z] => destruct (Z.leb_spec a b); simpl
      | |- context [(?a =? ?b)%Z] => destruct (Z.eqb_spec a b); simpl
      end ].

Section LiveRequest.
Variable MAXDEPTH : Z.

Lemma wrap_NSInteger_small (z : Z) : (- 2 ^ 63 ≤ z < 2 ^ 63)%Z → wrap_NSInteger z = z.
Proof. unfold wrap_NSInteger. intros Hz. rewrite Z.mod_small by lia. lia. Qed.

Lemma to_unsigned_int_small (z : Z) : (0 ≤ z < 2 ^ 32)%Z → to_unsigned_int z = z.
Proof. unfold to_unsigned_int. intros Hz. apply Z.mod_small. lia. Qed.

Lemma updateModel_sphere (u : defaults) :
  (3 ≤ MAXDEPTH < 2 ^ 32)%Z →
  model_key u = Some "sphere" →
  ∃ u' r,
    updateModel MAXDEPTH u = (u', Some r) ∧ type r = "sphere" ∧
    (2 ≤ dims r)%Z ∧ (dims r < rdims r)%Z ∧ (rdims r ≤ MAXDEPTH)%Z.
Proof.
  intros Hmax Hmodel. unfold updateModel. rewrite Hmodel. simpl.
  eexists _, _. split; [reflexivity |]. split; [reflexivity |]. simpl.
  destruct u as [m d rd]. simpl in *. clear Hmodel.
  compare_settings; simpl in *;
    rewrite ?wrap_NSInteger_small in * by lia;
    rewrite ?to_unsigned_int_small by lia; lia.
Qed.

Lemma updateModel_flat (u : defaults) (model : string) :
  model_key u = Some model →
  model = "plane" ∨ model = "moebius-strip" ∨ model = "klein-bagel" →
  ∃ u' r, updateModel MAXDEPTH u = (u', Some r) ∧ type r = model ∧ dims r = 2%Z.
Proof.
  intros Hmodel Hflat. unfold updateModel. rewrite Hmodel.
  eexists _, _. split; [reflexivity |]. split; [reflexivity |]. simpl.
  destruct u as [m d rd]. simpl in *. clear Hmodel.
  destruct Hflat as [-> | [-> | ->]]; simpl; compare_settings; simpl in *;
    rewrite ?to_unsigned_int_small by lia; lia.
Qed.

End LiveRequest.

Section DepthPolicy.
Context {Q : Type} `{!Scalar Q} `{!XPath}.

Lemma reconfigure_sphere (MAXDEPTH : Z) (index : string) (u : defaults) :
  (3 ≤ MAXDEPTH < 2 ^ 32)%Z →
  index = "model" ∨ index = "depth" ∨ index = "renderDepth" →
  model_key u = Some "sphere" →
  ∃ u' r,
    reconfigureWithIndex MAXDEPTH index u = (u', Some r) ∧ type r = "sphere" ∧
    (2 ≤ dims r)%Z ∧ (dims r < rdims r)%Z ∧ (rdims r ≤ MAXDEPTH)%Z.
Proof.
  intros Hmax Hindex Hmodel. unfold reconfigureWithIndex.
  destruct Hindex as [-> | [-> | ->]]; simpl; apply updateModel_sphere; try exact Hmax;
    try exact Hmodel;
    match goal with |- context [if ?b then _ else _] => destruct b end; exact Hmodel.
Qed.

(** C4 (amended).  On the settings path a sphere is always requested with a
    render-depth above its depth, and never below depth 2 or above
    [MAXDEPTH]: [updateModel] and a change of the render-depth setting lower
    the depth to render-depth - 1 when the render-depth is not above it, a
    change of the depth setting raises the render-depth to depth + 1.  The
    decode of a file raises the render-depth of a sphere to depth + 1 only
    when it reads as zero; any other render-depth is passed on as read. *)
Theorem C4_sphere_render_depth (MAXDEPTH : Z) :
  (3 ≤ MAXDEPTH < 2 ^ 32)%Z →
  (∀ index u,
     index = "model" ∨ index = "depth" ∨ index = "renderDepth" →
     model_key u = Some "sphere" →
     ∃ u' r,
       reconfigureWithIndex MAXDEPTH index u = (u', Some r) ∧ type r = "sphere" ∧
       (dims r < rdims r)%Z) ∧
  (∀ u,
     model_key u = Some "sphere" →
     (2 ≤ depth_key u < MAXDEPTH)%Z → (3 ≤ renderDepth_key u ≤ depth_key u)%Z →
     (updateModel MAXDEPTH u).2 =
       Some (Request "cartesian" "sphere" (renderDepth_key u - 1) (renderDepth_key u)) ∧
     (reconfigureWithIndex MAXDEPTH "renderDepth" u).2 =
       Some (Request "cartesian" "sphere" (renderDepth_key u - 1) (renderDepth_key u)) ∧
     (reconfigureWithIndex MAXDEPTH "depth" u).2 =
       Some (Request "cartesian" "sphere" (depth_key u) (depth_key u + 1))) ∧
  (∀ (s : state Q) p e rest n m,
     valid p = true →
     seek has_depth_and_type (document p) = e :: rest →
     attribute "type" e = "sphere" →
     stoi (attribute "depth" e) = Some n →
     (if nonempty (attribute "render-depth" e)
      then stoi (attribute "render-depth" e) else Some n) = Some m →
     ∃ r,
       (model_request (s, p)).2 = Return (Some r) ∧ type r = "sphere" ∧ dims r = n ∧
       (m ≠ 0%Z → rdims r = m) ∧
       (m = 0%Z → (n < INT_MAX)%Z → rdims r = (n + 1)%Z)).
Proof.
  intros Hmax. split; [| split].
  - intros index u Hindex Hmodel.
    destruct (reconfigure_sphere MAXDEPTH index u Hmax Hindex Hmodel)
      as (u' & r & Hrun & Htype & _ & Hlt & _).
    exists u', r. auto.
  - intros [model d rd] Hmodel Hd Hrd. simpl in *. subst model.
    unfold reconfigureWithIndex, updateModel, is_model. simpl.
    repeat split; compare_settings; simpl in *; try lia;
      rewrite ?wrap_NSInteger_small in * by lia;
      compare_settings; simpl in *; try lia;
      rewrite ?wrap_NSInteger_small by lia; rewrite ?to_unsigned_int_small by lia;
      repeat f_equal; lia.
  - intros s p e rest n m Hvalid Hseek Htype Hdepth Hrender.
    rewrite (model_request_run s p e rest n m Hvalid Hseek Hdepth Hrender).
    eexists. split; [reflexivity |]. simpl. rewrite Htype. simpl.
    split; [reflexivity |]. split; [reflexivity |]. split.
    + intros Hm. destruct (Z.eqb_spec m 0); [contradiction | reflexivity].
    + intros -> Hn. simpl. apply wrap_int_next.
      pose proof (stoi_range _ _ Hdepth). lia.
Qed.

(** C6 (amended).  On the settings path a plane, a moebius-strip and a
    klein-bagel are always requested with depth 2.  The decode of a file
    passes on the depth it reads (XML: the [depth] attribute; JSON: the
    [depth] member, 4 when it is not a number), whatever the type. *)
Theorem C6_flat_models_depth (MAXDEPTH : Z) :
  (∀ index u model,
     index = "model" ∨ index = "depth" ∨ index = "renderDepth" →
     model_key u = Some model →
     model = "plane" ∨ model = "moebius-strip" ∨ model = "klein-bagel" →
     ∃ u' r,
       reconfigureWithIndex MAXDEPTH index u = (u', Some r) ∧ type r = model ∧
       dims r = 2%Z) ∧
  (∀ (s : state Q) p e rest n m,
     valid p = true →
     seek has_depth_and_type (document p) = e :: rest →
     stoi (attribute "depth" e) = Some n →
     (if nonempty (attribute "render-depth" e)
      then stoi (attribute "render-depth" e) else Some n) = Some m →
     ∃ r,
       (model_request (s, p)).2 = Return (Some r) ∧ type r = attribute "type" e ∧
       dims r = n) ∧
  (∀ value : json Q,
     isObject value = true →
     ∃ r,
       json_model_request value = Some r ∧
       dims r = match member "depth" value with JNumber q => truncate q | _ => 4%Z end).
Proof.
  split; [| split].
  - intros index u model Hindex Hmodel Hflat. unfold reconfigureWithIndex.
    assert (Hsphere : is_model "sphere" u = false).
    { unfold is_model. rewrite Hmodel. destruct Hflat as [-> | [-> | ->]]; reflexivity. }
    rewrite Hsphere. simpl.
    destruct Hindex as [-> | [-> | ->]]; simpl; apply updateModel_flat; assumption.
  - intros s p e rest n m Hvalid Hseek Hdepth Hrender.
    rewrite (model_request_run s p e rest n m Hvalid Hseek Hdepth Hrender).
    eexists. split; [reflexivity |]. split; reflexivity.
  - intros value Hobject. unfold json_model_request. rewrite Hobject. simpl.
    eexists. split; [reflexivity |]. simpl.
    destruct (member "depth" value); reflexivity.
Qed.

(** C7 (amended).  In the XML [parseModel] the render-depth passed to
    dispatch is the one read, when that is not zero; without the attribute it
    is the depth, for every type, unless the depth is zero.  A render-depth
    that reads as zero becomes depth + 1 for a sphere and a moebius-strip, and
    the depth for the types that are not closed.  The JSON [parseModel]
    passes on the member [renderDepth], and 4 when it is not a number. *)
Theorem C7_render_depth_default (s : state Q) (p : parser) (e : element)
    (rest : list element) (n m : Z) :
  valid p = true →
  seek has_depth_and_type (document p) = e :: rest →
  stoi (attribute "depth" e) = Some n →
  (if nonempty (attribute "render-depth" e)
   then stoi (attribute "render-depth" e) else Some n) = Some m →
  (∃ r,
     (model_request (s, p)).2 = Return (Some r) ∧ type r = attribute "type" e ∧
     dims r = n ∧
     (m ≠ 0%Z → rdims r = m) ∧
     (attribute "render-depth" e = EmptyString → n ≠ 0%Z → rdims r = n) ∧
     (m = 0%Z → type r = "sphere" ∨ type r = "moebius-strip" → (n < INT_MAX)%Z →
      rdims r = (n + 1)%Z) ∧
     (m = 0%Z → type r ≠ "sphere" → type r ≠ "moebius-strip" → type r ≠ "klein-bagel" →
      type r ≠ "klein-bagle" → rdims r = n)) ∧
  (∀ value : json Q,
     isObject value = true →
     ∃ r,
       json_model_request value = Some r ∧
       rdims r =
         match member "renderDepth" value with JNumber q => truncate q | _ => 4%Z end).
Proof.
  intros Hvalid Hseek Hdepth Hrender. split.
  - rewrite (model_request_run s p e rest n m Hvalid Hseek Hdepth Hrender).
    eexists. split; [reflexivity |]. simpl.
    split; [reflexivity |]. split; [reflexivity |].
    split; [| split; [| split]].
    + intros Hm. destruct (Z.eqb_spec m 0); [contradiction | reflexivity].
    + intros Hnone Hn. rewrite Hnone in Hrender. simpl in Hrender.
      injection Hrender as <-. destruct (Z.eqb_spec n 0); [contradiction | reflexivity].
    + intros -> Hclosed Hn. simpl.
      assert (Hc : closed_topology (attribute "type" e) = true).
      { unfold closed_topology. destruct Hclosed as [-> | ->]; reflexivity. }
      rewrite Hc. apply wrap_int_next. pose proof (stoi_range _ _ Hdepth). lia.
    + intros -> Hs Hm _ Hk. simpl.
      assert (Hc : closed_topology (attribute "type" e) = false).
      { unfold closed_topology.
        destruct (String.eqb_spec (attribute "type" e) "sphere"); [contradiction |].
        destruct (String.eqb_spec (attribute "type" e) "moebius-strip"); [contradiction |].
        destruct (String.eqb_spec (attribute "type" e) "klein-bagle"); [contradiction |].
        reflexivity. }
      rewrite Hc. reflexivity.
  - intros value Hobject. unfold json_model_request. rewrite Hobject. simpl.
    eexists. split; [reflexivity |]. simpl.
    destruct (member "renderDepth" value); reflexivity.
Qed.

End DepthPolicy.

(** ** C1: decoding what [metadata()] wrote *)
Section AttributeLookup.

(** Attributes written by a loop: [g] names them, [h] gives their values. *)
Lemma lookup_attribute_written (g h : nat → string) (l : list nat) (i : nat) :
  (∀ j, j ∈ l → g j = g i → j = i) → i ∈ l →
  lookup_attribute (g i) ((λ j, (g j, h j)) <$> l) = Some (h i).
Proof.
  induction l as [| j l IH]; intros Hinj Hin; [by apply elem_of_nil in Hin |].
  simpl. destruct (String.eqb_spec (g j) (g i)) as [Heq | Hne].
  - rewrite (Hinj j (list_elem_of_here _ _) Heq). reflexivity.
  - apply IH.
    + intros j' Hj'. apply Hinj. by apply list_elem_of_further.
    + apply elem_of_cons in Hin as [-> | Hin]; [contradiction | exact Hin].
Qed.

Lemma lookup_attribute_missing (g h : nat → string) (l : list nat) (name : string) :
  (∀ j, j ∈ l → g j ≠ name) → lookup_attribute name ((λ j, (g j, h j)) <$> l) = None.
Proof.
  induction l as [| j l IH]; intros Hne; [reflexivity |].
  simpl. destruct (String.eqb_spec (g j) name) as [Heq | _].
  - exfalso. exact (Hne j (list_elem_of_here _ _) Heq).
  - apply IH. intros j' Hj'. apply Hne. by apply list_elem_of_further.
Qed.

Lemma lookup_attribute_cons (name k v : string) (l : list (string * string)) :
  lookup_attribute name ((k, v) :: l) =
    if String.eqb k name then Some v else lookup_attribute name l.
Proof. reflexivity. Qed.

Lemma theta_inj (i j : nat) : "theta-" +:+ pretty i = "theta-" +:+ pretty j → i = j.
Proof. intros Heq. apply (inj pretty). by simplify_eq/=. Qed.

(** The 52 letters of [cartesianDimensions] are pairwise different. *)
Lemma letters_differ (i j : nat) : i < 52 → j < 52 → letter i = letter j → i = j.
Proof.
  intros Hi Hj Heq.
  assert (Hall : forallb (λ a, forallb (λ b,
            implb (Ascii.eqb (letter a) (letter b)) (a =? b)) (seq 0 52)) (seq 0 52) = true)
    by (vm_compute; reflexivity).
  rewrite forallb_forall in Hall.
  specialize (Hall i). rewrite forallb_forall in Hall.
  assert (Hq : implb (Ascii.eqb (letter i) (letter j)) (i =? j) = true).
  { apply Hall; apply in_seq; lia. }
  rewrite Heq, Ascii.eqb_refl in Hq. simpl in Hq. by apply Nat.eqb_eq.
Qed.

Lemma axis_name_letter (i : nat) : i < 52 → axis_name i = String (letter i) EmptyString.
Proof.
  intros Hi. unfold axis_name, sizeof_cartesianDimensions.
  destruct (Nat.ltb_spec i 53); [reflexivity | lia].
Qed.

Lemma axis_name_inj (i j : nat) : i < 52 → j < 52 → axis_name i = axis_name j → i = j.
Proof.
  intros Hi Hj. rewrite !axis_name_letter by assumption. intros Heq.
  apply letters_differ; [assumption .. | congruence].
Qed.

Lemma get_letter (i : nat) : i < 52 → String.get i cartesianDimensions = Some (letter i).
Proof.
  intros Hi. unfold letter.
  assert (Hall : forallb (λ a, bool_decide (is_Some (String.get a cartesianDimensions)))
                   (seq 0 52) = true) by (vm_compute; reflexivity).
  rewrite forallb_forall in Hall.
  assert (Hs : is_Some (String.get i cartesianDimensions)).
  { apply (bool_decide_eq_true_1 _). apply Hall. apply in_seq. lia. }
  destruct Hs as [c ->]. reflexivity.
Qed.

End AttributeLookup.

Section VectorUpdates.
Context {A : Type}.

Lemma foldl_insert_seq (q : nat → A) (n : nat) :
  ∀ (a : nat) (v : list A),
    a + n ≤ length v →
    foldl (λ v i, <[i := q i]> v) v (seq a n) = take a v ++ (q <$> seq a n) ++ drop (a + n) v.
Proof.
  induction n as [| n IH]; intros a v Hlen; simpl.
  - rewrite Nat.add_0_r. symmetry. apply take_drop.
  - rewrite IH by (rewrite length_insert; lia).
    rewrite (take_S_r _ _ (q a)) by (apply list_lookup_insert_eq; lia).
    rewrite take_insert_ge by lia. rewrite drop_insert_lt by lia.
    rewrite <- app_assoc. simpl. repeat f_equal. lia.
Qed.

Lemma foldl_insert_all (q : nat → A) (v : list A) :
  foldl (λ v i, <[i := q i]> v) v (seq 0 (length v)) = q <$> seq 0 (length v).
Proof.
  rewrite foldl_insert_seq by lia. simpl. rewrite drop_all. apply app_nil_r.
Qed.

Lemma fmap_seq_lookup {B} (f : A → B) (x0 : A) (v : list A) :
  (λ i, f (default x0 (v !! i))) <$> seq 0 (length v) = f <$> v.
Proof.
  apply list_eq. intros i. rewrite !list_lookup_fmap.
  destruct (decide (i < length v)) as [Hlt | Hge].
  - rewrite lookup_seq_lt by exact Hlt. simpl.
    destruct (lookup_lt_is_Some_2 v i Hlt) as [x ->]. reflexivity.
  - rewrite lookup_seq_ge by lia. rewrite lookup_ge_None_2 by lia. reflexivity.
Qed.

End VectorUpdates.

Section CameraFragment.
Context {Q : Type} `{!Scalar Q} `{!XPath}.

Lemma camera_fragment_count (k : nat) (polar : bool) (l : level Q) :
  1 ≤ k → length (attributes (camera_fragment k polar l)) = k.
Proof.
  intros Hk. unfold camera_fragment. destruct polar; simpl.
  - rewrite length_fmap, length_seq. lia.
  - rewrite length_fmap, length_seq. reflexivity.
Qed.

Lemma polar_radius (k : nat) (l : level Q) :
  attribute "radius" (camera_fragment k true l) = show (component 0 (fromp l)).
Proof. reflexivity. Qed.

Lemma polar_theta (k i : nat) (l : level Q) :
  1 ≤ i < k →
  attribute ("theta-" +:+ pretty i) (camera_fragment k true l) = show (component i (fromp l)).
Proof.
  intros Hi. unfold attribute, camera_fragment. simpl.
  rewrite (lookup_attribute_written (λ j, "theta-" +:+ pretty j)
             (λ j, show (component j (fromp l)))).
  - reflexivity.
  - intros j _ Heq. apply theta_inj, Heq.
  - apply elem_of_seq. lia.
Qed.

Lemma cartesian_missing (k : nat) (l : level Q) (name : string) :
  k ≤ 52 → (∀ c, name ≠ String c EmptyString) →
  lookup_attribute name (attributes (camera_fragment k false l)) = None.
Proof.
  intros Hk Hname. unfold camera_fragment. simpl.
  apply (lookup_attribute_missing axis_name (λ j, show (component j (from l)))).
  intros j Hj Heq. apply elem_of_seq in Hj.
  rewrite axis_name_letter in Heq by lia. exact (Hname _ (eq_sym Heq)).
Qed.

Lemma cartesian_letter (k i : nat) (l : level Q) :
  k ≤ 52 → i < k →
  attribute (String (letter i) EmptyString) (camera_fragment k false l) = show (component i (from l)).
Proof.
  intros Hk Hi. unfold attribute, camera_fragment. simpl.
  rewrite <- (axis_name_letter i) by lia.
  rewrite (lookup_attribute_written axis_name (λ j, show (component j (from l)))).
  - reflexivity.
  - intros j Hj Heq. apply elem_of_seq in Hj. apply axis_name_inj; [lia .. | exact Heq].
  - apply elem_of_seq. lia.
Qed.

Lemma polar_missing (k : nat) (l : level Q) (name : string) :
  name ≠ "radius" → (∀ j : nat, name ≠ "theta-" +:+ pretty j) →
  lookup_attribute name (attributes (camera_fragment k true l)) = None.
Proof.
  intros Hr Ht. unfold camera_fragment. cbn [attributes]. rewrite lookup_attribute_cons.
  destruct (String.eqb_spec "radius" name) as [Heq | _]; [by rewrite Heq in Hr |].
  apply (lookup_attribute_missing (λ j, "theta-" +:+ pretty j)
           (λ j, show (component j (fromp l)))).
  intros j _ Heq. exact (Ht j (eq_sym Heq)).
Qed.

Variable back : Q → Q.

Lemma assign_reads_back (q : Q) (set : Q → state Q → state Q) (w : state Q * parser) :
  reads_back back q → assign (show q) set w = ((set (back q) w.1, w.2), Return tt).
Proof. intros [_ Hread]. unfold assign. rewrite Hread. reflexivity. Qed.

Lemma ask_here (name : string) (t : state Q) (ok : bool) (doc : list element)
    (e : element) (rest : list element) :
  ask (evaluate_here name) (t, Parser ok doc (e :: rest)) =
    ((t, Parser ok doc (e :: rest)), Return (attribute name e)).
Proof. reflexivity. Qed.

(** One round of the camera loop on the fragment of a polar camera. *)
Lemma camera_axis_polar (k i : nat) (l : level Q) (rest : list element) (t : state Q)
    (ok : bool) (doc : list element) :
  i < k → reads_back back (component i (fromp l)) →
  camera_axis k i (t, Parser ok doc (camera_fragment k true l :: rest)) =
    ((assign_fromp k i (back (component i (fromp l))) t,
      Parser ok doc (camera_fragment k true l :: rest)), Return tt).
Proof.
  intros Hi Hread. unfold camera_axis. destruct i as [| i].
  - change (0 =? 0) with true. cbv iota. rewrite bind_run, ask_here. cbv beta iota.
    rewrite polar_radius, (proj1 Hread). exact (assign_reads_back _ _ (t, Parser ok doc _) Hread).
  - change (S i =? 0) with false. cbv iota. rewrite bind_run. unfold ret at 1.
    cbv beta iota. change (nonempty EmptyString) with false. cbv iota.
    rewrite bind_run, ask_here. cbv beta iota.
    rewrite polar_theta by lia. rewrite (proj1 Hread).
    exact (assign_reads_back _ _ (t, Parser ok doc _) Hread).
Qed.

(** One round of the camera loop on the fragment of a cartesian camera. *)
Lemma camera_axis_cartesian (k i : nat) (l : level Q) (rest : list element) (t : state Q)
    (ok : bool) (doc : list element) :
  k ≤ 52 → i < k → reads_back back (component i (from l)) →
  camera_axis k i (t, Parser ok doc (camera_fragment k false l :: rest)) =
    ((assign_from k i (back (component i (from l))) t,
      Parser ok doc (camera_fragment k false l :: rest)), Return tt).
Proof.
  intros Hk Hi Hread. unfold camera_axis.
  assert (Hradius : attribute "radius" (camera_fragment k false l) = EmptyString).
  { unfold attribute. rewrite cartesian_missing; [reflexivity | exact Hk |]. discriminate. }
  assert (Htheta : attribute ("theta-" +:+ pretty i) (camera_fragment k false l) = EmptyString).
  { unfold attribute. rewrite cartesian_missing; [reflexivity | exact Hk |]. discriminate. }
  rewrite bind_run.
  assert (Hfirst :
    (if i =? 0 then ask (evaluate_here "radius") else ret (Q:=Q) EmptyString)
      (t, Parser ok doc (camera_fragment k false l :: rest))
    = ((t, Parser ok doc (camera_fragment k false l :: rest)), Return EmptyString)).
  { destruct (i =? 0); [| reflexivity]. rewrite ask_here, Hradius. reflexivity. }
  rewrite Hfirst. cbv beta iota. change (nonempty EmptyString) with false. cbv iota.
  rewrite bind_run, ask_here. cbv beta iota. rewrite Htheta.
  change (nonempty EmptyString) with false. cbv iota.
  unfold sizeof_cartesianDimensions.
  destruct (Nat.ltb_spec i 53) as [_ | Hge]; [| lia].
  rewrite get_letter by lia.
  rewrite bind_run, ask_here. cbv beta iota.
  rewrite cartesian_letter by lia. rewrite (proj1 Hread).
  exact (assign_reads_back _ _ (t, Parser ok doc _) Hread).
Qed.

Lemma for_each_run (g : nat → state Q → state Q) (body : nat → M Q unit) (p : parser)
    (l : list nat) :
  (∀ i t, i ∈ l → body i (t, p) = ((g i t, p), Return tt)) →
  ∀ t, for_each l body (t, p) = ((foldl (λ t i, g i t) t l, p), Return tt).
Proof.
  induction l as [| i l IH]; intros Hbody t; simpl; [reflexivity |].
  rewrite bind_run, Hbody by apply list_elem_of_here.
  apply IH. intros j t' Hj. apply Hbody. by apply list_elem_of_further.
Qed.

End CameraFragment.

Section WrittenDocument.
Context {Q : Type} `{!Scalar Q} `{!XPath}.

Lemma well_formed_level (d k : nat) (s : state Q) (l : level Q) :
  well_formed d s = true → level_of k s = Some l →
  length (fromp l) = k ∧ length (from l) = k.
Proof.
  unfold well_formed, level_of. intros Hwf Hl.
  apply andb_prop in Hwf as [_ Hall]. rewrite forallb_forall in Hall.
  destruct (Nat.ltb_spec k 2) as [| Hk]; [discriminate |].
  specialize (Hall (k - 2, l)). simpl in Hall.
  assert (Hin : In (k - 2, l) (imap pair (levels s))).
  { apply list_elem_of_In, list_elem_of_lookup. exists (k - 2).
    rewrite list_lookup_imap, Hl. reflexivity. }
  apply Hall, andb_prop in Hin as [H1 H2].
  apply Nat.eqb_eq in H1, H2. lia.
Qed.

Lemma well_formed_has_level (d k : nat) (s : state Q) :
  well_formed d s = true → 2 ≤ k ≤ d → is_Some (level_of k s).
Proof.
  unfold well_formed, level_of. intros Hwf Hk.
  apply andb_prop in Hwf as [Hwf _]. apply andb_prop in Hwf as [_ Hlen].
  apply Nat.eqb_eq in Hlen.
  destruct (Nat.ltb_spec k 2); [lia |]. apply lookup_lt_is_Some. lia.
Qed.

Lemma metadata_succ (n : nat) (s : state Q) :
  metadata (S (S (S n))) s =
    match level_of (S (S (S n))) s with
    | Some l => camera_fragment (S (S (S n))) (polarCoordinates s) l :: metadata (S (S n)) s
    | None => metadata (S (S n)) s
    end.
Proof. reflexivity. Qed.

(** A property of every element that [metadata()] writes follows from the
    property for the camera fragments and for the fragment of the base. *)
Lemma metadata_Forall (P : element → Prop) (j : nat) (s : state Q) :
  (∀ k l, 3 ≤ k ≤ j → P (camera_fragment k (polarCoordinates s) l)) →
  Forall P (metadata_base s) →
  Forall P (metadata j s).
Proof.
  intros Hfrag Hbase. induction j as [| j IH]; [exact Hbase |].
  destruct j as [| [| n]]; [exact Hbase | exact Hbase |].
  rewrite metadata_succ.
  assert (Hrest : Forall P (metadata (S (S n)) s)).
  { apply IH. intros k l Hk. apply Hfrag. lia. }
  destruct (level_of (S (S (S n))) s); [| exact Hrest].
  constructor; [apply Hfrag; lia | exact Hrest].
Qed.

Lemma base_Forall (P : element → Prop) (s : state Q) :
  (∀ a, P (Element "camera" a)) → (∀ a, P (Element "model" a)) →
  (∀ a, P (Element "options" a)) → (∀ a, P (Element "precision" a)) →
  (∀ a, P (Element "colour-background" a)) → (∀ a, P (Element "colour-wireframe" a)) →
  (∀ a, P (Element "colour-surface" a)) →
  Forall P (metadata_base s).
Proof.
  intros. unfold metadata_base. destruct (model s); simpl; repeat constructor; auto.
Qed.

Lemma metadata_no_camera (j k : nat) (s : state Q) :
  j < k ∨ k < 3 → 2 ≤ k → Forall (λ e, count_is "camera" k e = false) (metadata j s).
Proof.
  intros Hjk Hk. apply metadata_Forall.
  - intros i l Hi. unfold count_is. rewrite camera_fragment_count by lia.
    destruct (Nat.eqb_spec i k); [lia |]. apply andb_false_r.
  - unfold metadata_base. destruct (model s); simpl; repeat constructor;
      unfold count_is; simpl; destruct k as [| [| k]]; try lia; reflexivity.
Qed.

Lemma metadata_no_transformation (j : nat) (s : state Q) :
  Forall (λ e, String.eqb (tag e) "transformation" = false) (metadata j s).
Proof.
  apply metadata_Forall; [reflexivity |]. apply base_Forall; reflexivity.
Qed.

Lemma metadata_no_reset (j k : nat) (s : state Q) :
  Forall (λ e, depth_is "transformation" k e = false) (metadata j s).
Proof.
  eapply Forall_impl; [apply metadata_no_transformation |].
  intros e He. unfold depth_is. rewrite He. reflexivity.
Qed.

Lemma metadata_no_cells (j n : nat) (s : state Q) :
  Forall (λ e, count_is "transformation" n e = false) (metadata j s).
Proof.
  eapply Forall_impl; [apply metadata_no_transformation |].
  intros e He. unfold count_is. rewrite He. reflexivity.
Qed.

(** The attributes that the fix point looks up are found in the fragment of
    the base: the camera fragments in front of it carry none of them. *)
Lemma first_attribute_metadata (j : nat) (s : state Q) (t a : string) :
  j ≤ 52 →
  String.eqb "camera" t = false ∨ a = "mode" →
  first_attribute t a (metadata j s) = first_attribute t a (metadata_base s).
Proof.
  intros Hj Hta. induction j as [| j IH]; [reflexivity |].
  destruct j as [| [| n]]; [reflexivity | reflexivity |].
  rewrite metadata_succ. specialize (IH ltac:(lia)).
  destruct (level_of (S (S (S n))) s) as [l |]; [| exact IH].
  cbn [first_attribute]. change (tag (camera_fragment _ _ _)) with "camera".
  destruct Hta as [Ht | ->].
  - rewrite Ht. exact IH.
  - destruct (String.eqb "camera" t); [| exact IH].
    destruct (polarCoordinates s).
    + rewrite polar_missing; [exact IH | discriminate | discriminate].
    + rewrite cartesian_missing; [exact IH | lia | discriminate].
Qed.

End WrittenDocument.

Section CameraStage.
Context {Q : Type} `{!Scalar Q} `{!XPath}.
Variable back : Q → Q.

Lemma at_level_compose (k : nat) (f g : level Q → level Q) (t : state Q) :
  at_level k f (at_level k g t) = at_level k (f ∘ g) t.
Proof.
  unfold at_level. destruct (k <? 2); [reflexivity |]. unfold set_levels. simpl.
  rewrite list_alter_alter_eq. reflexivity.
Qed.

Lemma at_level_ext (k : nat) (f g : level Q → level Q) (t : state Q) :
  (∀ lv, level_of k t = Some lv → f lv = g lv) → at_level k f t = at_level k g t.
Proof.
  unfold at_level, level_of. destruct (k <? 2); [reflexivity |]. intros Hfg.
  unfold set_levels. f_equal. apply list_alter_ext; [exact Hfg | reflexivity].
Qed.

Lemma at_level_id (k : nat) (t : state Q) : at_level k (λ lv, lv) t = t.
Proof.
  unfold at_level. destruct (k <? 2); [reflexivity |]. unfold set_levels.
  rewrite list_alter_id by reflexivity. destruct t; reflexivity.
Qed.

Lemma foldl_at_level (k : nat) (F : nat → level Q → level Q) (l : list nat) (t : state Q) :
  foldl (λ t i, at_level k (F i) t) t l = at_level k (λ lv, foldl (λ lv i, F i lv) lv l) t.
Proof.
  revert t. induction l as [| i l IH]; intros t; simpl.
  - symmetry. apply at_level_id.
  - rewrite IH, at_level_compose. reflexivity.
Qed.

Lemma foldl_set_fromp (q : nat → Q) (l : list nat) (lv : level Q) :
  foldl (λ lv i, set_fromp (<[i := q i]> (fromp lv)) lv) lv l =
    set_fromp (foldl (λ v i, <[i := q i]> v) (fromp lv) l) lv.
Proof.
  revert lv. induction l as [| i l IH]; intros lv; simpl.
  - destruct lv; reflexivity.
  - rewrite IH. reflexivity.
Qed.

Lemma foldl_set_from (q : nat → Q) (l : list nat) (lv : level Q) :
  foldl (λ lv i, set_from (<[i := q i]> (from lv)) lv) lv l =
    set_from (foldl (λ v i, <[i := q i]> v) (from lv) l) lv.
Proof.
  revert lv. induction l as [| i l IH]; intros lv; simpl.
  - destruct lv; reflexivity.
  - rewrite IH. reflexivity.
Qed.

Lemma reads_back_component (v : list Q) (i : nat) :
  Forall (reads_back back) v → i < length v → reads_back back (component i v).
Proof.
  intros Hall Hi. destruct (lookup_lt_is_Some_2 v i Hi) as [x Hx].
  unfold component. rewrite Hx. simpl.
  rewrite Forall_forall in Hall. apply Hall, list_elem_of_lookup. eauto.
Qed.

(** The camera loop on the fragment written for the members [ls]. *)
Lemma camera_loop (k : nat) (polar : bool) (ls : level Q) (rest : list element)
    (t : state Q) (ok : bool) (doc : list element) :
  k ≤ 52 →
  length (fromp ls) = k → length (from ls) = k →
  Forall (reads_back back) (camera_of polar ls) →
  sized t →
  for_each (seq 0 k) (camera_axis k)
    (t, Parser ok doc (camera_fragment k polar ls :: rest)) =
  ((at_level k (decoded_camera back polar ls) t,
    Parser ok doc (camera_fragment k polar ls :: rest)), Return tt).
Proof.
  intros Hk Hfp Hf Hread Hsized. destruct polar; simpl in Hread.
  - rewrite (for_each_run (λ i, assign_fromp k i (back (component i (fromp ls))))).
    2: { intros i t' Hi. apply elem_of_seq in Hi.
         apply camera_axis_polar; [lia |]. apply reads_back_component; [exact Hread | lia]. }
    f_equal. f_equal. unfold assign_fromp. rewrite foldl_at_level.
    apply at_level_ext. intros lv Hlv. destruct (Hsized k lv Hlv) as [Hlen _].
    rewrite foldl_set_fromp. unfold decoded_camera. f_equal.
    rewrite <- Hlen at 1. rewrite foldl_insert_all. rewrite Hlen, <- Hfp.
    apply (fmap_seq_lookup back).
  - rewrite (for_each_run (λ i, assign_from k i (back (component i (from ls))))).
    2: { intros i t' Hi. apply elem_of_seq in Hi.
         apply camera_axis_cartesian; [exact Hk | lia |].
         apply reads_back_component; [exact Hread | lia]. }
    f_equal. f_equal. unfold assign_from. rewrite foldl_at_level.
    apply at_level_ext. intros lv Hlv. destruct (Hsized k lv Hlv) as [_ Hlen].
    rewrite foldl_set_from. unfold decoded_camera. f_equal.
    rewrite <- Hlen at 1. rewrite foldl_insert_all. rewrite Hlen, <- Hf.
    apply (fmap_seq_lookup back).
Qed.

(** The loop over the cameras of [k] attributes finds the fragment of
    dimension [k] and no other element. *)
Lemma visit_camera (k : nat) (s : state Q) (ls : level Q) (body : M Q unit)
    (t t' : state Q) (ok : bool) (doc : list element) :
  3 ≤ k → level_of k s = Some ls →
  body (t, Parser ok doc (camera_fragment k (polarCoordinates s) ls :: metadata (k - 1) s)) =
    ((t', Parser ok doc (camera_fragment k (polarCoordinates s) ls :: metadata (k - 1) s)),
     Return tt) →
  ∀ j ctx, k ≤ j →
    visit (count_is "camera" k) body (metadata j s) (t, Parser ok doc ctx) =
      ((t', Parser ok doc (camera_fragment k (polarCoordinates s) ls :: metadata (k - 1) s)),
       Return tt).
Proof.
  intros Hk Hls Hbody j. induction j as [| j IH]; intros ctx Hkj; [lia |].
  destruct j as [| [| n]]; [lia | lia |].
  rewrite metadata_succ.
  destruct (decide (k = S (S (S n)))) as [-> | Hne].
  - rewrite Hls. cbn [visit].
    assert (Htest : count_is "camera" (S (S (S n)))
                      (camera_fragment (S (S (S n))) (polarCoordinates s) ls) = true).
    { unfold count_is. rewrite camera_fragment_count by lia.
      rewrite Nat.eqb_refl. reflexivity. }
    rewrite Htest. rewrite bind_run. unfold move_context at 1. cbn [fst snd valid document].
    rewrite bind_run. change (S (S (S n)) - 1) with (S (S n)) in Hbody. rewrite Hbody.
    apply visit_skip. apply metadata_no_camera; lia.
  - specialize (IH ctx ltac:(lia)).
    destruct (level_of (S (S (S n))) s) as [l |]; [| exact IH].
    cbn [visit].
    assert (Htest : count_is "camera" k
                      (camera_fragment (S (S (S n))) (polarCoordinates s) l) = false).
    { unfold count_is. rewrite camera_fragment_count by lia.
      destruct (Nat.eqb_spec (S (S (S n))) k); [lia |]. apply andb_false_r. }
    rewrite Htest. exact IH.
Qed.

End CameraStage.

Section FixPointStage.
Context {Q : Type} `{!Scalar Q} `{!XPath}.
Variable back : Q → Q.

Lemma numeric_reads (tg a : string) (set : Q → state Q → state Q) (q : Q)
    (t : state Q) (p : parser) :
  evaluate_anywhere tg a p = show q → reads_back back q →
  numeric tg a set (t, p) = ((set (back q) t, p), Return tt).
Proof.
  intros Hvalue Hread. unfold numeric. rewrite bind_run. unfold ask. cbv beta iota.
  cbn [snd]. rewrite Hvalue, (proj1 Hread).
  exact (assign_reads_back back _ _ (t, p) Hread).
Qed.

Lemma numeric_absent (tg a : string) (set : Q → state Q → state Q) (w : state Q * parser) :
  evaluate_anywhere tg a w.2 = EmptyString → numeric tg a set w = (w, Return tt).
Proof.
  intros Hvalue. unfold numeric. rewrite bind_run. unfold ask. cbv beta iota.
  rewrite Hvalue. reflexivity.
Qed.

Lemma choice_absent (tg a yes : string) (set : bool → state Q → state Q)
    (w : state Q * parser) :
  evaluate_anywhere tg a w.2 = EmptyString → choice tg a yes set w = (w, Return tt).
Proof.
  intros Hvalue. unfold choice. rewrite bind_run. unfold ask. cbv beta iota.
  rewrite Hvalue. reflexivity.
Qed.

Lemma choice_reads (tg a yes v : string) (set : bool → state Q → state Q)
    (t : state Q) (p : parser) :
  evaluate_anywhere tg a p = v → nonempty v = true →
  choice tg a yes set (t, p) = ((set (String.eqb v yes) t, p), Return tt).
Proof.
  intros Hvalue Hne. unfold choice. rewrite bind_run. unfold ask. cbv beta iota.
  cbn [snd]. rewrite Hvalue, Hne. reflexivity.
Qed.

Lemma evaluate_written (d : nat) (s : state Q) (tg a : string) (ok : bool)
    (ctx : list element) :
  d ≤ 52 → String.eqb "camera" tg = false ∨ a = "mode" →
  evaluate_anywhere tg a (Parser ok (metadata d s) ctx) =
    first_attribute tg a (metadata_base s).
Proof. intros Hd Hta. apply first_attribute_metadata; assumption. Qed.

Lemma printed_reads_back (s : state Q) :
  Forall (reads_back back) (printed s) →
  reads_back back (radius (parameter s)) ∧ reads_back back (precision (parameter s)) ∧
  Forall (reads_back back) (components (background s)) ∧
  Forall (reads_back back) (components (wireframe s)) ∧
  Forall (reads_back back) (components (surface s)) ∧
  Forall (reads_back back) (concat (camera_of (polarCoordinates s) <$> drop 1 (levels s))).
Proof.
  unfold printed. rewrite !Forall_app, !Forall_cons. tauto.
Qed.

Lemma components_read_back (c : colour Q) :
  Forall (reads_back back) (components c) →
  reads_back back (red c) ∧ reads_back back (green c) ∧
  reads_back back (blue c) ∧ reads_back back (alpha c).
Proof. unfold components. rewrite !Forall_cons. tauto. Qed.

(** One assignment of the fix point from a number that [metadata()] wrote. *)
Ltac read_number Hvalue Hbase tg a q :=
  rewrite bind_run, (numeric_reads tg a _ q);
  [| apply Hvalue; [left; reflexivity | apply Hbase; intros [? |]; reflexivity]
   | assumption];
  cbv beta iota.

(** The fix point on what [metadata()] wrote. *)
Lemma parse_fix_point_written (d : nat) (s t : state Q) (ctx : list element) :
  d ≤ 52 → Forall (reads_back back) (printed s) →
  parse_fix_point (t, Parser true (metadata d s) ctx) =
    ((decoded_base back s t, Parser true (metadata d s) ctx), Return true).
Proof.
  intros Hd Hread.
  destruct (printed_reads_back s Hread) as (Hradius & Hprecision & Hbg & Hwf & Hsf & _).
  destruct (components_read_back _ Hbg) as (Hbr & Hbgr & Hbb & Hba).
  destruct (components_read_back _ Hwf) as (Hwr & Hwg & Hwb & Hwa).
  destruct (components_read_back _ Hsf) as (Hsr & Hsg & Hsb & Hsa).
  set (p := Parser true (metadata d s) ctx).
  assert (Hvalue : ∀ tg a v,
            String.eqb "camera" tg = false ∨ a = "mode" →
            first_attribute tg a (metadata_base s) = v → evaluate_anywhere tg a p = v).
  { intros tg a v Hta <-. apply evaluate_written; assumption. }
  assert (Hbase : ∀ tg a v,
            (∀ m, first_attribute tg a
                    (metadata_base (set_model m s)) = v) →
            first_attribute tg a (metadata_base s) = v).
  { intros tg a v Hm. specialize (Hm (model s)). destruct s; exact Hm. }
  unfold parse_fix_point. rewrite bind_run. unfold ask at 1. cbv beta iota.
  change (negb (valid (t, p).2)) with false. cbv iota.
  read_number Hvalue Hbase "precision" "polar" (precision (parameter s)).
  read_number Hvalue Hbase "options" "radius" (radius (parameter s)).
  unfold after_radius. rewrite bind_run.
  rewrite bind_run,
    (choice_reads "camera" "mode" "polar" (if polarCoordinates s then "polar" else "cartesian"));
    [| apply Hvalue; [right; reflexivity | apply Hbase; intros [m |]; reflexivity]
     | destruct (polarCoordinates s); reflexivity].
  cbv beta iota.
  read_number Hvalue Hbase "colour-background" "red" (red (background s)).
  read_number Hvalue Hbase "colour-background" "green" (green (background s)).
  read_number Hvalue Hbase "colour-background" "blue" (blue (background s)).
  read_number Hvalue Hbase "colour-background" "alpha" (alpha (background s)).
  read_number Hvalue Hbase "colour-wireframe" "red" (red (wireframe s)).
  read_number Hvalue Hbase "colour-wireframe" "green" (green (wireframe s)).
  read_number Hvalue Hbase "colour-wireframe" "blue" (blue (wireframe s)).
  read_number Hvalue Hbase "colour-wireframe" "alpha" (alpha (wireframe s)).
  read_number Hvalue Hbase "colour-surface" "red" (red (surface s)).
  read_number Hvalue Hbase "colour-surface" "green" (green (surface s)).
  read_number Hvalue Hbase "colour-surface" "blue" (blue (surface s)).
  read_number Hvalue Hbase "colour-surface" "alpha" (alpha (surface s)).
  repeat
    (rewrite bind_run;
     first
       [ rewrite numeric_absent
           by (apply Hvalue; [left; reflexivity | apply Hbase; intros [m |]; reflexivity])
       | rewrite choice_absent
           by (apply Hvalue; [left; reflexivity | apply Hbase; intros [m |]; reflexivity]) ];
     cbv beta iota).
  rewrite numeric_absent
    by (apply Hvalue; [left; reflexivity | apply Hbase; intros [m |]; reflexivity]).
  cbv beta iota. unfold ret. f_equal. f_equal.
  unfold decoded_base. destruct t as [? ? [] ? [] [] [] ? ?].
  destruct (polarCoordinates s); reflexivity.
Qed.

End FixPointStage.

Section RoundTrip.
Context {Q : Type} `{!Scalar Q} `{!XPath}.
Variable back : Q → Q.

Lemma level_of_at_level (k : nat) (f : level Q → level Q) (t : state Q) :
  level_of k (at_level k f t) = f <$> level_of k t.
Proof.
  unfold level_of, at_level. destruct (k <? 2) eqn:Hk; [reflexivity |].
  simpl. apply list_lookup_alter_eq.
Qed.

Lemma level_of_at_level_ne (k j : nat) (f : level Q → level Q) (t : state Q) :
  k ≠ j → level_of k (at_level j f t) = level_of k t.
Proof. intros Hkj. exact (members_at_level k j f t (Parser true [] []) Hkj). Qed.

Lemma sized_at_level (j : nat) (polar : bool) (ls : level Q) (t : state Q) :
  sized t → length (fromp ls) = j → length (from ls) = j →
  sized (at_level j (decoded_camera back polar ls) t).
Proof.
  intros Hsized Hfp Hf k lt Hk. destruct (decide (k = j)) as [-> | Hkj].
  - rewrite level_of_at_level in Hk. destruct (level_of j t) as [lt0 |] eqn:Hlt0; [| discriminate].
    injection Hk as <-. destruct (Hsized j lt0 Hlt0) as [H1 H2].
    unfold decoded_camera. destruct polar; simpl; rewrite ?length_fmap; auto.
  - rewrite level_of_at_level_ne in Hk by exact Hkj. apply Hsized, Hk.
Qed.

Lemma well_formed_sized (d : nat) (t : state Q) : well_formed d t = true → sized t.
Proof. intros Hwf k lt Hk. apply (well_formed_level d k t lt Hwf Hk). Qed.

Lemma camera_reads_back (k : nat) (s : state Q) (ls : level Q) :
  3 ≤ k → level_of k s = Some ls →
  Forall (reads_back back) (printed s) →
  Forall (reads_back back) (camera_of (polarCoordinates s) ls).
Proof.
  intros Hk Hls Hread.
  destruct (printed_reads_back back s Hread) as (_ & _ & _ & _ & _ & Hcameras).
  rewrite Forall_concat, Forall_fmap in Hcameras.
  rewrite Forall_lookup in Hcameras. apply (Hcameras (k - 3)).
  unfold level_of in Hls. destruct (Nat.ltb_spec k 2); [lia |].
  rewrite lookup_drop. replace (1 + (k - 3)) with (k - 2) by lia. exact Hls.
Qed.

Lemma skip_run (test : element → bool) (body : M Q unit) (t : state Q) (p : parser) :
  Forall (λ e, test e = false) (document p) →
  bind (ask document) (λ doc, visit test body doc) (t, p) = ((t, p), Return tt).
Proof.
  intros Hnone. rewrite bind_run. unfold ask. cbv beta iota.
  apply visit_skip, Hnone.
Qed.

(** The camera stage of dimension [k] on what [metadata()] wrote. *)
Lemma camera_written (d k : nat) (s t : state Q) (ls : level Q) (ctx : list element) :
  d ≤ 52 → 3 ≤ k ≤ d → well_formed d s = true → level_of k s = Some ls →
  Forall (reads_back back) (printed s) → sized t →
  camera k (t, Parser true (metadata d s) ctx) =
    ((at_level k (decoded_camera back (polarCoordinates s) ls) t,
      Parser true (metadata d s)
        (camera_fragment k (polarCoordinates s) ls :: metadata (k - 1) s)),
     Return tt).
Proof.
  intros Hd Hk Hwf Hls Hread Hsized. unfold camera.
  rewrite bind_run. unfold ask. cbv beta iota. cbn [snd document].
  destruct (well_formed_level d k s ls Hwf Hls) as [Hfp Hf].
  apply (visit_camera k s ls); [lia | exact Hls | | lia].
  apply camera_loop; try assumption; [lia |].
  apply (camera_reads_back k s ls); [lia | assumption ..].
Qed.

(** The decoder on what [metadata()] wrote. *)
Lemma parse_written (d : nat) (s : state Q) :
  d ≤ 52 → well_formed d s = true → Forall (reads_back back) (printed s) →
  ∀ j t ctx, j ≤ d → sized t →
    ∃ ctx',
      parse j (t, Parser true (metadata d s) ctx) =
        ((decoded back s j t, Parser true (metadata d s) ctx'), Return true).
Proof.
  intros Hd Hwf Hread. induction j as [| j IH]; intros t ctx Hj Hsized.
  { exists ctx. apply parse_fix_point_written; assumption. }
  destruct j as [| [| n]].
  { exists ctx. apply parse_fix_point_written; assumption. }
  - change (parse 2) with
      (bind (ask valid) (λ ok : bool,
         if negb ok then ret false
         else bind (camera 2) (λ _, bind (identity_reset 2) (λ _,
                bind (cells 2) (λ _, parse (Q:=Q) 1))))).
    rewrite bind_run. unfold ask at 1. cbv beta iota.
    change (negb (valid (t, Parser true (metadata d s) ctx).2)) with false. cbv iota.
    rewrite bind_run. unfold camera.
    rewrite skip_run by (apply metadata_no_camera; lia). cbv beta iota.
    rewrite bind_run. unfold identity_reset.
    rewrite skip_run by apply metadata_no_reset. cbv beta iota.
    rewrite bind_run. unfold cells.
    rewrite skip_run by apply metadata_no_cells. cbv beta iota.
    apply (IH t ctx); [lia | exact Hsized].
  - destruct (well_formed_has_level d (S (S (S n))) s Hwf ltac:(lia)) as [ls Hls].
    destruct (well_formed_level d _ s ls Hwf Hls) as [Hfp Hf].
    change (parse (S (S (S n)))) with
      (bind (ask valid) (λ ok : bool,
         if negb ok then ret false
         else bind (camera (S (S (S n)))) (λ _, bind (identity_reset (S (S (S n)))) (λ _,
                bind (cells (S (S (S n)))) (λ _, parse (Q:=Q) (S (S n))))))).
    rewrite bind_run. unfold ask at 1. cbv beta iota.
    change (negb (valid (t, Parser true (metadata d s) ctx).2)) with false. cbv iota.
    rewrite bind_run.
    rewrite (camera_written d (S (S (S n))) s t ls ctx) by (assumption || lia).
    cbv beta iota.
    rewrite bind_run. unfold identity_reset.
    rewrite skip_run by apply metadata_no_reset. cbv beta iota.
    rewrite bind_run. unfold cells.
    rewrite skip_run by apply metadata_no_cells. cbv beta iota.
    change (decoded back s (S (S (S n))) t) with
      (decoded back s (S (S n))
         match level_of (S (S (S n))) s with
         | Some ls => at_level (S (S (S n))) (decoded_camera back (polarCoordinates s) ls) t
         | None => t
         end).
    rewrite Hls. apply IH; [lia |]. apply sized_at_level; assumption.
Qed.

(** What [decoded] leaves of the target outside of the camera vectors. *)
Lemma decoded_shared (s : state Q) (j : nat) (t : state Q) :
  shared (decoded back s j t, Parser true [] []) =
  shared (decoded_base back s t, Parser true [] []).
Proof.
  revert t. induction j as [| j IH]; intros t; [reflexivity |].
  destruct j as [| [| n]]; [reflexivity | reflexivity |].
  change (decoded back s (S (S (S n))) t) with
    (decoded back s (S (S n))
       match level_of (S (S (S n))) s with
       | Some ls => at_level (S (S (S n))) (decoded_camera back (polarCoordinates s) ls) t
       | None => t
       end).
  rewrite IH. destruct (level_of (S (S (S n))) s); [| reflexivity].
  unfold at_level. simpl. reflexivity.
Qed.

Lemma decoded_level (s : state Q) (j k : nat) (t : state Q) :
  level_of k (decoded back s j t) =
    if bool_decide (3 ≤ k ≤ j)
    then match level_of k s with
         | Some ls => decoded_camera back (polarCoordinates s) ls <$> level_of k t
         | None => level_of k t
         end
    else level_of k t.
Proof.
  revert t. induction j as [| j IH]; intros t.
  { rewrite bool_decide_eq_false_2 by lia. reflexivity. }
  destruct j as [| [| n]].
  { rewrite bool_decide_eq_false_2 by lia. reflexivity. }
  { rewrite bool_decide_eq_false_2 by lia. reflexivity. }
  change (decoded back s (S (S (S n))) t) with
    (decoded back s (S (S n))
       match level_of (S (S (S n))) s with
       | Some ls => at_level (S (S (S n))) (decoded_camera back (polarCoordinates s) ls) t
       | None => t
       end).
  rewrite IH. destruct (decide (k = S (S (S n)))) as [-> | Hne].
  - rewrite bool_decide_eq_false_2 by lia. rewrite bool_decide_eq_true_2 by lia.
    destruct (level_of (S (S (S n))) s); [| reflexivity]. apply level_of_at_level.
  - assert (Hsame : level_of k
              match level_of (S (S (S n))) s with
              | Some ls =>
                  at_level (S (S (S n))) (decoded_camera back (polarCoordinates s) ls) t
              | None => t
              end = level_of k t).
    { destruct (level_of (S (S (S n))) s); [| reflexivity].
      apply level_of_at_level_ne, Hne. }
    rewrite Hsame.
    destruct (decide (3 ≤ k ≤ S (S n))).
    + rewrite !bool_decide_eq_true_2 by lia. reflexivity.
    + rewrite !bool_decide_eq_false_2 by lia. reflexivity.
Qed.

End RoundTrip.

(** [std::stoi] on the numerals that [operator<<] prints for an unsigned
    depth, followed by the letter of the unit. *)
Section PrintedDepth.

Lemma digit_pretty_N_char (r : N) : (r < 10)%N → digit (pretty_N_char r) = Some (Z.of_N r).
Proof.
  intros Hr.
  assert (Hcases : (r = 0 ∨ r = 1 ∨ r = 2 ∨ r = 3 ∨ r = 4 ∨ r = 5 ∨ r = 6 ∨ r = 7 ∨ r = 8
                    ∨ r = 9)%N) by lia.
  destruct Hcases as [-> | [-> | [-> | [-> | [-> | [-> | [-> | [-> | [-> | ->]]]]]]]]];
    reflexivity.
Qed.

Lemma digits_pretty_N_go (x : N) :
  (0 < x)%N → ∀ s, digits (pretty_N_go x s) None = digits s (Some (Z.of_N x)).
Proof.
  induction (N.lt_wf_0 x) as [x _ IH]. intros Hx s.
  rewrite pretty_N_go_step by exact Hx.
  assert (Hr : (x `mod` 10 < 10)%N) by (apply N.mod_lt; lia).
  destruct (decide (x `div` 10 = 0)%N) as [Hsmall | Hlarge].
  - rewrite Hsmall, pretty_N_go_0. cbn [digits].
    rewrite digit_pretty_N_char by exact Hr. simpl default. f_equal. f_equal.
    pose proof (N.div_mod x 10 ltac:(lia)). lia.
  - rewrite IH; [| apply N.div_lt; lia | apply N.neq_0_lt_0, Hlarge]. cbn [digits].
    rewrite digit_pretty_N_char by exact Hr. simpl default. f_equal. f_equal.
    pose proof (N.div_mod x 10 ltac:(lia)). lia.
Qed.

Lemma pretty_N_go_head (x : N) :
  (0 < x)%N → ∀ s, ∃ r rest, (r < 10)%N ∧ pretty_N_go x s = String (pretty_N_char r) rest.
Proof.
  induction (N.lt_wf_0 x) as [x _ IH]. intros Hx s.
  rewrite pretty_N_go_step by exact Hx.
  destruct (decide (x `div` 10 = 0)%N) as [Hsmall | Hlarge].
  - rewrite Hsmall, pretty_N_go_0. eexists _, _. split; [| reflexivity]. apply N.mod_lt. lia.
  - apply IH; [apply N.div_lt; lia | apply N.neq_0_lt_0, Hlarge].
Qed.

Lemma pretty_N_go_app (x : N) (s t : string) :
  pretty_N_go x s +:+ t = pretty_N_go x (s +:+ t).
Proof.
  revert s. induction (N.lt_wf_0 x) as [x _ IH]. intros s.
  destruct (decide (x = 0)%N) as [-> | Hx]; [reflexivity |].
  assert (Hpos : (0 < x)%N) by apply N.neq_0_lt_0, Hx.
  rewrite (pretty_N_go_step x s), (pretty_N_go_step x (s +:+ t)) by exact Hpos.
  rewrite IH by (apply N.div_lt; lia). reflexivity.
Qed.

Lemma stoi_numeral (r : N) (rest : string) :
  (r < 10)%N →
  stoi (String (pretty_N_char r) rest) =
    match digits (String (pretty_N_char r) rest) None with
    | None => None
    | Some n => if ((INT_MIN <=? n) && (n <=? INT_MAX))%Z then Some n else None
    end.
Proof.
  intros Hr.
  assert (Hcases : (r = 0 ∨ r = 1 ∨ r = 2 ∨ r = 3 ∨ r = 4 ∨ r = 5 ∨ r = 6 ∨ r = 7 ∨ r = 8
                    ∨ r = 9)%N) by lia.
  destruct Hcases as [-> | [-> | [-> | [-> | [-> | [-> | [-> | [-> | [-> | ->]]]]]]]]];
    reflexivity.
Qed.

Lemma stoi_printed_depth (z : Z) :
  (0 ≤ z ≤ INT_MAX)%Z → stoi (pretty z +:+ "D") = Some z.
Proof.
  intros Hz. destruct z as [| x | x]; [reflexivity | | lia].
  change (pretty (Z.pos x)) with (pretty_N_go (N.pos x) EmptyString).
  rewrite pretty_N_go_app. change (EmptyString +:+ "D") with "D".
  destruct (pretty_N_go_head (N.pos x) ltac:(lia) "D") as (r & rest & Hr & Hhead).
  rewrite Hhead, stoi_numeral by exact Hr. rewrite <- Hhead.
  rewrite digits_pretty_N_go by lia.
  change (digits "D" (Some (Z.of_N (N.pos x)))) with (Some (Z.of_N (N.pos x))). cbv iota.
  change (Z.of_N (N.pos x)) with (Z.pos x).
  destruct (Z.leb_spec INT_MIN (Z.pos x)) as [_ | Hlow]; [| unfold INT_MIN in Hlow; lia].
  destruct (Z.leb_spec (Z.pos x) INT_MAX) as [_ | Hhigh]; [reflexivity | lia].
Qed.

Lemma nonempty_printed_depth (z : Z) : nonempty (pretty z +:+ "D") = true.
Proof. unfold nonempty. destruct (pretty z); reflexivity. Qed.

End PrintedDepth.

Section WrittenModel.
Context {Q : Type} `{!Scalar Q} `{!XPath}.

Lemma seek_metadata (test : element → bool) (j : nat) (s : state Q) :
  (∀ k polar l, test (camera_fragment k polar l) = false) →
  seek test (metadata j s) = seek test (metadata_base s).
Proof.
  intros Hfragment. induction j as [| j IH]; [reflexivity |].
  destruct j as [| [| n]]; [reflexivity | reflexivity |].
  rewrite metadata_succ. destruct (level_of (S (S (S n))) s) as [l |]; [| exact IH].
  cbn [seek]. rewrite Hfragment. exact IH.
Qed.

(** [parseModel] on what [metadata()] wrote for a bound renderer. *)
Lemma model_request_written (d : nat) (s t : state Q) (m : renderer) :
  d ≤ 52 → model s = Some m →
  (0 ≤ depth m ≤ INT_MAX)%Z → (0 < renderDepth m ≤ INT_MAX)%Z →
  (model_request (t, parser_of (metadata d s))).2 =
    Return (Some (Request "cartesian" (id m) (depth m) (renderDepth m))).
Proof.
  intros Hd Hm Hdepth Hrender.
  set (e := Element "model" [("type", id m); ("depth", pretty (depth m) +:+ "D");
                             ("render-depth", pretty (renderDepth m) +:+ "D")]).
  assert (Hseek : ∃ rest, seek has_depth_and_type (document (parser_of (metadata d s)))
                          = e :: rest).
  { cbn [parser_of document]. rewrite seek_metadata by reflexivity.
    unfold metadata_base. rewrite Hm. eexists. reflexivity. }
  destruct Hseek as [rest Hseek].
  rewrite (model_request_run t (parser_of (metadata d s)) e rest (depth m) (renderDepth m)).
  - cbn [snd]. unfold parser_of.
    rewrite evaluate_written by (first [exact Hd | left; reflexivity]).
    assert (Hformat : first_attribute "coordinates" "format" (metadata_base s) = EmptyString).
    { unfold metadata_base. rewrite Hm. reflexivity. }
    rewrite Hformat. change (nonempty EmptyString) with false. cbv iota.
    destruct (Z.eqb_spec (renderDepth m) 0); [lia | reflexivity].
  - reflexivity.
  - exact Hseek.
  - apply stoi_printed_depth, Hdepth.
  - change (attribute "render-depth" e) with (pretty (renderDepth m) +:+ "D").
    rewrite nonempty_printed_depth. apply stoi_printed_depth. lia.
Qed.

End WrittenModel.

Section RoundTripTheorem.
Context {Q : Type} `{!Scalar Q} `{!XPath}.

(** C1 (amended).  Let [s] be a state of [d <= 52] dimensions whose id
    prefix, renderer id and printed numbers are plain text: printable ASCII
    without quote, [<] and [&] ([metadata()] writes them unescaped, so only
    then does its text stand for the elements of [metadata]).  Decoding that
    attribute tree into a state [t] of the same dimensions returns [true] and
    reproduces the camera mode, the radius and the precision, the three
    colours and, for every dimension from 3 to [d], the camera vector that
    the mode selects; each number is the one that [std::stold] reads from its
    printed form.  Everything else keeps the value it has in [t]: the
    transformation matrices and the vectors [to] of all dimensions, the
    camera that the mode does not select, the members of dimension 2, the
    export multiplier, the id prefix and the bound renderer.  The renderer is
    the business of [parseModel]: for a renderer bound in [s] it hands the
    id, depth and render-depth of that renderer to dispatch, and a table that
    serves them installs a renderer with the same three values. *)
Theorem C1_decode_of_metadata (back : Q → Q) (d : nat) (s t : state Q) :
  d ≤ 52 → well_formed d s = true → well_formed d t = true →
  Forall (λ v, plain_text v = true) (interpolated s) →
  Forall (reads_back back) (printed s) →
  ∃ t' p',
    parse d (t, parser_of (metadata d s)) = ((t', p'), Return true) ∧
    polarCoordinates t' = polarCoordinates s ∧
    radius (parameter t') = back (radius (parameter s)) ∧
    precision (parameter t') = back (precision (parameter s)) ∧
    background t' = decoded_colour back (background s) ∧
    wireframe t' = decoded_colour back (wireframe s) ∧
    surface t' = decoded_colour back (surface s) ∧
    (∀ k ls lt,
       3 ≤ k ≤ d → level_of k s = Some ls → level_of k t = Some lt →
       level_of k t' = Some (decoded_camera back (polarCoordinates s) ls lt)) ∧
    level_of 2 t' = level_of 2 t ∧
    (∀ k lt', level_of k t' = Some lt' →
       ∃ lt, level_of k t = Some lt ∧ transformation lt' = transformation lt ∧
             to lt' = to lt) ∧
    exportMultiplier t' = exportMultiplier t ∧ idPrefix t' = idPrefix t ∧
    model t' = model t ∧
    (∀ m,
       model s = Some m →
       (0 ≤ depth m ≤ INT_MAX)%Z → (0 < renderDepth m ≤ INT_MAX)%Z →
       (model_request (t, parser_of (metadata d s))).2 =
         Return (Some (Request "cartesian" (id m) (depth m) (renderDepth m))) ∧
       ∀ table fresh e,
         find (serves (Request "cartesian" (id m) (depth m) (renderDepth m))) table = Some e →
         model (geometry_with table fresh
                  (Request "cartesian" (id m) (depth m) (renderDepth m)) t).1 =
           Some (Renderer fresh (id m) (depth m) (renderDepth m))).
Proof.
  intros Hd Hs Ht _ Hread.
  destruct (parse_written back d s Hd Hs Hread d t [] (le_n d) (well_formed_sized d t Ht))
    as [ctx' Hrun].
  exists (decoded back s d t), (Parser true (metadata d s) ctx').
  split; [exact Hrun |].
  pose proof (decoded_shared back s d t) as Hshared. unfold shared in Hshared.
  simpl in Hshared.
  injection Hshared as Hpolar Hparameter Hexport Hbg Hwf Hsf Hid Hmodel.
  rewrite Hpolar, Hparameter, Hexport, Hbg, Hwf, Hsf, Hid, Hmodel.
  do 6 (split; [reflexivity |]).
  split; [| split; [| split; [| do 3 (split; [reflexivity |])]]].
  4: { intros m Hm Hdepth Hrender. split.
       - apply model_request_written; assumption.
       - intros table fresh e Hfind. unfold geometry_with. rewrite Hfind.
         apply find_some in Hfind as [_ Hserves]. unfold serves in Hserves.
         repeat (apply andb_prop in Hserves as [Hserves _]).
         apply String.eqb_eq in Hserves. simpl in Hserves. rewrite Hserves.
         rewrite apply_run. reflexivity. }
  - intros k ls lt Hk Hls Hlt. rewrite decoded_level.
    rewrite bool_decide_eq_true_2 by lia. rewrite Hls, Hlt. reflexivity.
  - rewrite decoded_level. rewrite bool_decide_eq_false_2 by lia. reflexivity.
  - intros k lt'. rewrite decoded_level.
    destruct (bool_decide (3 ≤ k ≤ d)); [| by eauto].
    destruct (level_of k s) as [ls |]; [| by eauto].
    destruct (level_of k t) as [lt |]; [| discriminate].
    intros Hlt'. injection Hlt' as <-. exists lt.
    unfold decoded_camera. destruct (polarCoordinates s); auto.
Qed.

End RoundTripTheorem.

(** ** The theorems on sample inputs *)
Section Examples.
Import Integers Samples.
Local Open Scope Z_scope.

(** C1, as stated, fails: [metadata()] writes no transformation.  [written]
    has a transformation of dimension 3 that scales by 2, every number it
    prints reads back as itself, and the decode of its metadata into the
    state [fresh3] returns [true] with the identity of [fresh3] still in
    place. *)
Lemma C1_transformation_is_not_reproduced :
  well_formed 3 written = true ∧
  Forall (reads_back (λ q, q)) (printed written) ∧
  (parse 3 (fresh3, parser_of (metadata 3 written))).2 = Return true ∧
  transformation <$> level_of 3 (parse 3 (fresh3, parser_of (metadata 3 written))).1.1
    = Some (identity 3) ∧
  transformation <$> level_of 3 written
    = Some [[2; 0; 0; 0]; [0; 2; 0; 0]; [0; 0; 2; 0]; [0; 0; 0; 1]].
Proof.
  split; [reflexivity |]. split; [| repeat split; reflexivity].
  repeat constructor; reflexivity.
Qed.

(** C1 on [written] and [fresh3], every number reading back as itself. *)
Lemma C1_decode_of_metadata_witness :
  ∃ t' p',
    parse 3 (fresh3, parser_of (metadata 3 written)) = ((t', p'), Return true) ∧
    polarCoordinates t' = true ∧
    radius (parameter t') = 4 ∧ precision (parameter t') = 12 ∧
    background t' = white ∧ wireframe t' = blue_ground ∧ surface t' = clear ∧
    level_of 3 t' = Some (set_fromp [5; 2; 1] (plain 3)).
Proof.
  destruct (C1_decode_of_metadata (λ q, q) 3 written fresh3) as
    (t' & p' & Hrun & Hpolar & Hradius & Hprecision & Hbg & Hwf & Hsf & Hcamera & _).
  - lia.
  - reflexivity.
  - reflexivity.
  - repeat constructor.
  - repeat constructor; reflexivity.
  - exists t', p'. repeat split; try assumption.
    apply (Hcamera 3%nat scaled (plain 3)); [lia | reflexivity | reflexivity].
Defined.

(** C2, as stated, fails: with [radius="abc"] the decode is left by the
    exception, and the well-formed [red="1"] of the same document is not
    applied. *)
Lemma C2_malformed_radius_blocks_the_colour :
  stold (Q:=Z) "abc" = None ∧ stold (Q:=Z) "1" = Some 1 ∧
  (parse 3 (fresh3, parser_of malformed_document)).2 = Abort Thrown ∧
  red (background (parse 3 (fresh3, parser_of malformed_document)).1.1) = 0.
Proof. repeat split; reflexivity. Qed.

(** C2 on a camera of three attributes whose second angle is [up], and on
    the document with [radius="abc"]. *)
Lemma C2_malformed_literal_leaves_the_decoder_witness :
  (∃ w' f, parse 3 (fresh3, parser_of malformed_angle_document) = (w', Abort f)) ∧
  parse 1 (fresh3, parser_of malformed_document)
    = ((fresh3, parser_of malformed_document), Abort Thrown).
Proof.
  split.
  - apply (C2_malformed_literal_leaves_the_decoder 3 fresh3
             (parser_of malformed_angle_document) eq_refl).
    left. exists 3%nat. split; [lia |]. left.
    exists (Element "camera" [("radius", "6"); ("theta-1", "2"); ("theta-2", "up")]), 2%nat.
    repeat split; [apply list_elem_of_here | lia].
  - destruct (proj2 (C2_malformed_literal_leaves_the_decoder 1 fresh3
                       (parser_of malformed_document) eq_refl)
                [number "precision" "polar" (λ q, on_parameter (set_precision q))]
                (number "options" "radius" (λ q, on_parameter (set_radius q)))
                (drop 2 fix_point_fields)) as [Hrun _].
    + reflexivity.
    + reflexivity.
    + repeat constructor.
    + exact Hrun.
Defined.

(** C3, as stated, fails: with a cube bound, dispatch of a type the table
    does not list returns [true]. *)
Lemma C3_unknown_type_returns_true :
  Forall (λ e, entry_type e ≠ "no-such-model") table ∧
  model bound = Some (Renderer 1 "cube" 4 4) ∧
  geometry_with table 2 (Request "cartesian" "no-such-model" 4 4) bound = (bound, true).
Proof.
  split; [repeat constructor; discriminate |]. split; reflexivity.
Qed.

(** C3 on a state without a renderer. *)
Lemma C3_unknown_type_passes_witness :
  geometry_with table 2 (Request "cartesian" "no-such-model" 4 4) skewed4 = (skewed4, false).
Proof.
  apply (C3_unknown_type_passes table 2 (Request "cartesian" "no-such-model" 4 4) skewed4).
  repeat constructor; discriminate.
Defined.

(** C4, as stated, fails: the file decode of a sphere of depth 3 with
    render-depth 3 requests render-depth 3, and a table that serves spheres of
    depth 3 installs the renderer with these values. *)
Lemma C4_sphere_render_depth_not_raised :
  (model_request (fresh3, parser_of sphere_document)).2 =
    Return (Some (Request "cartesian" "sphere" 3 3)) ∧
  model (parseModel table 2 (fresh3, parser_of sphere_document)).1.1 =
    Some (Renderer 2 "sphere" 3 3).
Proof. split; reflexivity. Qed.

(** C4 with [MAXDEPTH = 7] on the settings sphere, depth 5, render-depth 3. *)
Lemma C4_sphere_render_depth_witness :
  (∃ u' r,
     reconfigureWithIndex 7 "depth" sphere_settings = (u', Some r) ∧ type r = "sphere" ∧
     dims r < rdims r) ∧
  (reconfigureWithIndex 7 "depth" sphere_settings).2 =
    Some (Request "cartesian" "sphere" 5 6) ∧
  (updateModel 7 sphere_settings).2 = Some (Request "cartesian" "sphere" 2 3).
Proof.
  destruct (C4_sphere_render_depth (Q:=Z) 7) as (Hlive & Hhow & _); [lia |].
  split; [apply Hlive; [right; left; reflexivity | reflexivity] |].
  destruct (Hhow sphere_settings) as (Hupdate & _ & Hdepth);
    [reflexivity | simpl; lia | simpl; lia |].
  split; [exact Hdepth | exact Hupdate].
Defined.

(** C6, as stated, fails: the file decode of a plane of depth 4 requests
    depth 4, and a table whose entry for planes starts at dimension 2 installs
    the renderer with depth 4. *)
Lemma C6_plane_depth_not_clamped :
  (model_request (skewed4, parser_of plane_document)).2 =
    Return (Some (Request "cartesian" "plane" 4 4)) ∧
  model (parseModel table 2 (skewed4, parser_of plane_document)).1.1 =
    Some (Renderer 2 "plane" 4 4).
Proof. split; reflexivity. Qed.

(** C6 with [MAXDEPTH = 7] on the settings plane, depth 5. *)
Lemma C6_flat_models_depth_witness :
  ∃ u' r,
    reconfigureWithIndex 7 "model" plane_settings = (u', Some r) ∧ type r = "plane" ∧
    dims r = 2.
Proof.
  destruct (C6_flat_models_depth (Q:=Z) 7) as (Hlive & _).
  apply Hlive; [left; reflexivity | reflexivity | left; reflexivity].
Defined.

(** C7, as stated, fails: without a render-depth, the file decode of a
    sphere of depth 3 requests render-depth 3, not 4. *)
Lemma C7_sphere_default_is_the_depth :
  attribute "render-depth" (Element "model" [("type", "sphere"); ("depth", "3")]) = EmptyString ∧
  (model_request (fresh3, parser_of sphere_document_without_render_depth)).2 =
    Return (Some (Request "cartesian" "sphere" 3 3)).
Proof. split; reflexivity. Qed.

(** C7 on the sphere of depth 3 without a render-depth. *)
Lemma C7_render_depth_default_witness :
  ∃ r,
    (model_request (fresh3, parser_of sphere_document_without_render_depth)).2 =
      Return (Some r) ∧
    type r = "sphere" ∧ dims r = 3 ∧ rdims r = 3.
Proof.
  destruct (C7_render_depth_default fresh3 (parser_of sphere_document_without_render_depth)
              (Element "model" [("type", "sphere"); ("depth", "3")]) [] 3 3)
    as ((r & Hrun & Htype & Hdims & Hread & _) & _).
  - reflexivity.
  - reflexivity.
  - reflexivity.
  - reflexivity.
  - exists r. repeat split; try assumption. apply Hread. lia.
Defined.



(** C9, as stated, fails: when a sphere replaces the bound cube, the
    destructor of the cube runs while the model accessor still yields the
    cube, which is no longer alive. *)
Lemma C9_destructor_sees_the_dying_renderer :
  sound (Snapshot on_entry bound [1%nat]) ∧
  ∃ x, x ∈ apply_steps (Renderer 2 "sphere" 3 4) bound [1%nat] ∧
       where_ x = in_destructor ∧
       model (seen x) = Some (Renderer 1 "cube" 4 4) ∧ alive x = [] ∧ ¬ sound x.
Proof.
  split; [apply list_elem_of_here |].
  exists (Snapshot in_destructor bound []).
  split; [apply list_elem_of_further, list_elem_of_here |].
  repeat split. unfold sound. simpl. apply not_elem_of_nil.
Qed.

(** C9 on the replacement of a bound cube by a sphere. *)
Lemma C9_replacement_of_the_renderer_witness :
  ∃ x, last (apply_steps (Renderer 2 "sphere" 3 4) bound [1%nat]) = Some x ∧
       where_ x = on_return ∧
       apply (Renderer 2 "sphere" 3 4) bound = (seen x, true) ∧
       alive x = [2%nat].
Proof.
  apply (C9_replacement_of_the_renderer (Renderer 2 "sphere" 3 4) bound [1%nat]).
  apply list_elem_of_here.
Defined.

(** C10 on a JSON value with [polar] and on a document with a cartesian mode. *)
Lemma C10_json_decode_keeps_the_polar_flag_witness :
  polarCoordinates (parse_json 3 (set_polarCoordinates false fresh3) polar_value).1 = false ∧
  polarCoordinates (parse 3 (fresh3, parser_of cartesian_document)).1.1 = false.
Proof.
  destruct (C10_json_decode_keeps_the_polar_flag 3 (set_polarCoordinates false fresh3)
              polar_value) as (Hflag & _ & _).
  destruct (C10_json_decode_keeps_the_polar_flag 3 fresh3 polar_value) as (_ & _ & Hxml).
  split; [exact Hflag |].
  exact (Hxml (parser_of cartesian_document)
           (parse 3 (fresh3, parser_of cartesian_document)).1.1
           (parse 3 (fresh3, parser_of cartesian_document)).1.2 eq_refl).
Defined.

End Examples.

(** * Further properties *)

(** ** [setMatrixCell] *)
Section MatrixCellProperties.
Context {Q : Type}.

Lemma setMatrixCell_run (d : nat) (s : state Q) (sd x y : nat) (vv : Q) :
  setMatrixCell d s sd x y vv =
    if bool_decide (2 ≤ sd ≤ d) then (assign_cell sd x y vv s, true) else (s, false).
Proof.
  induction d as [| d IH]; [rewrite bool_decide_eq_false_2 by lia; reflexivity |].
  destruct d as [| n]; [rewrite bool_decide_eq_false_2 by lia; reflexivity |].
  change (setMatrixCell (S (S n)) s sd x y vv) with
    (if S (S n) =? sd then (assign_cell (S (S n)) x y vv s, true)
     else setMatrixCell (S n) s sd x y vv).
  destruct (Nat.eqb_spec (S (S n)) sd) as [<- | Hne].
  - rewrite bool_decide_eq_true_2 by lia. reflexivity.
  - rewrite IH. destruct (decide (2 ≤ sd ≤ S n)).
    + rewrite !bool_decide_eq_true_2 by lia. reflexivity.
    + rewrite !bool_decide_eq_false_2 by lia. reflexivity.
Qed.

Lemma matrix_cell_assigned (k x y : nat) (q : Q) (s : state Q) (l : level Q)
    (row : list Q) :
  level_of k s = Some l → transformation l !! x = Some row → y < length row →
  matrix_cell k x y (assign_cell k x y q s) = Some q.
Proof.
  intros Hl Hrow Hy. unfold matrix_cell, assign_cell.
  rewrite level_of_at_level, Hl. simpl.
  rewrite list_lookup_alter_eq, Hrow. simpl.
  apply list_lookup_insert_eq, Hy.
Qed.

(** X1.  [setMatrixCell] returns [true] exactly for a target dimension from 2
    to [d].  Then the cell reads the value written, the camera vectors of the
    target dimension, the members of every other dimension and everything
    outside the ladder are as before.  For any other target dimension, 0 and
    1 included, the state is as before. *)
Theorem setMatrixCell_writes_one_cell (d : nat) (s : state Q) (sd x y : nat) (vv : Q) :
  ((setMatrixCell d s sd x y vv).2 = true ↔ 2 ≤ sd ≤ d) ∧
  ((setMatrixCell d s sd x y vv).2 = false → (setMatrixCell d s sd x y vv).1 = s) ∧
  (∀ k, k ≠ sd → level_of k (setMatrixCell d s sd x y vv).1 = level_of k s) ∧
  set_levels [] (setMatrixCell d s sd x y vv).1 = set_levels [] s ∧
  fromp <$> levels (setMatrixCell d s sd x y vv).1 = fromp <$> levels s ∧
  from <$> levels (setMatrixCell d s sd x y vv).1 = from <$> levels s ∧
  (∀ l row,
     2 ≤ sd ≤ d → level_of sd s = Some l → transformation l !! x = Some row →
     y < length row →
     matrix_cell sd x y (setMatrixCell d s sd x y vv).1 = Some vv).
Proof.
  rewrite setMatrixCell_run. destruct (decide (2 ≤ sd ≤ d)) as [Hin | Hout].
  - rewrite bool_decide_eq_true_2 by exact Hin. simpl.
    split; [tauto |]. split; [discriminate |].
    split; [intros k Hk; apply level_of_at_level_ne, Hk |].
    unfold assign_cell, at_level. destruct (sd <? 2) eqn:Hsd.
    + apply Nat.ltb_lt in Hsd. lia.
    + simpl. split; [reflexivity |].
      split; [apply fmap_alter_same; reflexivity |].
      split; [apply fmap_alter_same; reflexivity |].
      intros l row _ Hl Hrow Hy.
      pose proof (matrix_cell_assigned sd x y vv s l row Hl Hrow Hy) as Hcell.
      unfold assign_cell, at_level in Hcell. rewrite Hsd in Hcell. exact Hcell.
  - rewrite bool_decide_eq_false_2 by exact Hout. simpl.
    split; [split; [discriminate | tauto] |]. repeat split; tauto.
Qed.

End MatrixCellProperties.

(** ** The constructor of [xml::parser] *)

(** X2.  The constructor sets [valid] exactly when [xmlReadMemory] returned a
    document.  The document and the XPath context are both there only when,
    besides, the context was created and both namespaces were registered: a
    parser can be valid with neither of them. *)
Theorem valid_parser_may_have_no_document (read created svg topologic : bool) :
  is_valid (construct read created svg topologic) = read ∧
  has_document (construct read created svg topologic)
    = read && created && svg && topologic ∧
  has_xpathContext (construct read created svg topologic)
    = read && created && svg && topologic.
Proof. destruct read, created, svg, topologic; repeat split; reflexivity. Qed.

(** ** The XML decoder on documents it has no use for *)
Section NothingToDecode.
Context {Q : Type} `{!Scalar Q} `{!XPath}.

Lemma parse_invalid (d : nat) (w : state Q * parser) :
  valid w.2 = false → parse d w = (w, Return false).
Proof.
  intros Hinvalid.
  assert (Hfix : parse_fix_point w = (w, Return false)).
  { unfold parse_fix_point. rewrite bind_run. unfold ask. cbv beta iota.
    rewrite Hinvalid. reflexivity. }
  destruct d as [| [| n]]; [exact Hfix | exact Hfix |].
  change (parse (S (S n))) with
    (bind (ask valid) (λ ok : bool,
       if negb ok then ret false
       else bind (camera (S (S n))) (λ _, bind (identity_reset (S (S n))) (λ _,
              bind (cells (S (S n))) (λ _, parse (Q:=Q) (S n)))))).
  rewrite bind_run. unfold ask. cbv beta iota. rewrite Hinvalid. reflexivity.
Qed.

Lemma model_request_invalid (w : state Q * parser) :
  valid w.2 = false → model_request w = (w, Return None).
Proof.
  intros Hinvalid. unfold model_request. rewrite bind_run. unfold ask. cbv beta iota.
  rewrite Hinvalid. reflexivity.
Qed.

(** X3.  With a parser that is not valid, [parse] of any dimension and
    [parseModel] return [false]; the state, the bound renderer and the
    parser's context are as before. *)
Theorem invalid_parser_decodes_nothing (d : nat) (table : list entry) (fresh : nat)
    (s : state Q) (p : parser) :
  valid p = false →
  parse d (s, p) = ((s, p), Return false) ∧
  parseModel table fresh (s, p) = ((s, p), Return false).
Proof.
  intros Hinvalid. split; [apply parse_invalid, Hinvalid |].
  unfold parseModel. rewrite bind_run, model_request_invalid by exact Hinvalid.
  reflexivity.
Qed.

Lemma first_attribute_absent (t a : string) (doc : list element) :
  Forall (λ e, String.eqb (tag e) t = false) doc → first_attribute t a doc = EmptyString.
Proof.
  induction 1 as [| e doc He _ IH]; simpl; [reflexivity |]. rewrite He. exact IH.
Qed.

Lemma unknown_tag (t : string) (doc : list element) :
  t ∈ decoder_tags →
  Forall (λ e, known (tag e) = false) doc →
  Forall (λ e, String.eqb (tag e) t = false) doc.
Proof.
  intros Ht Hdoc. eapply Forall_impl; [exact Hdoc |]. intros e He. unfold known in He.
  destruct (String.eqb (tag e) t) eqn:Heq; [| reflexivity].
  rewrite <- He. symmetry. apply existsb_exists. exists t. split; [| exact Heq].
  apply list_elem_of_In, Ht.
Qed.

Lemma unknown_attribute (t a : string) (p : parser) :
  t ∈ decoder_tags →
  Forall (λ e, known (tag e) = false) (document p) →
  evaluate_anywhere t a p = EmptyString.
Proof. intros Ht Hdoc. apply first_attribute_absent, unknown_tag; assumption. Qed.

Lemma parse_fix_point_unknown (w : state Q * parser) :
  valid w.2 = true →
  Forall (λ e, known (tag e) = false) (document w.2) →
  parse_fix_point w = (w, Return true).
Proof.
  intros Hvalid Hdoc. unfold parse_fix_point, after_radius.
  rewrite bind_run. unfold ask. cbv beta iota. rewrite Hvalid. cbn [negb].
  repeat (first
            [ rewrite numeric_absent
                by (apply unknown_attribute; [unfold decoder_tags; repeat constructor | exact Hdoc])
            | rewrite choice_absent
                by (apply unknown_attribute; [unfold decoder_tags; repeat constructor | exact Hdoc])
            | rewrite bind_run ];
          cbv beta iota).
  reflexivity.
Qed.

(** X4.  A valid document in which no element carries a name the decoder
    looks for (the empty document among them) decodes to [true] at every
    dimension and leaves the state and the context as they were. *)
Theorem foreign_document_changes_nothing (d : nat) (s : state Q) (p : parser) :
  valid p = true →
  Forall (λ e, known (tag e) = false) (document p) →
  parse d (s, p) = ((s, p), Return true).
Proof.
  intros Hvalid Hdoc.
  induction d as [| d IH]; [apply parse_fix_point_unknown; assumption |].
  destruct d as [| n]; [apply parse_fix_point_unknown; assumption |].
  change (parse (S (S n))) with
    (bind (ask valid) (λ ok : bool,
       if negb ok then ret false
       else bind (camera (S (S n))) (λ _, bind (identity_reset (S (S n))) (λ _,
              bind (cells (S (S n))) (λ _, parse (Q:=Q) (S n)))))).
  rewrite bind_run. unfold ask. cbv beta iota. cbn [snd]. rewrite Hvalid. cbn [negb].
  rewrite bind_run. unfold camera. rewrite skip_run.
  2:{ eapply Forall_impl; [apply (unknown_tag "camera"); [unfold decoder_tags; repeat constructor | exact Hdoc] |].
      intros e He. unfold count_is. simpl in He. rewrite He. reflexivity. }
  rewrite bind_run. unfold identity_reset. rewrite skip_run.
  2:{ eapply Forall_impl; [apply (unknown_tag "transformation"); [unfold decoder_tags; repeat constructor | exact Hdoc] |].
      intros e He. unfold depth_is. simpl in He. rewrite He. reflexivity. }
  rewrite bind_run. unfold cells. rewrite skip_run.
  2:{ eapply Forall_impl; [apply (unknown_tag "transformation"); [unfold decoder_tags; repeat constructor | exact Hdoc] |].
      intros e He. unfold count_is. simpl in He. rewrite He. reflexivity. }
  exact IH.
Qed.

End NothingToDecode.

(** ** What the XML decoder never assigns *)
Section OutOfReach.
Context {Q : Type} `{!Scalar Q} `{!XPath}.

Lemma out_of_reach_at_level (k : nat) (g : level Q → level Q) (s : state Q) (p : parser) :
  (∀ l, to (g l) = to l) → out_of_reach (at_level k g s, p) = out_of_reach (s, p).
Proof.
  intros Hg. unfold out_of_reach, at_level. destruct (k <? 2); [reflexivity |]. simpl.
  rewrite (fmap_alter_same to g) by exact Hg. rewrite length_alter. reflexivity.
Qed.

Lemma parse_fix_point_out_of_reach : preserves out_of_reach (parse_fix_point (Q:=Q)).
Proof. unfold parse_fix_point, after_radius, numeric, choice. frame ltac:(reflexivity). Qed.

Lemma parse_out_of_reach (d : nat) : preserves out_of_reach (parse (Q:=Q) d).
Proof.
  induction d as [| d IH]; [apply parse_fix_point_out_of_reach |].
  destruct d as [| n]; [apply parse_fix_point_out_of_reach |].
  change (parse (S (S n))) with
    (bind (ask valid) (λ ok : bool,
       if negb ok then ret false
       else bind (camera (S (S n))) (λ _, bind (identity_reset (S (S n))) (λ _,
              bind (cells (S (S n))) (λ _, parse (Q:=Q) (S n)))))).
  apply preserves_bind; [apply preserves_ask |]. intros ok.
  destruct (negb ok); [apply preserves_ret |].
  apply preserves_bind.
  { unfold camera, camera_axis.
    frame ltac:(unfold assign_fromp, assign_from; apply out_of_reach_at_level; reflexivity). }
  intros _. apply preserves_bind.
  { unfold identity_reset. frame ltac:(apply out_of_reach_at_level; reflexivity). }
  intros _. apply preserves_bind; [| intros _; exact IH].
  unfold cells, cell.
  frame ltac:(unfold assign_cell; apply out_of_reach_at_level; reflexivity).
Qed.

Lemma parse_source (d : nat) : preserves source (parse (Q:=Q) d).
Proof.
  induction d as [| d IH]; [apply parse_fix_point_source |].
  destruct d as [| n]; [apply parse_fix_point_source |].
  change (parse (S (S n))) with
    (bind (ask valid) (λ ok : bool,
       if negb ok then ret false
       else bind (camera (S (S n))) (λ _, bind (identity_reset (S (S n))) (λ _,
              bind (cells (S (S n))) (λ _, parse (Q:=Q) (S n)))))).
  apply preserves_bind; [apply preserves_ask |]. intros ok.
  destruct (negb ok); [apply preserves_ret |].
  apply preserves_bind; [apply camera_source |]. intros _.
  apply preserves_bind; [apply identity_reset_source |]. intros _.
  apply preserves_bind; [apply cells_source |]. intros _. exact IH.
Qed.

(** X5.  Whatever the document and however the call ends (a result or an
    exception), the XML [parse] assigns none of: the bound renderer, the
    export multiplier, the id prefix, the minor radius, the constant and the
    vectors [to]; the number of dimensions of the state, the document and
    [valid] are as before. *)
Theorem parse_leaves_alone (d : nat) (s : state Q) (p : parser) :
  let s' := (parse d (s, p)).1.1 in
  let p' := (parse d (s, p)).1.2 in
  model s' = model s ∧
  exportMultiplier s' = exportMultiplier s ∧
  idPrefix s' = idPrefix s ∧
  radius2 (parameter s') = radius2 (parameter s) ∧
  constant (parameter s') = constant (parameter s) ∧
  to <$> levels s' = to <$> levels s ∧
  length (levels s') = length (levels s) ∧
  valid p' = valid p ∧ document p' = document p.
Proof.
  intros s' p'. subst s' p'.
  pose proof (parse_out_of_reach d (s, p)) as Hout.
  pose proof (parse_source d (s, p)) as Hsrc.
  destruct (parse d (s, p)) as [[s' p'] r]. simpl in *.
  unfold out_of_reach in Hout. unfold source in Hsrc. simpl in *.
  injection Hout as -> -> -> -> -> -> ->. injection Hsrc as -> ->.
  repeat split; reflexivity.
Qed.

Lemma ends_true_bind {A} (c : M Q A) (k : A → M Q bool) (w : state Q * parser) :
  (∀ a w1, match (k a w1).2 with Return b => b = true | Abort _ => True end) →
  match (bind c k w).2 with Return b => b = true | Abort _ => True end.
Proof.
  intros Hk. rewrite bind_run. destruct (c w) as [w1 [a | f]]; [apply Hk | exact I].
Qed.

Lemma parse_fix_point_valid (w : state Q * parser) :
  valid w.2 = true →
  match (parse_fix_point w).2 with Return b => b = true | Abort _ => True end.
Proof.
  intros Hvalid. unfold parse_fix_point. rewrite bind_run. unfold ask at 1.
  cbv beta iota. rewrite Hvalid. cbn [negb].
  apply ends_true_bind. intros _ w1. apply ends_true_bind. intros _ w2.
  apply ends_true_bind. intros _ w3. reflexivity.
Qed.

Lemma parse_valid (d : nat) (w : state Q * parser) :
  valid w.2 = true →
  match (parse d w).2 with Return b => b = true | Abort _ => True end.
Proof.
  revert w. induction d as [| d IH]; intros w Hvalid; [apply parse_fix_point_valid, Hvalid |].
  destruct d as [| n]; [apply parse_fix_point_valid, Hvalid |].
  change (parse (S (S n))) with
    (bind (ask valid) (λ ok : bool,
       if negb ok then ret false
       else bind (camera (S (S n))) (λ _, bind (identity_reset (S (S n))) (λ _,
              bind (cells (S (S n))) (λ _, parse (Q:=Q) (S n)))))).
  rewrite bind_run. unfold ask at 1. cbv beta iota. rewrite Hvalid. cbn [negb].
  rewrite bind_run.
  pose proof (camera_source (Q:=Q) (S (S n)) w) as S1.
  destruct (camera (S (S n)) w) as [w1 [[] | f]]; [| exact I].
  rewrite bind_run.
  pose proof (identity_reset_source (Q:=Q) (S (S n)) w1) as S2.
  destruct (identity_reset (S (S n)) w1) as [w2 [[] | f]]; [| exact I].
  rewrite bind_run.
  pose proof (cells_source (Q:=Q) (S (S n)) w2) as S3.
  destruct (cells (S (S n)) w2) as [w3 [[] | f]]; [| exact I].
  apply IH. unfold source in *. simpl in *. congruence.
Qed.

(** X6.  Whenever the XML [parse] returns, it returns [valid]: for a valid
    parser the result is [true] whatever the document holds, and a call that
    does not return [true] has been left by an exception.  [false] stands
    for an invalid parser only, never for a document that is malformed or
    lacks an element. *)
Theorem parse_returns_validity (d : nat) (s : state Q) (p : parser) :
  match (parse d (s, p)).2 with
  | Return b => b = valid p
  | Abort _ => valid p = true
  end.
Proof.
  destruct (valid p) eqn:Hvalid.
  - pose proof (parse_valid d (s, p) Hvalid) as Hresult.
    destruct (parse d (s, p)).2; [exact Hresult | reflexivity].
  - rewrite (parse_invalid d (s, p) Hvalid). reflexivity.
Qed.

End OutOfReach.

(** ** The JSON decoder *)
Section JsonDecode.
Context {Q : Type} `{!Scalar Q} `{!XPath}.

Lemma parse_json_step (n : nat) (s : state Q) (value : json Q) :
  parse_json (S (S n)) s value =
    if negb (isObject value) then (s, false)
    else
      parse_json (S n)
        (let s1 :=
           if isArray (member "camera" value)
           then foldl (json_camera (S (S n)) (truth (member "polar" value))) s
                  (toArray (member "camera" value))
           else s in
         if isArray (member "transformation" value)
         then foldl (json_transformation (S (S n))) s1 (toArray (member "transformation" value))
         else s1)
        value.
Proof. reflexivity. Qed.

Lemma parse_json_result (d : nat) (s : state Q) (value : json Q) :
  (parse_json d s value).2 = isObject value.
Proof.
  revert s. induction d as [| d IH]; intros s.
  - simpl. unfold parse_json_fix_point. destruct (isObject value); reflexivity.
  - destruct d as [| n].
    + simpl. unfold parse_json_fix_point. destruct (isObject value); reflexivity.
    + rewrite parse_json_step. destruct (isObject value) eqn:Hobject; [| reflexivity].
      cbn [negb]. apply IH.
Qed.

Lemma parse_json_not_object (d : nat) (s : state Q) (value : json Q) :
  isObject value = false → parse_json d s value = (s, false).
Proof.
  intros Hobject. destruct d as [| [| n]].
  - simpl. unfold parse_json_fix_point. rewrite Hobject. reflexivity.
  - simpl. unfold parse_json_fix_point. rewrite Hobject. reflexivity.
  - rewrite parse_json_step, Hobject. reflexivity.
Qed.

(** X7.  The JSON [parse] returns [true] exactly for an object, at every
    dimension and whatever the members are; for any other value (null, a
    number, a string, an array) [parse] and [parseModel] return [false] and
    the state is as before. *)
Theorem json_decode_wants_an_object (d : nat) (table : list entry) (fresh : nat)
    (s : state Q) (value : json Q) :
  (parse_json d s value).2 = isObject value ∧
  (isObject value = false →
   parse_json d s value = (s, false) ∧ parseModel_json table fresh s value = (s, false)).
Proof.
  split; [apply parse_json_result |]. intros Hobject.
  split; [apply parse_json_not_object, Hobject |].
  unfold parseModel_json, json_model_request. rewrite Hobject. reflexivity.
Qed.

Lemma json_camera_skip (d : nat) (polar : bool) (s : state Q) (c : json Q) :
  size c ≠ d → json_camera d polar s c = s.
Proof.
  intros Hsize. unfold json_camera.
  destruct (Nat.eqb_spec (size c) d); [contradiction |].
  rewrite andb_false_r. reflexivity.
Qed.

Lemma json_transformation_skip (d : nat) (s : state Q) (t : json Q) :
  size t ≠ (d + 1) * (d + 1) → json_transformation d s t = s.
Proof.
  intros Hsize. unfold json_transformation.
  destruct (Nat.eqb_spec (size t) ((d + 1) * (d + 1))); [contradiction |].
  rewrite andb_false_r. reflexivity.
Qed.

Lemma foldl_skip {A} (step : state Q → A → state Q) (P : A → Prop) (l : list A) (s : state Q) :
  (∀ s a, P a → step s a = s) → Forall P l → foldl step s l = s.
Proof.
  intros Hstep Hall. revert s. induction Hall as [| a l Ha _ IH]; intros s; simpl.
  - reflexivity.
  - rewrite Hstep by exact Ha. apply IH.
Qed.

Lemma json_camera_members (k d : nat) (polar : bool) (s : state Q) (c : json Q) :
  k ≠ d → level_of k (json_camera d polar s c) = level_of k s.
Proof.
  intros Hkd. unfold json_camera. destruct (isArray c && (size c =? d)); [| reflexivity].
  apply (foldl_keeps (level_of k)). intros s0 i. apply store_keeps. intros q s1.
  destruct polar; apply level_of_at_level_ne, Hkd.
Qed.

Lemma json_transformation_members (k d : nat) (s : state Q) (t : json Q) :
  k ≠ d → level_of k (json_transformation d s t) = level_of k s.
Proof.
  intros Hkd. unfold json_transformation.
  destruct (isArray t && (size t =? (d + 1) * (d + 1))); [| reflexivity].
  apply (foldl_keeps (level_of k)). intros s0 i.
  apply (foldl_keeps (level_of k)). intros s1 j.
  apply store_keeps. intros q s2. apply level_of_at_level_ne, Hkd.
Qed.

Lemma parse_json_fix_point_keeps {X} (f : state Q → X) (value : json Q) :
  (∀ g s, f (on_parameter g s) = f s) →
  (∀ g s, f (on_background g s) = f s) →
  (∀ g s, f (on_wireframe g s) = f s) →
  (∀ g s, f (on_surface g s) = f s) →
  ∀ s, f (parse_json_fix_point s value).1 = f s.
Proof.
  intros Hpar Hbg Hwf Hsf s. unfold parse_json_fix_point.
  destruct (negb (isObject value)); [reflexivity |].
  simpl. unfold json_colour, json_flag.
  repeat first
    [ rewrite store_keeps by (intros; auto)
    | match goal with |- context [if ?b then _ else _] => destruct b end ];
    auto; try reflexivity;
    repeat first [rewrite Hpar | rewrite store_keeps by (intros; auto)
                 | match goal with |- context [if ?b then _ else _] => destruct b end];
    auto.
Qed.

Lemma parse_json_lower_members (k d : nat) (s : state Q) (value : json Q) :
  d < k → level_of k (parse_json d s value).1 = level_of k s.
Proof.
  revert s. induction d as [| d IH]; intros s Hdk.
  - apply (parse_json_fix_point_keeps (level_of k)); reflexivity.
  - destruct d as [| n]; [apply (parse_json_fix_point_keeps (level_of k)); reflexivity |].
    rewrite parse_json_step. destruct (negb (isObject value)); [reflexivity |].
    rewrite IH by lia. cbv zeta.
    destruct (isArray (member "transformation" value)), (isArray (member "camera" value));
      rewrite ?(foldl_keeps (level_of k) (json_transformation (S (S n))))
        by (intros; apply json_transformation_members; lia);
      rewrite ?(foldl_keeps (level_of k) (json_camera (S (S n)) _))
        by (intros; apply json_camera_members; lia);
      reflexivity.
Qed.

(** X8.  The JSON [parse] assigns the members of dimension [k] only from a
    [camera] entry that has [k] elements and from a [transformation] entry
    that has (k+1)(k+1) elements: when the value lists no entry of these
    sizes, the camera vectors and the matrix of dimension [k] are as before,
    whatever else the value holds. *)
Theorem json_entries_of_other_sizes_are_skipped (d k : nat) (s : state Q) (value : json Q) :
  Forall (λ c, size c ≠ k) (toArray (member "camera" value)) →
  Forall (λ t, size t ≠ (k + 1) * (k + 1)) (toArray (member "transformation" value)) →
  level_of k (parse_json d s value).1 = level_of k s.
Proof.
  intros Hcameras Htransformations. revert s. induction d as [| d IH]; intros s.
  - apply (parse_json_fix_point_keeps (level_of k)); reflexivity.
  - destruct d as [| n]; [apply (parse_json_fix_point_keeps (level_of k)); reflexivity |].
    rewrite parse_json_step. destruct (negb (isObject value)); [reflexivity |].
    rewrite IH. cbv zeta. destruct (decide (k = S (S n))) as [-> | Hk].
    + rewrite (foldl_skip (json_transformation (S (S n))) _ _ _
                 (λ s0 t, json_transformation_skip (S (S n)) s0 t) Htransformations).
      rewrite (foldl_skip (json_camera (S (S n)) _) _ _ _
                 (λ s0 c, json_camera_skip (S (S n)) _ s0 c) Hcameras).
      destruct (isArray (member "transformation" value)), (isArray (member "camera" value));
        reflexivity.
    + destruct (isArray (member "transformation" value)), (isArray (member "camera" value));
        rewrite ?(foldl_keeps (level_of k) (json_transformation (S (S n))))
          by (intros; apply json_transformation_members; exact Hk);
        rewrite ?(foldl_keeps (level_of k) (json_camera (S (S n)) _))
          by (intros; apply json_camera_members; exact Hk);
        reflexivity.
Qed.

Lemma foldl_ext_in {A B} (f g : A → B → A) (l : list B) (a : A) :
  (∀ a b, b ∈ l → f a b = g a b) → foldl f a l = foldl g a l.
Proof.
  revert a. induction l as [| b l IH]; intros a Hfg; simpl; [reflexivity |].
  rewrite Hfg by apply list_elem_of_here.
  apply IH. intros a' b' Hb'. apply Hfg. by apply list_elem_of_further.
Qed.

Lemma item_numbers (qs : list Q) (i : nat) :
  i < length qs → item i (numbers qs) = JNumber (default zero (qs !! i)).
Proof.
  intros Hi. unfold item, numbers, toArray. rewrite list_lookup_fmap.
  destruct (lookup_lt_is_Some_2 qs i Hi) as [q ->]. reflexivity.
Qed.

Lemma json_camera_numbers (d : nat) (polar : bool) (s : state Q) (qs : list Q) (l : level Q) :
  length qs = d → level_of d s = Some l → length (fromp l) = d → length (from l) = d →
  json_camera d polar s (numbers qs) =
    at_level d (λ lv, if polar then set_fromp qs lv else set_from qs lv) s.
Proof.
  intros Hqs Hl Hfromp Hfrom. unfold json_camera.
  replace (isArray (numbers qs) && (size (numbers qs) =? d)) with true.
  2:{ unfold size, numbers, toArray, isArray. rewrite length_fmap, Hqs, Nat.eqb_refl.
      reflexivity. }
  rewrite (foldl_ext_in _
    (λ s0 i, at_level d
       (λ lv, if polar then set_fromp (<[i := default zero (qs !! i)]> (fromp lv)) lv
              else set_from (<[i := default zero (qs !! i)]> (from lv)) lv) s0)).
  2:{ intros s0 i Hi. apply elem_of_seq in Hi. rewrite item_numbers by lia.
      destruct polar; reflexivity. }
  rewrite (foldl_at_level d
    (λ i lv, if polar then set_fromp (<[i := default zero (qs !! i)]> (fromp lv)) lv
             else set_from (<[i := default zero (qs !! i)]> (from lv)) lv)).
  apply at_level_ext. intros lv Hlv. rewrite Hl in Hlv. injection Hlv as <-.
  destruct polar.
  - rewrite (foldl_set_fromp (λ i, default zero (qs !! i))). f_equal.
    rewrite <- Hfromp at 1. rewrite foldl_insert_all, Hfromp, <- Hqs.
    rewrite (fmap_seq_lookup (λ q, q) zero qs). apply list_fmap_id.
  - rewrite (foldl_set_from (λ i, default zero (qs !! i))). f_equal.
    rewrite <- Hfrom at 1. rewrite foldl_insert_all, Hfrom, <- Hqs.
    rewrite (fmap_seq_lookup (λ q, q) zero qs). apply list_fmap_id.
Qed.

Lemma parse_json_upper (d k : nat) (s : state Q) (value : json Q) :
  k ≤ d → isObject value = true →
  ∃ s', parse_json d s value = parse_json k s' value ∧ level_of k s' = level_of k s.
Proof.
  intros Hkd Hobject. revert s. induction d as [| d IH]; intros s.
  - replace k with 0 by lia. exists s. split; reflexivity.
  - destruct (decide (k = S d)) as [-> | Hk]; [exists s; split; reflexivity |].
    destruct d as [| n].
    + replace k with 0 by lia. exists s. split; reflexivity.
    + rewrite parse_json_step, Hobject. cbn [negb]. cbv zeta.
      match goal with |- ∃ s', parse_json (S n) ?s2 value = _ ∧ _ =>
        destruct (IH ltac:(lia) s2) as (s' & Hrun & Hlevel); exists s'; split; [exact Hrun |];
        rewrite Hlevel
      end.
      destruct (isArray (member "transformation" value)), (isArray (member "camera" value));
        rewrite ?(foldl_keeps (level_of k) (json_transformation (S (S n))))
          by (intros; apply json_transformation_members; exact Hk);
        rewrite ?(foldl_keeps (level_of k) (json_camera (S (S n)) _))
          by (intros; apply json_camera_members; exact Hk);
        reflexivity.
Qed.

(** What a camera entry of the JSON value cannot change at dimension [k]
    when the mode is [polar]: the vector the mode does not select, the vector
    [to], the matrix and the sizes of both camera vectors. *)
Lemma json_camera_rest (k d : nat) (polar : bool) (s : state Q) (c : json Q) :
  (λ l, (camera_of (negb polar) l, to l, transformation l,
         length (fromp l), length (from l))) <$> level_of k (json_camera d polar s c)
  = (λ l, (camera_of (negb polar) l, to l, transformation l,
           length (fromp l), length (from l))) <$> level_of k s.
Proof.
  unfold json_camera. destruct (isArray c && (size c =? d)); [| reflexivity].
  apply (foldl_keeps (λ s, _ <$> level_of k s)). intros s0 i.
  apply (store_keeps (λ s, _ <$> level_of k s)). intros q s1.
  destruct (decide (k = d)) as [-> | Hkd].
  - destruct polar; unfold assign_fromp, assign_from; rewrite level_of_at_level;
      destruct (level_of d s1) as [lv |]; simpl; rewrite ?length_insert; reflexivity.
  - destruct polar; unfold assign_fromp, assign_from;
      rewrite level_of_at_level_ne by exact Hkd; reflexivity.
Qed.

Lemma json_transformation_cameras (k d : nat) (s : state Q) (t : json Q) :
  (λ l, (fromp l, from l, to l)) <$> level_of k (json_transformation d s t)
  = (λ l, (fromp l, from l, to l)) <$> level_of k s.
Proof.
  unfold json_transformation.
  destruct (isArray t && (size t =? (d + 1) * (d + 1))); [| reflexivity].
  apply (foldl_keeps (λ s, _ <$> level_of k s)). intros s0 i.
  apply (foldl_keeps (λ s, _ <$> level_of k s)). intros s1 j.
  apply (store_keeps (λ s, _ <$> level_of k s)). intros q s2.
  destruct (decide (k = d)) as [-> | Hkd].
  - unfold assign_cell. rewrite level_of_at_level.
    destruct (level_of d s2) as [lv |]; reflexivity.
  - unfold assign_cell. rewrite level_of_at_level_ne by exact Hkd. reflexivity.
Qed.

(** X9.  In an object whose [camera] member lists an array of [k] numbers,
    followed only by entries of other sizes, the JSON [parse] of a state of
    [d >= k] dimensions stores these numbers, in order, as the camera of
    dimension [k]: in [fromp] when [polar] is true and in [from] otherwise.
    The other of the two vectors and the vector [to] are as before. *)
Theorem json_camera_is_stored (d k : nat) (s : state Q) (value : json Q)
    (earlier later : list (json Q)) (qs : list Q) (l : level Q) :
  k ≤ d →
  isObject value = true →
  member "camera" value = JArray (earlier ++ numbers qs :: later) →
  length qs = k →
  Forall (λ c, size c ≠ k) later →
  level_of k s = Some l → length (fromp l) = k → length (from l) = k →
  ∃ l',
    level_of k (parse_json d s value).1 = Some l' ∧
    camera_of (truth (member "polar" value)) l' = qs ∧
    camera_of (negb (truth (member "polar" value))) l'
      = camera_of (negb (truth (member "polar" value))) l ∧
    to l' = to l.
Proof.
  intros Hkd Hobject Hcamera Hqs Hlater Hl Hfromp Hfrom.
  destruct (parse_json_upper d k s value Hkd Hobject) as (s' & -> & Hlevel).
  rewrite <- Hlevel in Hl. clear Hlevel s Hkd d. rename s' into s, k into d.
  assert (Hd : 2 ≤ d).
  { unfold level_of in Hl. destruct (Nat.ltb_spec d 2); [discriminate | assumption]. }
  destruct d as [| [| n]]; [lia | lia |].
  rewrite parse_json_step, Hobject. cbn [negb]. cbv zeta.
  rewrite parse_json_lower_members by lia.
  rewrite Hcamera. cbn [isArray toArray].
  set (polar := truth (member "polar" value)).
  set (s1 := foldl (json_camera (S (S n)) polar) s (earlier ++ numbers qs :: later)).
  assert (Hs1 : ∃ l',
    level_of (S (S n)) s1 = Some l' ∧ camera_of polar l' = qs ∧
    camera_of (negb polar) l' = camera_of (negb polar) l ∧ to l' = to l).
  { subst s1. rewrite foldl_app. cbn [foldl].
    rewrite (foldl_skip (json_camera (S (S n)) polar) _ _ _
               (λ s0 c, json_camera_skip (S (S n)) polar s0 c) Hlater).
    pose proof (foldl_keeps
      (λ s, (λ l, (camera_of (negb polar) l, to l, transformation l,
                   length (fromp l), length (from l))) <$> level_of (S (S n)) s)
      (json_camera (S (S n)) polar) earlier s
      (λ s0 c, json_camera_rest (S (S n)) (S (S n)) polar s0 c)) as Hearlier.
    cbv beta in Hearlier. rewrite Hl in Hearlier.
    destruct (level_of (S (S n)) (foldl (json_camera (S (S n)) polar) s earlier))
      as [l0 |] eqn:Hl0; [| discriminate].
    simpl in Hearlier. injection Hearlier as Hother Hto _ Hfromp0 Hfrom0.
    rewrite (json_camera_numbers (S (S n)) polar _ qs l0 Hqs Hl0) by lia.
    rewrite level_of_at_level, Hl0. eexists. split; [reflexivity |].
    destruct polar; simpl in *; repeat split; assumption. }
  destruct Hs1 as (l1 & Hl1 & Hselected & Hother & Hto).
  pose proof (λ ts, foldl_keeps
    (λ s, (λ l, (fromp l, from l, to l)) <$> level_of (S (S n)) s)
    (json_transformation (S (S n))) ts s1
    (λ s0 t, json_transformation_cameras (S (S n)) (S (S n)) s0 t)) as Hts.
  cbv beta in Hts.
  assert (Hs2 : ∀ s2,
    (λ l, (fromp l, from l, to l)) <$> level_of (S (S n)) s2
      = (λ l, (fromp l, from l, to l)) <$> level_of (S (S n)) s1 →
    ∃ l', level_of (S (S n)) s2 = Some l' ∧ camera_of polar l' = qs ∧
          camera_of (negb polar) l' = camera_of (negb polar) l ∧ to l' = to l).
  { intros s2 Hsame. rewrite Hl1 in Hsame.
    destruct (level_of (S (S n)) s2) as [l2 |]; [| discriminate].
    simpl in Hsame. injection Hsame as Hfp Hf Ht.
    exists l2. split; [reflexivity |].
    unfold camera_of in *. destruct polar; simpl in *; repeat split; congruence. }
  destruct (isArray (member "transformation" value)); apply Hs2; [apply Hts | reflexivity].
Qed.

Lemma foldl_inv {A} (P : state Q → Prop) (step : state Q → A → state Q) (l : list A)
    (s : state Q) :
  (∀ s a, P s → P (step s a)) → P s → P (foldl step s l).
Proof.
  intros Hstep. revert s. induction l as [| a l IH]; intros s Hs; simpl; [exact Hs |].
  apply IH, Hstep, Hs.
Qed.

Lemma foldl_cells (ins : nat → list Q → list Q) (i : nat) (js : list nat) (lv : level Q) :
  foldl (λ lv j, set_transformation (alter (ins j) i (transformation lv)) lv) lv js
  = set_transformation
      (alter (λ row, foldl (λ r j, ins j r) row js) i (transformation lv)) lv.
Proof.
  revert lv. induction js as [| j js IH]; intros lv; simpl.
  - rewrite list_alter_id by reflexivity. destruct lv; reflexivity.
  - rewrite IH. simpl. rewrite list_alter_alter_eq. reflexivity.
Qed.

Lemma foldl_rows (f : nat → list Q → list Q) (ks : list nat) (lv : level Q) :
  foldl (λ lv i, set_transformation (alter (f i) i (transformation lv)) lv) lv ks
  = set_transformation (foldl (λ m i, alter (f i) i m) (transformation lv) ks) lv.
Proof.
  revert lv. induction ks as [| i ks IH]; intros lv; simpl.
  - destruct lv; reflexivity.
  - rewrite IH. reflexivity.
Qed.

Lemma lookup_foldl_alter {A} (f : nat → A → A) (ks : list nat) (m : list A) (a : nat) :
  NoDup ks →
  foldl (λ m i, alter (f i) i m) m ks !! a
  = if decide (a ∈ ks) then f a <$> m !! a else m !! a.
Proof.
  intros Hnodup. revert m. induction Hnodup as [| i ks Hi _ IH]; intros m; simpl.
  - reflexivity.
  - rewrite IH. destruct (decide (a = i)) as [-> | Hai].
    + rewrite decide_False by exact Hi. rewrite list_lookup_alter_eq.
      rewrite decide_True by apply list_elem_of_here. reflexivity.
    + rewrite list_lookup_alter_ne by congruence.
      destruct (decide (a ∈ ks)) as [Hin | Hout].
      * rewrite decide_True by (by apply list_elem_of_further). reflexivity.
      * rewrite decide_False; [reflexivity |].
        intros Hin. apply elem_of_cons in Hin as [-> | Hin]; contradiction.
Qed.

Lemma rows_written (d : nat) (q : nat → nat → Q) (m : list (list Q)) :
  square d m →
  foldl (λ m i, alter (λ row, foldl (λ r j, <[j := q i j]> r) row (seq 0 (S d))) i m)
    m (seq 0 (S d))
  = (λ i, q i <$> seq 0 (S d)) <$> seq 0 (S d).
Proof.
  intros [Hrows Hcolumns]. apply list_eq. intros a.
  rewrite lookup_foldl_alter by apply NoDup_seq.
  rewrite list_lookup_fmap.
  destruct (decide (a < S d)) as [Ha | Ha].
  - rewrite decide_True by (apply elem_of_seq; lia).
    rewrite lookup_seq_lt by exact Ha.
    destruct (lookup_lt_is_Some_2 m a ltac:(lia)) as [row Hrow]. rewrite Hrow.
    cbn [fmap option_fmap option_map]. f_equal.
    pose proof (proj1 (Forall_lookup _ _) Hcolumns a row Hrow) as Hlen.
    cbv beta in Hlen. rewrite <- Hlen. apply foldl_insert_all.
  - rewrite decide_False by (rewrite elem_of_seq; lia).
    rewrite lookup_seq_ge by lia. apply lookup_ge_None_2. lia.
Qed.

Lemma json_transformation_numbers (d : nat) (s : state Q) (qs : list Q) (l : level Q) :
  length qs = (d + 1) * (d + 1) → level_of d s = Some l → square d (transformation l) →
  json_transformation d s (numbers qs) = at_level d (set_transformation (row_major d qs)) s.
Proof.
  intros Hqs Hl Hsquare. unfold json_transformation.
  replace (isArray (numbers qs) && (size (numbers qs) =? (d + 1) * (d + 1))) with true.
  2:{ unfold size, numbers, toArray, isArray. rewrite length_fmap, Hqs, Nat.eqb_refl.
      reflexivity. }
  rewrite (foldl_ext_in _
    (λ s0 i, at_level d
       (λ lv, foldl
          (λ lv j, set_transformation
             (alter (λ row, <[j := default zero (qs !! (i * (d + 1) + j))]> row) i
                (transformation lv)) lv)
          lv (seq 0 (S d))) s0)).
  2:{ intros s0 i Hi. apply elem_of_seq in Hi.
      rewrite <- (foldl_at_level d
        (λ j lv, set_transformation
           (alter (λ row, <[j := default zero (qs !! (i * (d + 1) + j))]> row) i
              (transformation lv)) lv)).
      apply foldl_ext_in. intros s1 j Hj. apply elem_of_seq in Hj.
      rewrite item_numbers by nia. reflexivity. }
  rewrite (foldl_at_level d
    (λ i lv, foldl
       (λ lv j, set_transformation
          (alter (λ row, <[j := default zero (qs !! (i * (d + 1) + j))]> row) i
             (transformation lv)) lv)
       lv (seq 0 (S d)))).
  apply at_level_ext. intros lv Hlv. rewrite Hl in Hlv. injection Hlv as <-.
  rewrite (foldl_ext_in _
    (λ lv i, set_transformation
       (alter (λ row, foldl (λ r j, <[j := default zero (qs !! (i * (d + 1) + j))]> r)
                        row (seq 0 (S d))) i (transformation lv)) lv)).
  2:{ intros lv i _.
      apply (foldl_cells (λ j row, <[j := default zero (qs !! (i * (d + 1) + j))]> row)). }
  rewrite (foldl_rows
    (λ i row, foldl (λ r j, <[j := default zero (qs !! (i * (d + 1) + j))]> r)
                row (seq 0 (S d)))).
  rewrite (rows_written d (λ i j, default zero (qs !! (i * (d + 1) + j)))) by exact Hsquare.
  reflexivity.
Qed.

Lemma square_row_major (d : nat) (qs : list Q) : square d (row_major d qs).
Proof.
  unfold square, row_major. rewrite length_fmap, length_seq. split; [reflexivity |].
  apply Forall_fmap, Forall_forall. intros i _. simpl.
  rewrite length_fmap, length_seq. reflexivity.
Qed.

(** The matrix of dimension [d] stays a square matrix, and the vector [to]
    stays as it is, under every entry of the [transformation] member. *)
Lemma json_transformation_square (d : nat) (v : list Q) (s : state Q) (t : json Q) :
  (∃ l, level_of d s = Some l ∧ to l = v ∧ square d (transformation l)) →
  ∃ l, level_of d (json_transformation d s t) = Some l ∧ to l = v ∧
       square d (transformation l).
Proof.
  unfold json_transformation.
  destruct (isArray t && (size t =? (d + 1) * (d + 1))); [| auto].
  apply (foldl_inv (λ s, ∃ l, level_of d s = Some l ∧ to l = v ∧ square d (transformation l))).
  intros s0 i. apply (foldl_inv
    (λ s, ∃ l, level_of d s = Some l ∧ to l = v ∧ square d (transformation l))).
  intros s1 j (l & Hl & Hto & Hlen & Hrows).
  destruct (item (i * (d + 1) + j) t); simpl; eauto 10.
  - exists l. repeat split; assumption.
  - exists l. repeat split; assumption.
  - unfold assign_cell. rewrite level_of_at_level, Hl. simpl.
    eexists. split; [reflexivity |]. simpl. split; [exact Hto |]. split.
    + rewrite length_alter. exact Hlen.
    + apply Forall_alter; [exact Hrows |]. intros row _ Hrow.
      rewrite length_insert. exact Hrow.
  - exists l. repeat split; assumption.
  - exists l. repeat split; assumption.
  - exists l. repeat split; assumption.
Qed.

(** X10.  In an object whose [transformation] member lists an array of
    (k+1)(k+1) numbers, followed only by entries of other sizes, the JSON
    [parse] of a state of [d >= k] dimensions stores these numbers as the
    matrix of dimension [k], row by row: the number at position i(k+1)+j
    becomes the cell in row i and column j.  The vector [to] is as before. *)
Theorem json_transformation_is_stored (d k : nat) (s : state Q) (value : json Q)
    (earlier later : list (json Q)) (qs : list Q) (l : level Q) :
  k ≤ d →
  isObject value = true →
  member "transformation" value = JArray (earlier ++ numbers qs :: later) →
  length qs = (k + 1) * (k + 1) →
  Forall (λ t, size t ≠ (k + 1) * (k + 1)) later →
  level_of k s = Some l → square k (transformation l) →
  ∃ l',
    level_of k (parse_json d s value).1 = Some l' ∧
    transformation l' = row_major k qs ∧
    (∀ i j, i ≤ k → j ≤ k →
       matrix_cell k i j (parse_json d s value).1 = qs !! (i * (k + 1) + j)) ∧
    to l' = to l.
Proof.
  intros Hkd Hobject Htransformation Hqs Hlater Hl Hsquare.
  destruct (parse_json_upper d k s value Hkd Hobject) as (s' & -> & Hlevel).
  rewrite <- Hlevel in Hl. clear Hlevel s Hkd d. rename s' into s, k into d.
  assert (Hd : 2 ≤ d).
  { unfold level_of in Hl. destruct (Nat.ltb_spec d 2); [discriminate | assumption]. }
  assert (Hstored : ∃ l',
    level_of d (parse_json d s value).1 = Some l' ∧
    transformation l' = row_major d qs ∧ to l' = to l).
  { destruct d as [| [| n]]; [lia | lia |].
    rewrite parse_json_step, Hobject. cbn [negb]. cbv zeta.
    rewrite parse_json_lower_members by lia.
    rewrite Htransformation. cbn [isArray toArray].
    match goal with
    | |- context [foldl (json_transformation _) ?s1 _] =>
        assert (Hs1 : ∃ l1, level_of (S (S n)) s1 = Some l1 ∧ to l1 = to l ∧
                            square (S (S n)) (transformation l1));
        [| generalize dependent s1]
    end.
    { pose proof (foldl_keeps
        (λ s, (λ l, (camera_of (negb (truth (member "polar" value))) l, to l,
                     transformation l, length (fromp l), length (from l)))
              <$> level_of (S (S n)) s)
        (json_camera (S (S n)) (truth (member "polar" value)))
        (toArray (member "camera" value)) s
        (λ s0 c, json_camera_rest (S (S n)) (S (S n)) _ s0 c)) as Hcameras.
      cbv beta in Hcameras. rewrite Hl in Hcameras.
      destruct (isArray (member "camera" value)); [| exists l; auto].
      destruct (level_of (S (S n)) (foldl _ s (toArray (member "camera" value))))
        as [l1 |]; [| discriminate].
      simpl in Hcameras. injection Hcameras as _ Hto Hmatrix _ _.
      exists l1. rewrite Hto, Hmatrix. auto. }
    intros s1 Hs1. rewrite foldl_app. cbn [foldl].
    rewrite (foldl_skip (json_transformation (S (S n))) _ _ _
               (λ s0 t, json_transformation_skip (S (S n)) s0 t) Hlater).
    destruct (foldl_inv _ (json_transformation (S (S n))) earlier s1
                (json_transformation_square (S (S n)) (to l)) Hs1)
      as (l2 & Hl2 & Hto2 & Hsquare2).
    rewrite (json_transformation_numbers (S (S n)) _ qs l2 Hqs Hl2 Hsquare2).
    rewrite level_of_at_level, Hl2. eexists. split; [reflexivity |].
    split; [reflexivity | exact Hto2]. }
  destruct Hstored as (l' & Hl' & Hmatrix & Hto).
  exists l'. split; [exact Hl' |]. split; [exact Hmatrix |]. split; [| exact Hto].
  intros i j Hi Hj. unfold matrix_cell. rewrite Hl'. cbn [mbind option_bind].
  rewrite Hmatrix. unfold row_major. rewrite list_lookup_fmap, lookup_seq_lt by lia.
  cbn [fmap option_fmap option_map mbind option_bind].
  rewrite list_lookup_fmap, lookup_seq_lt by lia.
  cbn [fmap option_fmap option_map]. rewrite !Nat.add_0_l.
  destruct (lookup_lt_is_Some_2 qs (i * (d + 1) + j) ltac:(nia)) as [q ->]. reflexivity.
Qed.

Lemma json_colour_run (v : json Q) (update : (colour Q → colour Q) → state Q → state Q)
    (s : state Q) :
  json_colour v update s =
    match listed_colour v with
    | Some c =>
        update (set_alpha (alpha c)) (update (set_blue (blue c))
          (update (set_green (green c)) (update (set_red (red c)) s)))
    | None => s
    end.
Proof.
  unfold json_colour, listed_colour, item, size, toArray, isArray.
  destruct v as [| | | | l |]; try reflexivity.
  destruct l as [| x0 l]; try reflexivity.
  destruct l as [| x1 l]; try reflexivity; destruct x1; try reflexivity;
    destruct l as [| x2 l]; try reflexivity; destruct x2; try reflexivity;
    destruct l as [| x3 l]; try reflexivity; destruct x3; try reflexivity;
    destruct l as [| x4 l]; try reflexivity; destruct x4; reflexivity.
Qed.

Lemma parse_json_reduces (d : nat) (s : state Q) (value : json Q) :
  ∃ s0, parse_json d s value = parse_json_fix_point s0 value ∧
        set_levels [] s0 = set_levels [] s.
Proof.
  revert s. induction d as [| d IH]; intros s; [exists s; split; reflexivity |].
  destruct d as [| n]; [exists s; split; reflexivity |].
  rewrite parse_json_step. unfold parse_json_fix_point.
  destruct (negb (isObject value)) eqn:Hobject; [exists s; split; reflexivity |].
  cbv zeta.
  match goal with |- ∃ s0, parse_json (S n) ?s2 value = _ ∧ _ =>
    destruct (IH s2) as (s0 & Hrun & Hbase); exists s0; split
  end.
  - rewrite Hrun. unfold parse_json_fix_point. rewrite Hobject. reflexivity.
  - rewrite Hbase.
    assert (Hlevel : ∀ k (g : level Q → level Q) s1,
              set_levels [] (at_level k g s1) = set_levels [] s1).
    { intros k g s1. unfold at_level. destruct (k <? 2); reflexivity. }
    assert (Htr : ∀ (s1 : state Q) (t : json Q),
              set_levels [] (json_transformation (S (S n)) s1 t) = set_levels [] s1).
    { intros s1 t. unfold json_transformation.
      destruct (isArray t && (size t =? (S (S n) + 1) * (S (S n) + 1))); [| reflexivity].
      apply (foldl_keeps (λ s : state Q, set_levels [] s)). intros s2 i.
      apply (foldl_keeps (λ s : state Q, set_levels [] s)). intros s3 j.
      apply (store_keeps (λ s : state Q, set_levels [] s)). intros. apply Hlevel. }
    assert (Hca : ∀ polar (s1 : state Q) (c : json Q),
              set_levels [] (json_camera (S (S n)) polar s1 c) = set_levels [] s1).
    { intros polar s1 c. unfold json_camera.
      destruct (isArray c && (size c =? S (S n))); [| reflexivity].
      apply (foldl_keeps (λ s : state Q, set_levels [] s)). intros s2 i.
      apply (store_keeps (λ s : state Q, set_levels [] s)). intros.
      destruct polar; apply Hlevel. }
    assert (Htrs : ∀ (s1 : state Q) (ts : list (json Q)),
              set_levels [] (foldl (json_transformation (S (S n))) s1 ts) = set_levels [] s1).
    { intros s1 ts. apply (foldl_keeps (λ s : state Q, set_levels [] s)), Htr. }
    assert (Hcas : ∀ polar (s1 : state Q) (cs : list (json Q)),
              set_levels [] (foldl (json_camera (S (S n)) polar) s1 cs) = set_levels [] s1).
    { intros polar s1 cs. apply (foldl_keeps (λ s : state Q, set_levels [] s)), Hca. }
    destruct (isArray (member "transformation" value)), (isArray (member "camera" value));
      rewrite ?Htrs, ?Hcas; reflexivity.
Qed.

Lemma base_colours (s0 s : state Q) :
  set_levels [] s0 = set_levels [] s →
  background s0 = background s ∧ wireframe s0 = wireframe s ∧ surface s0 = surface s.
Proof.
  intros Hbase.
  change (background (set_levels [] s0) = background (set_levels [] s) ∧
          wireframe (set_levels [] s0) = wireframe (set_levels [] s) ∧
          surface (set_levels [] s0) = surface (set_levels [] s)).
  rewrite Hbase. repeat split.
Qed.

(** X11.  The JSON [parse] of an object replaces a colour as a whole or not at
    all: [background], [wireframe] and [surface] become the entries 1 to 4 of
    the member of that name when it is an array of at least five entries of
    which these four are numbers (entry 0 is never read), and are as before
    otherwise, e.g. for an array of four numbers. *)
Theorem json_colours_all_or_nothing (d : nat) (s : state Q) (value : json Q) :
  isObject value = true →
  background (parse_json d s value).1
    = default (background s) (listed_colour (member "background" value)) ∧
  wireframe (parse_json d s value).1
    = default (wireframe s) (listed_colour (member "wireframe" value)) ∧
  surface (parse_json d s value).1
    = default (surface s) (listed_colour (member "surface" value)).
Proof.
  intros Hobject. destruct (parse_json_reduces d s value) as (s0 & -> & Hbase).
  destruct (base_colours s0 s Hbase) as (<- & <- & <-). clear Hbase.
  unfold parse_json_fix_point. rewrite Hobject. cbn [negb]. cbv zeta. cbn [fst].
  rewrite !json_colour_run.
  match goal with
  | |- context [json_flag ?v ?f ?t] =>
      assert (Hflags : background (json_flag v f t) = background s0
                       ∧ wireframe (json_flag v f t) = wireframe s0
                       ∧ surface (json_flag v f t) = surface s0);
      [| generalize dependent (json_flag v f t)]
  end.
  { unfold json_flag.
    repeat match goal with |- context [if ?b then _ else _] => destruct b end;
      cbn [on_parameter set_parameter background wireframe surface];
      rewrite ?(store_keeps background), ?(store_keeps wireframe), ?(store_keeps surface)
        by reflexivity;
      repeat split; reflexivity. }
  intros s1 (Hbg & Hwf & Hsf). rewrite <- Hbg, <- Hwf, <- Hsf.
  destruct (listed_colour (member "background" value)) as [[] |],
           (listed_colour (member "wireframe" value)) as [[] |],
           (listed_colour (member "surface" value)) as [[] |];
    repeat split; reflexivity.
Qed.

(** X12.  The JSON [parse] assigns none of: the bound renderer, the export
    multiplier, the id prefix and the vectors [to]; the number of dimensions
    of the state is as before. *)
Theorem json_parse_leaves_alone (d : nat) (s : state Q) (value : json Q) :
  model (parse_json d s value).1 = model s ∧
  exportMultiplier (parse_json d s value).1 = exportMultiplier s ∧
  idPrefix (parse_json d s value).1 = idPrefix s ∧
  to <$> levels (parse_json d s value).1 = to <$> levels s ∧
  length (levels (parse_json d s value).1) = length (levels s).
Proof.
  assert (Hlevel : ∀ k (g : level Q → level Q) (s1 : state Q),
            (∀ lv, to (g lv) = to lv) →
            (model (at_level k g s1), exportMultiplier (at_level k g s1),
             idPrefix (at_level k g s1), to <$> levels (at_level k g s1),
             length (levels (at_level k g s1)))
            = (model s1, exportMultiplier s1, idPrefix s1, to <$> levels s1,
               length (levels s1))).
  { intros k g s1 Hg. unfold at_level. destruct (k <? 2); [reflexivity |]. simpl.
    rewrite (fmap_alter_same to g) by exact Hg. rewrite length_alter. reflexivity. }
  pose proof (parse_json_keeps
    (λ s : state Q, (model s, exportMultiplier s, idPrefix s, to <$> levels s,
                     length (levels s))) value) as Hkeeps.
  cbv beta in Hkeeps. specialize (Hkeeps
    ltac:(intros; destruct (truth (member "polar" value));
          unfold assign_fromp, assign_from; apply Hlevel; reflexivity)
    ltac:(intros; unfold assign_cell; apply Hlevel; reflexivity)
    ltac:(reflexivity) ltac:(reflexivity) ltac:(reflexivity) ltac:(reflexivity) d s).
  injection Hkeeps as -> -> -> -> ->. repeat split; reflexivity.
Qed.

End JsonDecode.

(** ** The XML decoder and the dimensions of a document *)
Section OtherDimensions.
Context {Q : Type} `{!Scalar Q} `{!XPath}.

(** X13.  The XML [parse] assigns the members of dimension [k] only from a
    [camera] element with [k] attributes, a [transformation] element with
    [depth] [k] and a [transformation] element with (k+1)(k+1) attributes.
    With no such element in the document the members of dimension [k] are as
    before, whatever the other elements hold and however the call ends. *)
Theorem xml_elements_of_other_sizes_are_skipped (d k : nat) (s : state Q) (p : parser) :
  Forall (λ e, count_is "camera" k e = false) (document p) →
  Forall (λ e, depth_is "transformation" k e = false) (document p) →
  Forall (λ e, count_is "transformation" ((k + 1) * (k + 1)) e = false) (document p) →
  level_of k (parse d (s, p)).1.1 = level_of k s.
Proof.
  intros Hcamera Hreset Hcells.
  enough (Hall : ∀ w, source w = (valid p, document p) →
                      members k (parse d w).1 = members k w)
    by exact (Hall (s, p) eq_refl).
  induction d as [| d IH]; [intros w _; apply parse_fix_point_members |].
  destruct d as [| n]; [intros w _; apply parse_fix_point_members |].
  intros [s0 p0] Hsource.
  assert (Hdoc : document p0 = document p) by (injection Hsource; auto).
  destruct (decide (k = S (S n))) as [-> | Hk].
  - change (parse (S (S n))) with
      (bind (ask valid) (λ ok : bool,
         if negb ok then ret false
         else bind (camera (S (S n))) (λ _, bind (identity_reset (S (S n))) (λ _,
                bind (cells (S (S n))) (λ _, parse (Q:=Q) (S n)))))).
    rewrite bind_run. unfold ask at 1. cbv beta iota.
    destruct (negb (valid (s0, p0).2)); [reflexivity |].
    rewrite bind_run. unfold camera. rewrite skip_run by (rewrite Hdoc; exact Hcamera).
    rewrite bind_run. unfold identity_reset.
    rewrite skip_run by (rewrite Hdoc; exact Hreset).
    rewrite bind_run. unfold cells. rewrite skip_run by (rewrite Hdoc; exact Hcells).
    apply (parse_members (S (S n)) (S n)). lia.
  - change (parse (S (S n))) with
      (bind (ask valid) (λ ok : bool,
         if negb ok then ret false
         else bind (camera (S (S n))) (λ _, bind (identity_reset (S (S n))) (λ _,
                bind (cells (S (S n))) (λ _, parse (Q:=Q) (S n)))))).
    rewrite bind_run. unfold ask at 1. cbv beta iota.
    destruct (negb (valid (s0, p0).2)); [reflexivity |].
    rewrite bind_run.
    pose proof (camera_members k (S (S n)) Hk (s0, p0)) as H1.
    pose proof (camera_source (Q:=Q) (S (S n)) (s0, p0)) as S1.
    destruct (camera (S (S n)) (s0, p0)) as [w1 [[] | f]]; [| exact H1].
    rewrite bind_run.
    pose proof (identity_reset_members k (S (S n)) Hk w1) as H2.
    pose proof (identity_reset_source (Q:=Q) (S (S n)) w1) as S2.
    destruct (identity_reset (S (S n)) w1) as [w2 [[] | f]];
      [| simpl in *; congruence].
    rewrite bind_run.
    pose proof (cells_members k (S (S n)) Hk w2) as H3.
    pose proof (cells_source (Q:=Q) (S (S n)) w2) as S3.
    destruct (cells (S (S n)) w2) as [w3 [[] | f]]; [| simpl in *; congruence].
    rewrite IH by (simpl in *; congruence). simpl in *. congruence.
Qed.



End OtherDimensions.

(** ** Dispatch and the XML [parseModel] *)
Section DispatchContract.
Context {Q : Type}.

Lemma geometry_with_frame (table : list entry) (fresh : nat) (r : request) (s : state Q) :
  set_model None (geometry_with table fresh r s).1 = set_model None s.
Proof.
  unfold geometry_with, pass. destruct (find (serves r) table); [| reflexivity].
  rewrite apply_run. reflexivity.
Qed.

Lemma model_request_frame :
  preserves (λ w : state Q * parser, (w.1, valid w.2, document w.2)) (model_request (Q:=Q)).
Proof.
  unfold model_request.
  apply preserves_bind; [apply preserves_ask |]. intros ok.
  destruct (negb ok); [apply preserves_ret |].
  apply preserves_bind; [apply preserves_ask |]. intros value.
  apply preserves_bind.
  { intros [s p]. unfold update_context, updateContext. simpl.
    destruct (seek has_depth_and_type (document p)); reflexivity. }
  intros moved. destruct moved; [| apply preserves_ret].
  apply preserves_bind; [apply preserves_ask |]. intros depth_value.
  apply preserves_bind.
  { unfold stoi_of. destruct (stoi depth_value); [apply preserves_ret | apply preserves_abort]. }
  intros depth. apply preserves_bind; [apply preserves_ask |]. intros type.
  apply preserves_bind; [apply preserves_ask |]. intros render_value.
  apply preserves_bind; [| intros; apply preserves_ret].
  destruct (nonempty render_value); [| apply preserves_ret].
  unfold stoi_of. destruct (stoi render_value); [apply preserves_ret | apply preserves_abort].
Qed.

(** X16.  However it ends, the XML [parseModel] changes nothing of the state
    but the bound renderer, and nothing of the parser but the context.  With
    no [model] element that has both a [depth] and a [type], it returns
    [false], makes no call of dispatch and leaves the context where it was,
    also when a renderer is bound. *)
Theorem parseModel_binds_only_the_model (table : list entry) (fresh : nat)
    (s : state Q) (p : parser) :
  set_model None (parseModel table fresh (s, p)).1.1 = set_model None s ∧
  valid (parseModel table fresh (s, p)).1.2 = valid p ∧
  document (parseModel table fresh (s, p)).1.2 = document p ∧
  (seek has_depth_and_type (document p) = [] →
   model_request (s, p) = ((s, p), Return None) ∧
   parseModel table fresh (s, p) = ((s, p), Return false)).
Proof.
  assert (Hframe : set_model None (parseModel table fresh (s, p)).1.1 = set_model None s ∧
                   valid (parseModel table fresh (s, p)).1.2 = valid p ∧
                   document (parseModel table fresh (s, p)).1.2 = document p).
  { unfold parseModel. rewrite bind_run.
    pose proof (model_request_frame (s, p)) as Hrequest.
    destruct (model_request (s, p)) as [[s1 p1] [[r |] | f]]; simpl in Hrequest;
      injection Hrequest as Hs Hv Hd; subst s1; cbv beta iota; unfold ret; cbn [fst snd].
    - pose proof (geometry_with_frame table fresh r s) as Hdispatch.
      destruct (geometry_with table fresh r s) as [s2 b]. cbn [fst snd] in *.
      repeat split; assumption.
    - repeat split; assumption.
    - repeat split; assumption. }
  destruct Hframe as (H1 & H2 & H3). repeat split; try assumption.
  - unfold model_request. rewrite bind_run. unfold ask at 1. cbv beta iota.
    destruct (negb (valid (s, p).2)); [reflexivity |].
    rewrite bind_run. unfold ask at 1. cbv beta iota.
    rewrite bind_run. unfold update_context, updateContext. cbn [fst snd]. rewrite H.
    reflexivity.
  - unfold parseModel. rewrite bind_run.
    unfold model_request. rewrite bind_run. unfold ask at 1. cbv beta iota.
    destruct (negb (valid (s, p).2)); [reflexivity |].
    rewrite bind_run. unfold ask at 1. cbv beta iota.
    rewrite bind_run. unfold update_context, updateContext. cbn [fst snd]. rewrite H.
    reflexivity.
Qed.


End DispatchContract.

(** ** The settings of the iOS front end *)
Section SettingsPolicy.
Variable MAXDEPTH : Z.

Lemma updateModel_no_model (u : defaults) :
  model_key u = None → updateModel MAXDEPTH u = (u, None).
Proof. intros Hmodel. unfold updateModel. rewrite Hmodel. reflexivity. Qed.

Lemma updateModel_run (u : defaults) (model : string) :
  (3 ≤ MAXDEPTH < 2 ^ 32)%Z →
  model_key u = Some model →
  ∃ d rd,
    updateModel MAXDEPTH u
      = (Defaults (Some model) d rd, Some (Request "cartesian" model d rd)) ∧
    (2 ≤ d ≤ rd)%Z ∧ (3 ≤ rd ≤ MAXDEPTH)%Z ∧
    (String.eqb model "plane" || String.eqb model "moebius-strip" ||
       String.eqb model "klein-bagel" = true → d = 2%Z) ∧
    (String.eqb model "plane" || String.eqb model "moebius-strip" ||
       String.eqb model "klein-bagel" = false →
     String.eqb model "sphere" = true → (d < rd)%Z).
Proof.
  intros Hmax Hmodel. unfold updateModel. rewrite Hmodel.
  destruct u as [m d rd]. cbn [model_key depth_key renderDepth_key] in *. subst m.
  destruct (String.eqb model "plane" || String.eqb model "moebius-strip" ||
            String.eqb model "klein-bagel");
    [| destruct (String.eqb model "sphere")];
    compare_settings; simpl in *;
    rewrite ?wrap_NSInteger_small in * by lia;
    rewrite ?to_unsigned_int_small by lia;
    (eexists _, _; split; [reflexivity |]);
    repeat split; intros; try discriminate; lia.
Qed.

(** X18.  For every model name, with 3 <= MAXDEPTH < 2^32, [updateModel]
    requests the model with the depth and render-depth it leaves in the
    settings, and these satisfy 2 <= depth <= render-depth <= MAXDEPTH and
    3 <= render-depth, whatever the settings held before (negative or huge
    values included); the model setting itself is not changed.  The same
    holds for [reconfigureWithIndex] on a change of the model, the depth or
    the render-depth. *)
Theorem settings_are_normalised (u : defaults) (model : string) :
  (3 ≤ MAXDEPTH < 2 ^ 32)%Z →
  model_key u = Some model →
  settled MAXDEPTH model (updateModel MAXDEPTH u) ∧
  ∀ index, index ∈ ["model"; "depth"; "renderDepth"] →
    settled MAXDEPTH model (reconfigureWithIndex MAXDEPTH index u).
Proof.
  intros Hmax Hmodel.
  assert (Hall : ∀ v, model_key v = Some model → settled MAXDEPTH model (updateModel MAXDEPTH v)).
  { intros v Hv.
    destruct (updateModel_run v model Hmax Hv) as (d & rd & -> & Hd & Hrd & _).
    eexists _, _. split; [reflexivity |]. simpl. repeat split; lia. }
  split; [apply Hall, Hmodel |].
  intros index Hindex. unfold reconfigureWithIndex.
  apply elem_of_cons in Hindex as [-> | Hindex]; [apply Hall, Hmodel |].
  apply elem_of_cons in Hindex as [-> | Hindex].
  { cbn [String.eqb Ascii.eqb Bool.eqb].
    apply Hall.
    match goal with |- context [if ?b then _ else _] => destruct b end; exact Hmodel. }
  apply elem_of_cons in Hindex as [-> | Hindex]; [| by apply elem_of_nil in Hindex].
  cbn [String.eqb Ascii.eqb Bool.eqb].
  apply Hall.
  match goal with |- context [if ?b then _ else _] => destruct b end; exact Hmodel.
Qed.

(** X19.  With 3 <= MAXDEPTH < 2^32, [updateModel] is idempotent: run on the
    settings it has left, it leaves them as they are and makes the same
    request again. *)
Theorem updateModel_settles (u : defaults) :
  (3 ≤ MAXDEPTH < 2 ^ 32)%Z →
  updateModel MAXDEPTH (updateModel MAXDEPTH u).1 = updateModel MAXDEPTH u.
Proof.
  intros Hmax. destruct (model_key u) as [model |] eqn:Hmodel.
  2:{ rewrite (updateModel_no_model u Hmodel). apply updateModel_no_model, Hmodel. }
  destruct (updateModel_run u model Hmax Hmodel) as (d & rd & -> & Hd & Hrd & Hflat & Hsphere).
  cbn [fst]. unfold updateModel. cbn [model_key depth_key renderDepth_key].
  destruct (String.eqb model "plane" || String.eqb model "moebius-strip" ||
            String.eqb model "klein-bagel");
    [specialize (Hflat eq_refl)
    | destruct (String.eqb model "sphere");
      [specialize (Hsphere eq_refl eq_refl) |]];
    compare_settings; simpl in *;
    rewrite ?to_unsigned_int_small by lia;
    first [reflexivity | lia].
Qed.

End SettingsPolicy.

(** ** The SVG renderer and what [metadata()] reads *)
Section VectorOutput.
Context {Q : Type} `{!Scalar Q} `{!XPath}.

(** X20.  [renderSVG::operator()] clears the output before it writes, embeds
    the document that [metadata()] writes for the state, and draws the solid
    faces before the wireframe path (the OpenGL renderer draws the wireframe
    first).  The camera matrices are updated first, and only when asked. *)
Theorem renderSVG_order (rd : nat) (m : renderer) (update GL3D : bool) (s : state Q) :
  ∃ i j k,
    renderSVG rd m update s !! i = Some (svg_metadata (metadata rd s)) ∧
    svg_position is_svg_renderSolid (renderSVG rd m update s) = Some j ∧
    svg_position is_svg_renderWireframe (renderSVG rd m update s) = Some k ∧
    i < j < k ∧
    svg_position is_svg_updateMatrix (renderSVG rd m update s)
      = (if update then Some 0 else None) ∧
    renderSVG rd m update s !! (if update then 1 else 0) = Some svg_reset_output ∧
    (∃ a b,
       position is_renderWireframe (renderGL GL3D update s) = Some a ∧
       position is_renderSolid (renderGL GL3D update s) = Some b ∧ a < b).
Proof.
  destruct update.
  - exists 3, 5, 7. repeat split; try reflexivity; try lia.
    unfold renderGL. destruct GL3D; [destruct (level_of 3 s) |];
      eexists _, _; repeat split; try reflexivity; simpl; lia.
  - exists 2, 4, 6. repeat split; try reflexivity; try lia.
    unfold renderGL. destruct GL3D; [destruct (level_of 3 s) |];
      eexists _, _; repeat split; try reflexivity; simpl; lia.
Qed.

Lemma camera_fragment_reads (d : nat) (polar : bool) (l l' : level Q) :
  camera_of polar l = camera_of polar l' →
  camera_fragment d polar l = camera_fragment d polar l'.
Proof.
  unfold camera_of, camera_fragment. destruct polar; intros ->; reflexivity.
Qed.

(** X21.  [metadata()] reads, of the members of each dimension, only the
    camera vector that the mode selects: two states that agree on the mode,
    the bound renderer, the radius, the precision, the export multiplier, the
    id prefix, the colours and, in every dimension from 3 to [d], that
    vector, are written as the same document, whatever their matrices, their
    vectors [to], their other camera vector and their other parameters. *)
Theorem metadata_reads_the_selected_camera (d : nat) (s t : state Q) :
  polarCoordinates s = polarCoordinates t →
  model s = model t →
  radius (parameter s) = radius (parameter t) →
  precision (parameter s) = precision (parameter t) →
  exportMultiplier s = exportMultiplier t →
  idPrefix s = idPrefix t →
  background s = background t → wireframe s = wireframe t → surface s = surface t →
  (∀ k, 3 ≤ k ≤ d →
     camera_of (polarCoordinates s) <$> level_of k s
     = camera_of (polarCoordinates s) <$> level_of k t) →
  metadata d s = metadata d t.
Proof.
  intros Hmode Hmodel Hradius Hprecision Hexport Hprefix Hbg Hwf Hsf Hcameras.
  assert (Hbase : metadata_base s = metadata_base t).
  { unfold metadata_base.
    rewrite Hmode, Hmodel, Hradius, Hprecision, Hexport, Hprefix, Hbg, Hwf, Hsf.
    reflexivity. }
  induction d as [| d IH]; [exact Hbase |].
  destruct d as [| [| n]]; [exact Hbase | exact Hbase |].
  rewrite !metadata_succ. rewrite IH by (intros k Hk; apply Hcameras; lia).
  specialize (Hcameras (S (S (S n))) ltac:(lia)).
  destruct (level_of (S (S (S n))) s) as [l |], (level_of (S (S (S n))) t) as [l' |];
    try discriminate; [| reflexivity].
  injection Hcameras as Hcamera.
  rewrite (camera_fragment_reads _ _ l l' Hcamera), Hmode. reflexivity.
Qed.

End VectorOutput.

Section FurtherExamples.
Import Samples MoreSamples Integers.
Local Open Scope Z_scope.

Lemma invalid_parser_decodes_nothing_witness :
  parse 4 (skewed4, Parser false identity_document []) =
    ((skewed4, Parser false identity_document []), Return false) ∧
  parseModel table 7 (skewed4, Parser false identity_document []) =
    ((skewed4, Parser false identity_document []), Return false).
Proof.
  apply (invalid_parser_decodes_nothing 4 table 7 skewed4 (Parser false identity_document [])).
  reflexivity.
Defined.

Lemma foreign_document_changes_nothing_witness :
  parse 4 (skewed4, parser_of foreign_document) =
    ((skewed4, parser_of foreign_document), Return true).
Proof.
  apply (foreign_document_changes_nothing 4 skewed4 (parser_of foreign_document)).
  - reflexivity.
  - repeat constructor.
Defined.

Lemma json_entries_of_other_sizes_are_skipped_witness :
  level_of 2 (parse_json 4 skewed4 two_cameras).1 = level_of 2 skewed4.
Proof.
  apply (json_entries_of_other_sizes_are_skipped 4 2 skewed4 two_cameras).
  - repeat constructor; unfold size; simpl; lia.
  - constructor.
Defined.

Lemma json_camera_is_stored_witness :
  ∃ l',
    level_of 4 (parse_json 4 skewed4 two_cameras).1 = Some l' ∧
    camera_of (truth (member "polar" two_cameras)) l' = [5; 6; 7; 8] ∧
    camera_of (negb (truth (member "polar" two_cameras))) l'
      = camera_of (negb (truth (member "polar" two_cameras))) skewed ∧
    to l' = to skewed.
Proof.
  apply (json_camera_is_stored 4 4 skewed4 two_cameras
           [JArray [JNumber 9; JNumber 9; JNumber 9; JNumber 9]]
           [JArray [JNumber 4; JNumber 2; JNumber 2]] [5; 6; 7; 8] skewed).
  - lia.
  - reflexivity.
  - reflexivity.
  - reflexivity.
  - repeat constructor; unfold size; simpl; lia.
  - reflexivity.
  - reflexivity.
  - reflexivity.
Defined.

Lemma json_colours_all_or_nothing_witness :
  background (parse_json 4 skewed4 two_cameras).1 = RGBA 1 0 0 1 ∧
  wireframe (parse_json 4 skewed4 two_cameras).1 = white ∧
  surface (parse_json 4 skewed4 two_cameras).1 = clear.
Proof.
  apply (json_colours_all_or_nothing 4 skewed4 two_cameras). reflexivity.
Defined.

Lemma xml_elements_of_other_sizes_are_skipped_witness :
  level_of 3 (parse 4 (skewed4, parser_of identity_document)).1.1 = level_of 3 skewed4.
Proof.
  apply (xml_elements_of_other_sizes_are_skipped 4 3 skewed4 (parser_of identity_document));
    repeat constructor.
Defined.



Lemma settings_are_normalised_witness :
  settled 7 "torus" (updateModel 7 (Defaults (Some "torus") (-4) 90)) ∧
  ∀ index, index ∈ ["model"; "depth"; "renderDepth"] →
    settled 7 "torus" (reconfigureWithIndex 7 index (Defaults (Some "torus") (-4) 90)).
Proof.
  apply (settings_are_normalised 7 (Defaults (Some "torus") (-4) 90) "torus").
  - lia.
  - reflexivity.
Defined.

Lemma updateModel_settles_witness :
  updateModel 7 (updateModel 7 sphere_settings).1 = updateModel 7 sphere_settings.
Proof. apply (updateModel_settles 7 sphere_settings). lia. Defined.

Lemma metadata_reads_the_selected_camera_witness :
  metadata 4 skewed4 = metadata 4 turned4.
Proof.
  apply (metadata_reads_the_selected_camera 4 skewed4 turned4); try reflexivity.
  intros [| [| [| [| [| k]]]]] Hk; try lia; reflexivity.
Defined.

Lemma json_transformation_is_stored_witness :
  ∃ l',
    level_of 2 (parse_json 4 skewed4 two_matrices).1 = Some l' ∧
    transformation l' = row_major 2 [1; 2; 3; 4; 5; 6; 7; 8; 9] ∧
    (∀ i j, (i ≤ 2)%nat → (j ≤ 2)%nat →
       matrix_cell 2 i j (parse_json 4 skewed4 two_matrices).1
       = [1; 2; 3; 4; 5; 6; 7; 8; 9] !! (i * (2 + 1) + j)%nat) ∧
    to l' = to (plain 2).
Proof.
  apply (json_transformation_is_stored 4 2 skewed4 two_matrices []
           [JArray [JNumber 1; JNumber 0; JNumber 0; JNumber 1]]
           [1; 2; 3; 4; 5; 6; 7; 8; 9] (plain 2)).
  - lia.
  - reflexivity.
  - reflexivity.
  - reflexivity.
  - repeat constructor; unfold size; simpl; lia.
  - reflexivity.
  - repeat constructor.
Defined.

Lemma setMatrixCell_writes_one_cell_witness :
  matrix_cell 3 1 2 (setMatrixCell 4 skewed4 3 1 2 8).1 = Some 8.
Proof.
  destruct (setMatrixCell_writes_one_cell 4 skewed4 3 1 2 8) as (_ & _ & _ & _ & _ & _ & Hcell).
  apply (Hcell (plain 3) [0; 1; 0; 0]).
  - lia.
  - reflexivity.
  - reflexivity.
  - simpl. lia.
Defined.

Lemma json_decode_wants_an_object_witness :
  parse_json 4 skewed4 (JArray [JNumber 1]) = (skewed4, false) ∧
  parseModel_json table 7 skewed4 (JArray [JNumber 1]) = (skewed4, false).
Proof.
  apply (proj2 (json_decode_wants_an_object 4 table 7 skewed4 (JArray [JNumber 1]))).
  reflexivity.
Defined.

Lemma parseModel_binds_only_the_model_witness :
  model_request (bound, parser_of foreign_document)
    = ((bound, parser_of foreign_document), Return None) ∧
  parseModel table 7 (bound, parser_of foreign_document)
    = ((bound, parser_of foreign_document), Return false).
Proof.
  apply (proj2 (proj2 (proj2 (parseModel_binds_only_the_model table 7 bound
                                (parser_of foreign_document))))).
  reflexivity.
Defined.

End FurtherExamples.
